(** * A fully connected feed-forward network trained by mini-batch SGD

    Shallow embedding of [network/__init__.py]: the quadratic cost and its
    derivative, the [Network] class (construction, [forward_feed],
    [backprop], [update_mini_batch], [sgd], [evaluate], [J_average]) and the
    properties the specification states about them.

    Conventions.
    - A one-dimensional numpy array is a [list] of scalars, a two-dimensional
      one the [list] of its rows.  The numpy operations are written for
      operands of matching shapes; the theorems that depend on shapes carry
      the shape invariant of the data model ([well_shaped]) as a hypothesis.
    - The scalar arithmetic is an interface ([Scalar]): the definitions and
      every structural theorem hold for any interpretation of [+], [-], [*],
      [/], ...; the few theorems that need an arithmetic law name it as a
      hypothesis.  There are two instances: the real numbers, and the
      binary64 floating-point numbers that numpy computes with
      ([binary64_scalar], on Rocq's primitive floats).
    - A Python exception is the [Raise] branch of [result]. *)

From Stdlib Require Import Floats.
From Stdlib Require Import List ZArith Lia Bool Arith Permutation.
From Stdlib Require String.
From Stdlib Require Import Reals Lra Psatz.
Import ListNotations.

Set Implicit Arguments.

(** ** Exceptions *)

Inductive exn : Type :=
| IndexError
| ZeroDivisionError
| ValueError
| OverflowError.

Inductive result (A : Type) : Type :=
| Ok (a : A)
| Raise (e : exn).

Arguments Ok {A} a.
Arguments Raise {A} e.

Definition bind {A B : Type} (r : result A) (k : A -> result B) : result B :=
  match r with
  | Ok a => k a
  | Raise e => Raise e
  end.

Notation "x <- r ;; k" := (bind r (fun x => k))
  (at level 61, r at next level, right associativity).
Notation "' p <- r ;; k" := (bind r (fun x => let p := x in k))
  (at level 61, p pattern, r at next level, right associativity).

(** A monadic left fold: a [for] loop whose body may raise. *)
Fixpoint foldM {A B : Type} (body : A -> B -> result A) (l : list B) (a : A)
  : result A :=
  match l with
  | [] => Ok a
  | b :: l' => a' <- body a b ;; foldM body l' a'
  end.

(** ** Scalars *)

(** The arithmetic of numpy's [float64] as the code uses it. *)
Class Scalar (F : Type) : Type := {
  of_Z : Z -> F;                (* an int used where a float is expected *)
  fhalf : F;                    (* the literal 0.5 *)
  fadd : F -> F -> F;
  fsub : F -> F -> F;
  fmul : F -> F -> F;
  fdiv : F -> F -> F;
  fneg : F -> F;
  feqb : F -> F -> bool;        (* == *)
  fltb : F -> F -> bool;        (* < *)
  ftrunc : F -> result Z        (* int(x) *)
}.

(** [np.exp], which only the default activation calls. *)
Class Exponential (F : Type) : Type := {
  fexp : F -> F
}.

(** A Python number: the label of an example is read from a float array,
    but [cost_function] accepts an int as well and applies [int(...)]. *)
Inductive pynum (F : Type) : Type :=
| PyInt (z : Z)
| PyFloat (f : F).

Arguments PyInt {F} z.
Arguments PyFloat {F} f.

(** ** Python sequences *)

Section PySeq.
Context {A : Type}.

(** [l[i]] with Python's negative indices: position [i], or [len + i]
    when [-len <= i < 0]; [IndexError] otherwise. *)
Definition py_index (len : nat) (i : Z) : result nat :=
  if ((0 <=? i) && (i <? Z.of_nat len))%Z then Ok (Z.to_nat i)
  else if ((- Z.of_nat len <=? i) && (i <? 0))%Z
       then Ok (Z.to_nat (i + Z.of_nat len))
       else Raise IndexError.

Fixpoint set_nth (l : list A) (k : nat) (a : A) : list A :=
  match l, k with
  | [], _ => []
  | _ :: l', O => a :: l'
  | b :: l', S k' => b :: set_nth l' k' a
  end.

Definition py_get (l : list A) (i : Z) : result A :=
  k <- py_index (length l) i ;;
  match nth_error l k with
  | Some a => Ok a
  | None => Raise IndexError
  end.

Definition py_set (l : list A) (i : Z) (a : A) : result (list A) :=
  k <- py_index (length l) i ;; Ok (set_nth l k a).

(** [l[lo:hi]] *)
Definition slice_bound (len : nat) (i : Z) : nat :=
  if (i <? 0)%Z then Z.to_nat (Z.max 0 (i + Z.of_nat len))
  else Nat.min (Z.to_nat i) len.

Definition py_slice (l : list A) (lo hi : Z) : list A :=
  let lo' := slice_bound (length l) lo in
  let hi' := slice_bound (length l) hi in
  firstn (hi' - lo') (skipn lo' l).
End PySeq.

(** [range(start, stop, step)]: [ValueError] for a zero step; otherwise the
  length is computed first and item [i] is [start + i * step]. *)
Definition range_len (start stop step : Z) : nat :=
  if (0 <? step)%Z then
    if (start <? stop)%Z then Z.to_nat ((stop - start - 1) / step + 1) else 0
  else
    if (stop <? start)%Z then Z.to_nat ((start - stop - 1) / (- step) + 1)
    else 0.

Definition py_range (start stop step : Z) : result (list Z) :=
  if (step =? 0)%Z then Raise ValueError
  else Ok (map (fun i => (start + Z.of_nat i * step)%Z)
               (seq 0 (range_len start stop step))).

(** ** numpy arrays *)

Section Arrays.
Context {F : Type} {SF : Scalar F}.

Definition vec : Type := list F.
Definition matrix : Type := list (list F).

Fixpoint map2 {A B C : Type} (f : A -> B -> C) (l : list A) (m : list B)
  : list C :=
  match l, m with
  | a :: l', b :: m' => f a b :: map2 f l' m'
  | _, _ => []
  end.

Definition zeros_like (v : vec) : vec := map (fun _ => of_Z 0) v.
Definition zeros_like2 (m : matrix) : matrix := map zeros_like m.

Definition vadd : vec -> vec -> vec := map2 fadd.
Definition vsub : vec -> vec -> vec := map2 fsub.
Definition vmul : vec -> vec -> vec := map2 fmul.
Definition vscale (c : F) (v : vec) : vec := map (fmul c) v.

Definition madd : matrix -> matrix -> matrix := map2 vadd.
Definition msub : matrix -> matrix -> matrix := map2 vsub.
Definition mscale (c : F) (m : matrix) : matrix := map (vscale c) m.

(** [np.sum] and the inner product, accumulated from the left. *)
Definition np_sum (v : vec) : F := fold_left fadd v (of_Z 0).
Definition inner (u v : vec) : F := np_sum (vmul u v).

(** [np.dot(m, v)] for a matrix and a vector. *)
Definition dot (m : matrix) (v : vec) : vec := map (fun row => inner row v) m.

(** [m.T] *)
Fixpoint transpose (m : matrix) : matrix :=
  match m with
  | [] => []
  | [r] => map (fun x => [x]) r
  | r :: m' => map2 cons r (transpose m')
  end.

(** [np.outer(u, v)] *)
Definition outer (u v : vec) : matrix := map (fun a => vscale a v) u.

(** [np.argmax]: the first position of the largest entry; [ValueError]
    on an empty array.  The scan moves to an entry [a] when [a <= best]
    fails, and stops at a NaN (the entry that is not equal to itself),
    which counts as the largest. *)
Fixpoint argmax_from (best : F) (besti : nat) (i : nat) (v : vec) : nat :=
  match v with
  | [] => besti
  | a :: v' =>
      if negb (feqb best best) then besti
      else if negb (fltb a best || feqb a best) then argmax_from a i (S i) v'
      else argmax_from best besti (S i) v'
  end.

Definition argmax (v : vec) : result Z :=
  match v with
  | [] => Raise ValueError
  | a :: v' => Ok (Z.of_nat (argmax_from a 0 1 v'))
  end.

(** [int(x)] *)
Definition py_int (x : pynum F) : result Z :=
  match x with
  | PyInt z => Ok z
  | PyFloat f => ftrunc f
  end.

(** ** Activation and cost *)

Definition sigmoid {SE : Exponential F} (x : vec) : vec :=
  map (fun a => fdiv (of_Z 1) (fadd (of_Z 1) (fexp (fneg a)))) x.

Definition sigmoid_derivative {SE : Exponential F} (x : vec) : vec :=
  vmul (sigmoid x) (map (fun s => fsub (of_Z 1) s) (sigmoid x)).

(** The quadratic cost of [a] against the target vector [y]. *)
Definition quadratic (a y : vec) : F :=
  fmul fhalf (np_sum (map (fun d => fmul d d) (vsub a y))).

(** The vector of correct activations built from [one_hot_index]. *)
Definition one_hot (output_activations : vec) (one_hot_index : pynum F)
  : result vec :=
  let y := zeros_like output_activations in
  i <- py_int one_hot_index ;;
  py_set y i (of_Z 1).

Definition cost_function (output_activations : vec) (one_hot_index : pynum F)
  : result F :=
  y <- one_hot output_activations one_hot_index ;;
  Ok (quadratic output_activations y).

Definition cost_derivative (output_activations : vec)
           (one_hot_index : pynum F) : result vec :=
  y <- one_hot output_activations one_hot_index ;;
  Ok (vsub output_activations y).


(** ** The network *)

(** The attributes of a [Network] object.  [cost_der] is the attribute the
    source calls [self.cost_derivative]; the field keeps the name of the
    constructor's parameter, the module-level function keeps
    [cost_derivative]. *)
Record Network : Type := {
  num_layers : nat;
  structure : list Z;
  weights : list matrix;
  biases : list vec;
  activate_function : vec -> vec;
  activate_derivative : vec -> vec;
  cost_der : vec -> pynum F -> result vec
}.

(** A dataset is a two-dimensional array whose last column holds the labels,
    so it has at least one column; the row [r] is kept as the pair
    [(r[:-1], r[-1])] that every loop of the source takes it apart into. *)
Definition example : Type := (vec * F)%type.
Definition dataset : Type := list example.

(** *** Construction *)

Section Random.
(** The state of numpy's global generator, and one standard-normal draw. *)
Variable G : Type.
Variable next_normal : G -> F * G.

Fixpoint draw (n : nat) (g : G) : vec * G :=
  match n with
  | O => ([], g)
  | S n' =>
      let (a, g1) := next_normal g in
      let (v, g2) := draw n' g1 in
      (a :: v, g2)
  end.

Fixpoint draw_rows (r c : nat) (g : G) : matrix * G :=
  match r with
  | O => ([], g)
  | S r' =>
      let (v, g1) := draw c g in
      let (m, g2) := draw_rows r' c g1 in
      (v :: m, g2)
  end.

(** [np.random.randn(d0)] and [np.random.randn(d0, d1)]: a negative
    dimension is a [ValueError]. *)
Definition randn (d0 : Z) (g : G) : result (vec * G) :=
  if (d0 <? 0)%Z then Raise ValueError else Ok (draw (Z.to_nat d0) g).

Definition randn2 (d0 d1 : Z) (g : G) : result (matrix * G) :=
  if ((d0 <? 0) || (d1 <? 0))%Z then Raise ValueError
  else Ok (draw_rows (Z.to_nat d0) (Z.to_nat d1) g).

(** [range(1, num_layers)] *)
Definition layer_range (num_layers : nat) : list Z :=
  map Z.of_nat (seq 1 (num_layers - 1)).

Definition random_weights (structure : list Z) (g : G)
  : result (list matrix * G) :=
  foldM (fun '(acc, g) layer =>
           r <- py_get structure layer ;;
           c <- py_get structure (layer - 1) ;;
           '(w, g') <- randn2 r c g ;;
           Ok (acc ++ [w], g'))
        (layer_range (length structure)) ([], g).

Definition random_biases (structure : list Z) (g : G)
  : result (list vec * G) :=
  foldM (fun '(acc, g) layer =>
           r <- py_get structure layer ;;
           '(b, g') <- randn r g ;;
           Ok (acc ++ [b], g'))
        (layer_range (length structure)) ([], g).

(** [Network.__init__] *)
Definition Network_init (structure : list Z)
           (weights : option (list matrix)) (biases : option (list vec))
           (activate_function activate_der : vec -> vec)
           (cost_der : vec -> pynum F -> result vec) (g : G)
  : result (Network * G) :=
  let num_layers := length structure in
  '(ws, g1) <- match weights with
               | Some ws => Ok (ws, g)
               | None => random_weights structure g
               end ;;
  '(bs, g2) <- match biases with
               | Some bs => Ok (bs, g1)
               | None => random_biases structure g1
               end ;;
  Ok ({| num_layers := num_layers;
         structure := structure;
         weights := ws;
         biases := bs;
         activate_function := activate_function;
         activate_derivative := activate_der;
         cost_der := cost_der |}, g2).

End Random.

(** *** Forward inference *)

Definition forward_feed (self : Network) (example : vec) : vec :=
  fold_left (fun output '(w, b) =>
               activate_function self (vadd (dot w output) b))
            (combine (weights self) (biases self)) example.

(** *** Backpropagation *)

(** The forward pass of [backprop]: [(activation, activation_matrix,
    summatory_matrix)] after the loop over [zip(weights, biases)]. *)
Definition forward_pass (self : Network) (x : vec)
  : vec * list vec * list vec :=
  fold_left (fun '(activation, activation_matrix, summatory_matrix) '(w, b) =>
               let summatory := vadd (dot w activation) b in
               let summatory_matrix := summatory_matrix ++ [summatory] in
               let activation := activate_function self summatory in
               (activation, activation_matrix ++ [activation],
                summatory_matrix))
            (combine (weights self) (biases self)) (x, [x], []).

(** One iteration of the backward loop, for [layer] in
    [range(2, num_layers)]. *)
Definition backward_step (self : Network)
           (activation_matrix summatory_matrix : list vec)
           (st : vec * list vec * list matrix) (layer : Z)
  : result (vec * list vec * list matrix) :=
  let '(delta, nabla_biases, nabla_weights) := st in
  w <- py_get (weights self) (- layer + 1) ;;
  z <- py_get summatory_matrix (- layer) ;;
  let delta := vmul (dot (transpose w) delta) (activate_derivative self z) in
  nabla_biases <- py_set nabla_biases (- layer) delta ;;
  a <- py_get activation_matrix (- layer - 1) ;;
  nabla_weights <- py_set nabla_weights (- layer) (outer delta a) ;;
  Ok (delta, nabla_biases, nabla_weights).

Definition backprop (self : Network) (x : vec) (y : pynum F)
  : result (list matrix * list vec) :=
  let nabla_biases := map zeros_like (biases self) in
  let nabla_weights := map zeros_like2 (weights self) in
  let '(_, activation_matrix, summatory_matrix) := forward_pass self x in
  a_out <- py_get activation_matrix (-1) ;;
  cd <- cost_der self a_out y ;;
  z_out <- py_get summatory_matrix (-1) ;;
  let delta := vmul cd (activate_derivative self z_out) in
  nabla_biases <- py_set nabla_biases (-1) delta ;;
  a_in <- py_get activation_matrix (-2) ;;
  nabla_weights <- py_set nabla_weights (-1) (outer delta a_in) ;;
  '(_, nabla_biases, nabla_weights) <-
    foldM (backward_step self activation_matrix summatory_matrix)
          (map Z.of_nat (seq 2 (num_layers self - 2)))
          (delta, nabla_biases, nabla_weights) ;;
  Ok (nabla_weights, nabla_biases).

(** *** The shape invariant and the backward recurrence *)

(** [ws] and [bs] are the parameters of consecutive layer transitions that
    start from a layer of [n_in] neurons and go through layers of [outs]
    neurons: each weight matrix has as many rows as its bias vector has
    entries, and as many columns as the previous layer has neurons. *)
Fixpoint layers_shaped (n_in : nat) (outs : list nat)
         (ws : list matrix) (bs : list vec) : Prop :=
  match outs, ws, bs with
  | [], [], [] => True
  | n :: outs', w :: ws', b :: bs' =>
      length w = n /\ Forall (fun row => length row = n_in) w /\
      length b = n /\ layers_shaped n outs' ws' bs'
  | _, _, _ => False
  end.

(** The invariants of the data model: at least two layers, every layer with
    a positive number of neurons, [num_layers] the length of the structure,
    and one weight matrix and one bias vector of the declared shape per
    layer transition. *)
Definition well_shaped (self : Network) : Prop :=
  num_layers self = length (structure self) /\
  2 <= length (structure self) /\
  Forall (fun n => (0 < n)%Z) (structure self) /\
  layers_shaped (Z.to_nat (hd 0%Z (structure self)))
                (map Z.to_nat (tl (structure self)))
                (weights self) (biases self).

(** The number of neurons of the input layer. *)
Definition input_size (self : Network) : nat :=
  Z.to_nat (hd 0%Z (structure self)).

(** A function on arrays that keeps the length, as every function applied
    elementwise does. *)
Definition keeps_length (f : vec -> vec) : Prop :=
  forall v, length (f v) = length v.

(** The pre-activation sums and the activations of the layers that follow
    an activation [a], in layer order. *)
Fixpoint summatories (act : vec -> vec) (ws : list matrix) (bs : list vec)
         (a : vec) : list vec :=
  match ws, bs with
  | w :: ws', b :: bs' =>
      let z := vadd (dot w a) b in
      z :: summatories act ws' bs' (act z)
  | _, _ => []
  end.

Fixpoint activations (act : vec -> vec) (ws : list matrix) (bs : list vec)
         (a : vec) : list vec :=
  match ws, bs with
  | w :: ws', b :: bs' =>
      let a' := act (vadd (dot w a) b) in
      a' :: activations act ws' bs' a'
  | _, _ => []
  end.

(** The error terms as the specification words them, in layer order: the
    last one is [cd * act_der(z)] for the output layer's summatory [z]; the
    one of an earlier layer is the next layer's weights, transposed, times
    the next error, multiplied elementwise by [act_der] of that layer's
    summatory. *)
Fixpoint errors (act_der : vec -> vec) (cd : vec)
         (ws : list matrix) (zs : list vec) : list vec :=
  match ws, zs with
  | _ :: ws', z :: zs' =>
      match ws' with
      | [] => [vmul cd (act_der z)]
      | w_next :: _ =>
          let ds := errors act_der cd ws' zs' in
          vmul (dot (transpose w_next) (hd [] ds)) (act_der z) :: ds
      end
  | _, _ => []
  end.

(** *** Methods that run against the object *)

(** A method call: it may raise, and otherwise returns a value and the
    object as the call leaves it. *)
Definition method (A : Type) : Type := Network -> result (A * Network).

(** [x / n] for a Python number [x] (an int or a float, given as a float)
    and an int [n]: Python raises on [n = 0].  This is the division of
    [evaluate] and [J_average], whose numerators are Python numbers when
    the dataset is empty, and of [update_mini_batch] for a learning rate
    that is a Python number. *)
Definition py_div_int (x : F) (n : Z) : result F :=
  if (n =? 0)%Z then Raise ZeroDivisionError else Ok (fdiv x (of_Z n)).

(** The loop of [update_mini_batch] that sums the gradients of the
    examples into the accumulators. *)
Definition accumulate (self : Network) (mini_batch : dataset)
           (acc : list matrix * list vec) : result (list matrix * list vec) :=
  foldM (fun '(nabla_weights, nabla_biases) '(x, y) =>
           '(nabla_w, nabla_b) <- backprop self x (PyFloat y) ;;
           Ok (map2 madd nabla_weights nabla_w,
               map2 vadd nabla_biases nabla_b))
        mini_batch acc.

Definition update_mini_batch (mini_batch : dataset) (learning_rate : F)
  : method unit :=
  fun self =>
    let nabla_biases := map zeros_like (biases self) in
    let nabla_weights := map zeros_like2 (weights self) in
    '(nabla_weights, nabla_biases) <-
      accumulate self mini_batch (nabla_weights, nabla_biases) ;;
    learning_rate <- py_div_int learning_rate (Z.of_nat (length mini_batch)) ;;
    Ok (tt,
        {| num_layers := num_layers self;
           structure := structure self;
           weights := map2 (fun w nws => msub w (mscale learning_rate nws))
                           (weights self) nabla_weights;
           biases := map2 (fun b nbs => vsub b (vscale learning_rate nbs))
                          (biases self) nabla_biases;
           activate_function := activate_function self;
           activate_derivative := activate_derivative self;
           cost_der := cost_der self |}).

(** A list comprehension whose body may raise. *)
Fixpoint mapM {A B : Type} (f : A -> result B) (l : list A) : result (list B) :=
  match l with
  | [] => Ok []
  | a :: l' => b <- f a ;; bs <- mapM f l' ;; Ok (b :: bs)
  end.

(** [sum(int(x == y) for (x, y) in test_result)] *)
Definition count_hits (test_result : list (Z * F)) : Z :=
  fold_left (fun s '(x, y) => (s + (if feqb (of_Z x) y then 1 else 0))%Z)
            test_result 0%Z.

Definition evaluate (test_data : dataset) : method F :=
  fun self =>
    let num_test_examples := Z.of_nat (length test_data) in
    test_result <- mapM (fun '(x, y) =>
                           p <- argmax (forward_feed self x) ;; Ok (p, y))
                        test_data ;;
    q <- py_div_int (of_Z (count_hits test_result)) num_test_examples ;;
    Ok (fmul q (of_Z 100), self).

Definition J_average (test_data : dataset) : method F :=
  fun self =>
    let num_test_examples := Z.of_nat (length test_data) in
    total_cost <- foldM (fun total_cost '(x, y) =>
                           let output_activation := forward_feed self x in
                           c <- cost_function output_activation (PyFloat y) ;;
                           Ok (fadd total_cost c))
                        test_data (of_Z 0) ;;
    r <- py_div_int total_cost num_test_examples ;;
    Ok (r, self).

(** Two arrays of the same shape: as many rows, and rows of the same
    lengths.  (A list of bias vectors is compared the same way.) *)
Definition same_shape (m n : matrix) : Prop :=
  Forall2 (fun r s => length r = length s) m n.

Definition same_shapes (ms ns : list matrix) : Prop :=
  Forall2 same_shape ms ns.

(** A cost derivative that, where it is defined, has the shape of the
    output activations. *)
Definition cost_keeps_length (cost : vec -> pynum F -> result vec) : Prop :=
  forall a y cd, cost a y = Ok cd -> length cd = length a.

(** The gradients of the examples of a mini-batch, one [backprop] each. *)
Definition batch_gradients (self : Network) (mini_batch : dataset)
  : result (list (list matrix * list vec)) :=
  mapM (fun ex => backprop self (fst ex) (PyFloat (snd ex))) mini_batch.

(** Entry [j] of row [i] of the weight matrix of layer [l], and entry [i]
    of the bias vector of layer [l]. *)
Definition weight_entry (ws : list matrix) (l i j : nat) : F :=
  nth j (nth i (nth l ws []) []) (of_Z 0).

Definition bias_entry (bs : list vec) (l i : nat) : F :=
  nth i (nth l bs []) (of_Z 0).

(** The arithmetic fact behind a step of size zero on a batch of [n]
    examples: a finite parameter [w] from which [0 / n] times a finite
    accumulated gradient [g] is subtracted compares equal ([==]) to [w].
    What counts as finite is a parameter: in binary64 the fact fails for an
    infinite or NaN gradient, since [0 * inf] is NaN. *)
Definition zero_step_law (finite : F -> Prop) (n : Z) : Prop :=
  forall w g : F, finite w -> finite g ->
    feqb (fsub w (fmul (fdiv (of_Z 0) (of_Z n)) g)) w = true.

(** What training relies on: the declared shapes, activation functions
    that keep lengths, and a cost derivative of the shape of the output. *)
Definition trainable (self : Network) : Prop :=
  well_shaped self /\
  keeps_length (activate_function self) /\
  keeps_length (activate_derivative self) /\
  cost_keeps_length (cost_der self).

(** Every row of the dataset has as many feature columns as the input
    layer has neurons. *)
Definition rows_fit (self : Network) (d : dataset) : Prop :=
  forall ex, In ex d -> length (fst ex) = input_size self.

(** The weights and biases are those of consecutive layer transitions fed
    by [x], whatever number of layers the structure declares: every
    [np.dot] and every addition of a bias vector in [forward_feed] and
    [backprop] then meets operands of matching shapes. *)
Definition parameters_fit (self : Network) (x : vec) : Prop :=
  exists outs : list nat,
    layers_shaped (length x) outs (weights self) (biases self).

(** *** What [evaluate] counts *)

(** An example is a hit when the position of the largest output activation
    equals its label. *)
Definition is_hit (self : Network) (ex : example) : bool :=
  match argmax (forward_feed self (fst ex)) with
  | Ok p => feqb (of_Z p) (snd ex)
  | Raise _ => false
  end.

Definition hits (self : Network) (test_data : dataset) : nat :=
  length (filter (is_hit self) test_data).

(** The two order facts that put a percentage on the 0-100 scale: a quotient
    [h / n] of integers [0 <= h <= n] is neither below 0 nor above 1, and
    multiplying such a quotient by 100 gives a value neither below 0 nor
    above 100. *)
Definition percent_order_laws : Prop :=
  (forall h n : Z, (0 <= h <= n)%Z -> (0 < n)%Z ->
     fltb (fdiv (of_Z h) (of_Z n)) (of_Z 0) = false /\
     fltb (of_Z 1) (fdiv (of_Z h) (of_Z n)) = false) /\
  (forall q : F,
     fltb q (of_Z 0) = false -> fltb (of_Z 1) q = false ->
     fltb (fmul q (of_Z 100)) (of_Z 0) = false /\
     fltb (of_Z 100) (fmul q (of_Z 100)) = false).

(** *** Training *)

(** What the run leaves outside the object: the records handed to the
    logger and the checkpoints handed to [save_neural_network]. *)
Inductive event : Type :=
| LogInfo (epoch : Z) (r : pynum F) (j : option F)
| SaveNetwork (net : Network) (output_dir : String.string).

Section SGD.
(** The collaborators of [sgd]: the generator behind [np.random.shuffle]
    and Python's [round]. *)
Variable G : Type.
Variable shuffle : G -> dataset -> dataset * G.
Variable py_round : F -> Z -> F.

(** What [sgd] reads and writes: the object, the caller's [data] array
    (shuffled in place), the generator and the events emitted so far. *)
Record world : Type := {
  net : Network;
  data : dataset;
  rng : G;
  trace : list event
}.

(** The slices [data[k : k + mini_batch_size]] for [k] in
    [range(0, num_examples, mini_batch_size)]. *)
Definition mini_batches_of (data : dataset) (num_examples : Z)
           (mini_batch_size : Z) : result (list dataset) :=
  ks <- py_range 0 num_examples mini_batch_size ;;
  Ok (map (fun k => py_slice data k (k + mini_batch_size)) ks).

Definition sgd_epoch (num_examples mini_batch_size : Z) (learning_rate : F)
           (output_dir : String.string) (test_data : option dataset)
           (w : world) (epoch : Z) : result world :=
  let (data', g') := shuffle (rng w) (data w) in
  mini_batches <- mini_batches_of data' num_examples mini_batch_size ;;
  self <- foldM (fun self mini_batch =>
                   '(_, self') <- update_mini_batch mini_batch learning_rate self ;;
                   Ok self')
                mini_batches (net w) ;;
  '(ev, self) <- match test_data with
                 | Some td =>
                     '(present_success_tests, self1) <- evaluate td self ;;
                     '(j_average, self2) <- J_average td self1 ;;
                     Ok (LogInfo epoch
                                 (PyFloat (py_round present_success_tests 3))
                                 (Some j_average), self2)
                 | None => Ok (LogInfo epoch (PyInt 0) None, self)
                 end ;;
  let saved := if (epoch mod 1 =? 0)%Z then [SaveNetwork self output_dir]
               else [] in
  Ok {| net := self; data := data'; rng := g';
        trace := trace w ++ ev :: saved |}.

Definition sgd (mini_batch_size max_epochs : Z) (learning_rate : F)
           (output_dir : String.string) (test_data : option dataset) (w : world)
  : result (pynum F * world) :=
  let num_examples := Z.of_nat (length (data w)) in
  w' <- foldM (sgd_epoch num_examples mini_batch_size learning_rate
                         output_dir test_data)
              (map Z.of_nat (seq 0 (Z.to_nat max_epochs))) w ;;
  match test_data with
  | Some td =>
      '(r, self) <- evaluate td (net w') ;;
      Ok (PyFloat r,
          {| net := self; data := data w'; rng := rng w'; trace := trace w' |})
  | None => Ok (PyInt 0, w')
  end.

End SGD.

End Arrays.

Arguments vec F : clear implicits.
Arguments matrix F : clear implicits.
Arguments example F : clear implicits.
Arguments dataset F : clear implicits.
Arguments Network F : clear implicits.
Arguments method F A : clear implicits.
Arguments event F : clear implicits.
Arguments world F G : clear implicits.

(** ** The reference instance: real arithmetic *)

(** [int(x)] truncates towards zero. *)
Definition Rtrunc (x : R) : Z :=
  if Rle_dec 0 x then Int_part x else (- Int_part (- x))%Z.

#[export] Instance R_scalar : Scalar R := {|
  of_Z := IZR;
  fhalf := (1 / 2)%R;
  fadd := Rplus;
  fsub := Rminus;
  fmul := Rmult;
  fdiv := Rdiv;
  fneg := Ropp;
  feqb := fun x y => if Req_dec_T x y then true else false;
  fltb := fun x y => if Rlt_dec x y then true else false;
  ftrunc := fun x => Ok (Rtrunc x)
|}.

#[export] Instance R_exponential : Exponential R := {|
  fexp := exp
|}.

(** ** The code's instance: binary64 arithmetic *)

(** An int where a float is expected is rounded to the nearest binary64
    number (an int beyond the largest one becomes an infinity here, where
    Python raises [OverflowError]; no theorem below converts such an int). *)
Definition binary64_of_Z (z : Z) : float :=
  SF2Prim (binary_normalize prec emax z 0 false).

(** [int(x)]: truncation towards zero, [ValueError] on a NaN and
    [OverflowError] on an infinity. *)
Definition binary64_trunc (x : float) : result Z :=
  match Prim2SF x with
  | S754_nan => Raise ValueError
  | S754_infinity _ => Raise OverflowError
  | S754_zero _ => Ok 0%Z
  | S754_finite s m e =>
      let a := if (0 <=? e)%Z then (Z.pos m * 2 ^ e)%Z
               else (Z.pos m / 2 ^ (- e))%Z in
      Ok (if s then (- a)%Z else a)
  end.

#[export] Instance binary64_scalar : Scalar float := {|
  of_Z := binary64_of_Z;
  fhalf := 0.5%float;
  fadd := PrimFloat.add;
  fsub := PrimFloat.sub;
  fmul := PrimFloat.mul;
  fdiv := PrimFloat.div;
  fneg := PrimFloat.opp;
  feqb := PrimFloat.eqb;
  fltb := PrimFloat.ltb;
  ftrunc := binary64_trunc
|}.

(** Neither a NaN nor an infinity. *)
Definition binary64_finite (x : float) : Prop :=
  match Prim2SF x with
  | S754_zero _ | S754_finite _ _ _ => True
  | S754_infinity _ | S754_nan => False
  end.

(** ** Concrete objects over binary64 *)

(** A network [1, 1] with the identity as activation function (its
    derivative the constant 1) and the quadratic cost, whose single weight
    is [2^1023]; a row it maps to a finite output, and a row on which the
    weighted sum overflows. *)
Definition steep_network : Network float := {|
  num_layers := 2;
  structure := [1; 1]%Z;
  weights := [[[0x1p+1023%float]]];
  biases := [[0%float]];
  activate_function := fun v => v;
  activate_derivative := fun v => map (fun _ => 1%float) v;
  cost_der := cost_derivative
|}.

Definition finite_batch : dataset float := [([0.5%float], 0%float)].

Definition overflow_batch : dataset float := [([2%float], 0%float)].

(** What [update_mini_batch] leaves of [steep_network] on
    [overflow_batch]. *)
Definition nan_network : Network float := {|
  num_layers := 2;
  structure := [1; 1]%Z;
  weights := [[[nan]]];
  biases := [[nan]];
  activate_function := fun v => v;
  activate_derivative := fun v => map (fun _ => 1%float) v;
  cost_der := cost_derivative
|}.

(** ** Concrete objects over the reals *)

(** A network [2, 2, 1] with the default sigmoid activation and quadratic
    cost, a one-row dataset for it, and a generator that always draws 0. *)
Definition example_network : Network R := {|
  num_layers := 3;
  structure := [2; 2; 1]%Z;
  weights := [[[1; 0]; [0; 1]]; [[1; 1]]]%R;
  biases := [[0; 0]; [0]]%R;
  activate_function := sigmoid;
  activate_derivative := sigmoid_derivative;
  cost_der := cost_derivative
|}.

Definition example_batch : dataset R := [([1; 0], 0)]%R.

Definition constant_generator (g : unit) : R * unit := (0%R, g).

(** A shuffle that reverses the rows, and a [round] that does nothing. *)
Definition reversing_shuffle (g : unit) (d : dataset R) : dataset R * unit :=
  (rev d, g).

Definition no_round (r : R) (digits : Z) : R := r.

Definition example_world : world R unit := {|
  net := example_network;
  data := example_batch;
  rng := tt;
  trace := []
|}.

(** The same parameters under a structure that declares one layer too few
    and one layer too many, and a network of a single layer. *)
Definition short_declared_network : Network R := {|
  num_layers := 2;
  structure := [2; 1]%Z;
  weights := weights example_network;
  biases := biases example_network;
  activate_function := sigmoid;
  activate_derivative := sigmoid_derivative;
  cost_der := cost_derivative
|}.

Definition long_declared_network : Network R := {|
  num_layers := 4;
  structure := [2; 2; 2; 1]%Z;
  weights := weights example_network;
  biases := biases example_network;
  activate_function := sigmoid;
  activate_derivative := sigmoid_derivative;
  cost_der := cost_derivative
|}.

Definition single_layer_network : Network R := {|
  num_layers := 1;
  structure := [3]%Z;
  weights := [];
  biases := [];
  activate_function := sigmoid;
  activate_derivative := sigmoid_derivative;
  cost_der := cost_derivative
|}.


(** The network the constructor draws for the structure [2, 1] from the
    constant generator. *)
Definition drawn_network : Network R := {|
  num_layers := 2;
  structure := [2; 1]%Z;
  weights := [[[0; 0]]]%R;
  biases := [[0]]%R;
  activate_function := sigmoid;
  activate_derivative := sigmoid_derivative;
  cost_der := cost_derivative
|}.

(** The example world with nothing to train on. *)
Definition empty_world : world R unit := {|
  net := example_network;
  data := [];
  rng := tt;
  trace := []
|}.

(** The two layer transitions of [example_network] as networks of their
    own, and the network with a surplus weight matrix. *)
Definition first_transition : Network R := {|
  num_layers := 2;
  structure := [2; 2]%Z;
  weights := [[[1; 0]; [0; 1]]]%R;
  biases := [[0; 0]]%R;
  activate_function := sigmoid;
  activate_derivative := sigmoid_derivative;
  cost_der := cost_derivative
|}.

Definition second_transition : Network R := {|
  num_layers := 2;
  structure := [2; 1]%Z;
  weights := [[[1; 1]]]%R;
  biases := [[0]]%R;
  activate_function := sigmoid;
  activate_derivative := sigmoid_derivative;
  cost_der := cost_derivative
|}.

Definition surplus_network : Network R := {|
  num_layers := 3;
  structure := [2; 2; 1]%Z;
  weights := [[[1; 0]; [0; 1]]; [[1; 1]]]%R;
  biases := [[0; 0]]%R;
  activate_function := sigmoid;
  activate_derivative := sigmoid_derivative;
  cost_der := cost_derivative
|}.
(** ** Proof steps for code in the [result] monad *)

(** From [x <- r ;; k = Ok v]: [r] returned, continue with [k]. *)
Ltac bind_ok H :=
  match type of H with
  | bind ?r _ = Ok _ =>
      let E := fresh "E" in
      destruct r eqn:E; simpl in H; [|discriminate H]
  end.

(** Linear arithmetic over lengths, whatever name the array types go by. *)
Ltac len_lia := unfold matrix, vec in *; lia.

(** ** Python sequences: indexing lemmas *)

Section PySeqFacts.
Context {A : Type}.

Lemma py_index_nonneg (len : nat) (i : Z) :
  (0 <= i < Z.of_nat len)%Z -> py_index len i = Ok (Z.to_nat i).
Proof.
  intros Hi. unfold py_index.
  replace ((0 <=? i) && (i <? Z.of_nat len))%Z with true; [reflexivity|].
  symmetry. apply andb_true_iff. split; [apply Z.leb_le | apply Z.ltb_lt]; lia.
Qed.

Lemma py_index_neg (len : nat) (i : Z) :
  (- Z.of_nat len <= i < 0)%Z ->
  py_index len i = Ok (Z.to_nat (i + Z.of_nat len)).
Proof.
  intros Hi. unfold py_index.
  replace ((0 <=? i) && (i <? Z.of_nat len))%Z with false.
  - replace ((- Z.of_nat len <=? i) && (i <? 0))%Z with true; [reflexivity|].
    symmetry. apply andb_true_iff.
    split; [apply Z.leb_le | apply Z.ltb_lt]; lia.
  - symmetry. apply andb_false_iff. left. apply Z.leb_gt. lia.
Qed.

Lemma py_index_out (len : nat) (i : Z) :
  (i < - Z.of_nat len \/ Z.of_nat len <= i)%Z ->
  py_index len i = Raise IndexError.
Proof.
  intros Hi. unfold py_index.
  destruct (0 <=? i)%Z eqn:E0; destruct (i <? Z.of_nat len)%Z eqn:E1;
    destruct (- Z.of_nat len <=? i)%Z eqn:E2; destruct (i <? 0)%Z eqn:E3;
    simpl; try reflexivity;
    rewrite ?Z.leb_le, ?Z.ltb_lt, ?Z.leb_gt, ?Z.ltb_ge in *; lia.
Qed.

Lemma py_index_in_range (len : nat) (i : Z) (k : nat) :
  py_index len i = Ok k -> k < len.
Proof.
  unfold py_index.
  destruct (0 <=? i)%Z eqn:E0; destruct (i <? Z.of_nat len)%Z eqn:E1;
    destruct (- Z.of_nat len <=? i)%Z eqn:E2; destruct (i <? 0)%Z eqn:E3;
    simpl; intros Hk; inversion Hk; subst;
    rewrite ?Z.leb_le, ?Z.ltb_lt, ?Z.leb_gt, ?Z.ltb_ge in *; lia.
Qed.

Lemma set_nth_length (l : list A) (k : nat) (a : A) :
  length (set_nth l k a) = length l.
Proof.
  revert k. induction l as [|b l IH]; intros [|k]; simpl; auto.
Qed.

Lemma nth_set_nth_eq (l : list A) (k : nat) (a d : A) :
  k < length l -> nth k (set_nth l k a) d = a.
Proof.
  revert k. induction l as [|b l IH]; intros [|k]; simpl; intros Hk;
    try lia; auto. apply IH. lia.
Qed.

Lemma nth_set_nth_neq (l : list A) (k j : nat) (a d : A) :
  j <> k -> nth j (set_nth l k a) d = nth j l d.
Proof.
  revert k j. induction l as [|b l IH]; intros [|k] [|j]; simpl; intros Hk;
    try lia; auto.
Qed.

(** Reading from the back: [l[-k]] is the element at [len - k]. *)
Lemma py_get_back (l : list A) (k : nat) (d : A) :
  1 <= k <= length l ->
  py_get l (- Z.of_nat k) = Ok (nth (length l - k) l d).
Proof.
  intros Hk. unfold py_get.
  rewrite py_index_neg by lia. simpl.
  replace (Z.to_nat (- Z.of_nat k + Z.of_nat (length l))) with (length l - k)
    by lia.
  destruct (nth_error l (length l - k)) eqn:E.
  - f_equal. symmetry. apply nth_error_nth. exact E.
  - apply nth_error_None in E. lia.
Qed.

Lemma py_set_back (l : list A) (k : nat) (a : A) :
  1 <= k <= length l ->
  py_set l (- Z.of_nat k) a = Ok (set_nth l (length l - k) a).
Proof.
  intros Hk. unfold py_set.
  rewrite py_index_neg by lia. simpl.
  do 2 f_equal. lia.
Qed.

End PySeqFacts.

(** ** The cost functions and the target index *)

Section CostFacts.
Context {F : Type} {SF : Scalar F}.

Lemma zeros_like_length (v : vec F) : length (zeros_like v) = length v.
Proof. apply length_map. Qed.

Lemma nth_zeros_like (v : vec F) (k : nat) :
  nth k (zeros_like v) (of_Z 0) = of_Z 0.
Proof.
  revert k. induction v as [|a v IH]; intros [|k]; simpl; auto.
Qed.

Lemma cost_function_of_one_hot (a : vec F) (i : pynum F) :
  cost_function a i = y <- one_hot a i ;; Ok (quadratic a y).
Proof. reflexivity. Qed.

Lemma one_hot_in_range (a : vec F) (i : Z) :
  (0 <= i < Z.of_nat (length a))%Z ->
  one_hot a (PyInt i) = Ok (set_nth (zeros_like a) (Z.to_nat i) (of_Z 1)).
Proof.
  intros Hi. unfold one_hot, py_set. simpl.
  rewrite zeros_like_length, py_index_nonneg by lia. reflexivity.
Qed.

Lemma one_hot_wraps (a : vec F) (i : Z) :
  (- Z.of_nat (length a) <= i < 0)%Z ->
  one_hot a (PyInt i)
  = Ok (set_nth (zeros_like a) (Z.to_nat (Z.of_nat (length a) + i)) (of_Z 1)).
Proof.
  intros Hi. unfold one_hot, py_set. simpl.
  rewrite zeros_like_length, py_index_neg by lia. simpl.
  do 2 f_equal. lia.
Qed.

Lemma one_hot_out (a : vec F) (i : Z) :
  (i < - Z.of_nat (length a) \/ Z.of_nat (length a) <= i)%Z ->
  one_hot a (PyInt i) = Raise IndexError.
Proof.
  intros Hi. unfold one_hot, py_set. simpl.
  rewrite zeros_like_length, py_index_out by lia. reflexivity.
Qed.

(** C3, as the code has it: with [n] the length of the output vector, an
    integer target index makes [cost_function] and [cost_derivative] raise
    [IndexError] exactly when it is [>= n] or [< -n]; for every index with
    [-n <= i < n], so for every position [0 .. n-1], both return a value. *)
Theorem cost_index_error (a : vec F) (i : Z) :
  let n := Z.of_nat (length a) in
  (cost_function a (PyInt i) = Raise IndexError <-> (i < - n \/ n <= i)%Z) /\
  (cost_derivative a (PyInt i) = Raise IndexError <-> (i < - n \/ n <= i)%Z) /\
  ((exists c d, cost_function a (PyInt i) = Ok c /\
                cost_derivative a (PyInt i) = Ok d) <-> (- n <= i < n)%Z).
Proof.
  intros n. subst n.
  rewrite cost_function_of_one_hot. unfold cost_derivative.
  destruct (Z_lt_le_dec i (- Z.of_nat (length a))) as [Hlo|Hlo];
    [|destruct (Z_lt_le_dec i 0) as [Hneg|Hneg];
      [|destruct (Z_lt_le_dec i (Z.of_nat (length a))) as [Hhi|Hhi]]].
  - rewrite one_hot_out by lia. simpl.
    repeat split; intros; try lia; try reflexivity.
    destruct H as (c & d & Hc & _). discriminate.
  - rewrite one_hot_wraps by lia. simpl.
    repeat split; intros; try lia; try discriminate. eauto.
  - rewrite one_hot_in_range by lia. simpl.
    repeat split; intros; try lia; try discriminate. eauto.
  - rewrite one_hot_out by lia. simpl.
    repeat split; intros; try lia; try reflexivity.
    destruct H as (c & d & Hc & _). discriminate.
Qed.

(** C8: for an output vector of length [n] and an integer target index [i]
    with [-n <= i < 0], [cost_function] and [cost_derivative] return: the
    target vector they build has its 1 at position [n + i]; and whenever
    either of them raises on an integer index, that index is [>= n] or
    [< -n]. *)
Theorem cost_negative_index_wraps (a : vec F) (i : Z) :
  (- Z.of_nat (length a) <= i < 0)%Z ->
  let y := set_nth (zeros_like a) (Z.to_nat (Z.of_nat (length a) + i))
                   (of_Z 1) in
  cost_function a (PyInt i) = Ok (quadratic a y) /\
  cost_derivative a (PyInt i) = Ok (vsub a y) /\
  nth (Z.to_nat (Z.of_nat (length a) + i)) y (of_Z 0) = of_Z 1 /\
  (forall k, k <> Z.to_nat (Z.of_nat (length a) + i) ->
             nth k y (of_Z 0) = of_Z 0) /\
  (forall (j : Z) (e : exn),
      cost_function a (PyInt j) = Raise e \/
      cost_derivative a (PyInt j) = Raise e ->
      (j < - Z.of_nat (length a) \/ Z.of_nat (length a) <= j)%Z).
Proof.
  intros Hi y.
  rewrite cost_function_of_one_hot. unfold cost_derivative.
  rewrite one_hot_wraps by lia. fold y. simpl.
  split; [reflexivity|]. split; [reflexivity|]. split; [|split].
  - unfold y. apply nth_set_nth_eq. rewrite zeros_like_length. lia.
  - intros k Hk. unfold y. rewrite nth_set_nth_neq by exact Hk.
    apply nth_zeros_like.
  - intros j e Hraise.
    destruct (Z_lt_le_dec j (- Z.of_nat (length a))) as [Hlo|Hlo]; [lia|].
    destruct (Z_lt_le_dec j (Z.of_nat (length a))) as [Hhi|Hhi]; [|lia].
    exfalso.
    rewrite cost_function_of_one_hot in Hraise. unfold cost_derivative in Hraise.
    destruct (Z_lt_le_dec j 0) as [Hneg|Hneg].
    + rewrite one_hot_wraps in Hraise by lia. simpl in Hraise.
      destruct Hraise; discriminate.
    + rewrite one_hot_in_range in Hraise by lia. simpl in Hraise.
      destruct Hraise; discriminate.
Qed.

End CostFacts.

(** ** Evaluation *)

Section EvaluateFacts.
Context {F : Type} {SF : Scalar F}.

(** C9: on a dataset with zero rows [evaluate] and [J_average] raise
    [ZeroDivisionError]: [num_test_examples] is 0, nothing guards the final
    division, and no value is returned. *)
Theorem evaluate_empty_divides_by_zero (self : Network F) :
  evaluate [] self = Raise ZeroDivisionError /\
  J_average [] self = Raise ZeroDivisionError.
Proof. split; reflexivity. Qed.

Lemma count_hits_from (self : Network F) (td : dataset F) (s : Z) :
  (forall ex, In ex td -> forward_feed self (fst ex) <> []) ->
  exists tr,
    mapM (fun '(x, y) => p <- argmax (forward_feed self x) ;; Ok (p, y)) td
    = Ok tr /\
    fold_left (fun s '(x, y) => (s + (if feqb (of_Z x) y then 1 else 0))%Z)
              tr s
    = (s + Z.of_nat (hits self td))%Z.
Proof.
  revert s. induction td as [|[x y] td IH]; intros s Hout.
  - exists []. split; [reflexivity|]. unfold hits. simpl. lia.
  - assert (Hx : forward_feed self x <> []) by (apply (Hout (x, y)); now left).
    destruct (forward_feed self x) as [|a out] eqn:Ex; [congruence|].
    set (p := Z.of_nat (argmax_from a 0 1 out)).
    destruct (IH (s + (if feqb (of_Z p) y then 1 else 0))%Z) as (tr & Htr & Hc).
    { intros ex Hex. apply Hout. now right. }
    exists ((p, y) :: tr). split.
    + simpl. rewrite Ex. simpl. fold p. rewrite Htr. reflexivity.
    + simpl. rewrite Hc. unfold hits. simpl. unfold is_hit at 2. simpl.
      rewrite Ex. simpl. fold p.
      destruct (feqb (of_Z p) y); simpl; lia.
Qed.

Lemma hits_le (self : Network F) (td : dataset F) : hits self td <= length td.
Proof. unfold hits. apply filter_length_le. Qed.

Lemma evaluate_returns (self : Network F) (td : dataset F) :
  td <> [] ->
  (forall ex, In ex td -> forward_feed self (fst ex) <> []) ->
  evaluate td self
  = Ok (fmul (fdiv (of_Z (Z.of_nat (hits self td)))
                   (of_Z (Z.of_nat (length td))))
             (of_Z 100), self).
Proof.
  intros Hne Hout. unfold evaluate, count_hits.
  destruct (count_hits_from self td 0 Hout) as (tr & Htr & Hc).
  rewrite Htr. simpl. rewrite Hc. simpl.
  unfold py_div_int.
  destruct (Z.of_nat (length td) =? 0)%Z eqn:E.
  - apply Z.eqb_eq in E. destruct td; [congruence|simpl in E; lia].
  - reflexivity.
Qed.

(** [evaluate] and [J_average] never assign to the object. *)
Lemma evaluate_frame (self self' : Network F) (td : dataset F) (r : F) :
  evaluate td self = Ok (r, self') -> self' = self.
Proof.
  unfold evaluate. intros Hev.
  do 2 bind_ok Hev. now inversion Hev.
Qed.

Lemma J_average_frame (self self' : Network F) (td : dataset F) (r : F) :
  J_average td self = Ok (r, self') -> self' = self.
Proof.
  unfold J_average. intros Hev.
  do 2 bind_ok Hev. now inversion Hev.
Qed.

End EvaluateFacts.

(** ** The training loop *)

Section SGDFacts.
Context {F : Type} {SF : Scalar F}.
Variable G : Type.
Variable shuffle : G -> dataset F -> dataset F * G.
Variable py_round : F -> Z -> F.

(** C5: with [max_epochs = 0] the loop body never runs: without test data
    [sgd] returns the int 0 and the world (object, data, generator, events)
    as it was; with test data it returns what [evaluate] returns on the
    untouched object (or raises what [evaluate] raises), again leaving the
    world as it was. *)
Theorem sgd_zero_epochs (mini_batch_size : Z) (learning_rate : F)
        (output_dir : String.string) (w : world F G) :
  sgd shuffle py_round mini_batch_size 0 learning_rate output_dir None w
  = Ok (PyInt 0, w) /\
  forall td : dataset F,
    sgd shuffle py_round mini_batch_size 0 learning_rate output_dir (Some td) w
    = ('(r, _) <- evaluate td (net w) ;; Ok (PyFloat r, w)).
Proof.
  split; [reflexivity|].
  intros td. unfold sgd. simpl.
  destruct (evaluate td (net w)) as [[r self]|e] eqn:Ev; simpl; [|reflexivity].
  apply evaluate_frame in Ev. subst self. destruct w; reflexivity.
Qed.

Lemma py_range_step_pos (n s : Z) :
  (1 <= n)%Z -> (1 <= s)%Z ->
  exists ks, py_range 0 n s = Ok ks /\ Forall (fun k => (0 <= k < n)%Z) ks.
Proof.
  intros Hn Hs. unfold py_range.
  destruct (s =? 0)%Z eqn:E; [apply Z.eqb_eq in E; lia|].
  eexists. split; [reflexivity|].
  apply Forall_forall. intros k Hk.
  apply in_map_iff in Hk. destruct Hk as (i & <- & Hi).
  apply in_seq in Hi. unfold range_len in Hi.
  replace (0 <? s)%Z with true in Hi by (symmetry; apply Z.ltb_lt; lia).
  replace (0 <? n)%Z with true in Hi by (symmetry; apply Z.ltb_lt; lia).
  assert (Hq : (0 <= (n - 0 - 1) / s)%Z) by (apply Z.div_pos; lia).
  assert (Hi' : (Z.of_nat i <= (n - 0 - 1) / s)%Z) by lia.
  assert (Hm : (s * ((n - 0 - 1) / s) <= n - 0 - 1)%Z)
    by (apply Z.mul_div_le; lia).
  nia.
Qed.

Lemma py_slice_nonempty (d : dataset F) (k s : Z) :
  (0 <= k < Z.of_nat (length d))%Z -> (1 <= s)%Z ->
  py_slice d k (k + s) <> [].
Proof.
  intros Hk Hs Hnil. apply (f_equal (@length _)) in Hnil.
  unfold py_slice, slice_bound in Hnil.
  replace (k <? 0)%Z with false in Hnil by (symmetry; apply Z.ltb_ge; lia).
  replace (k + s <? 0)%Z with false in Hnil by (symmetry; apply Z.ltb_ge; lia).
  rewrite length_firstn, length_skipn in Hnil. simpl in Hnil. lia.
Qed.

(** One epoch keeps the number of rows of [data]. *)
Lemma sgd_epoch_rows (num size : Z) (lr : F) (dir : String.string)
      (td : option (dataset F)) (w w' : world F G) (epoch : Z) :
  (forall g d, length (fst (shuffle g d)) = length d) ->
  sgd_epoch shuffle py_round num size lr dir td w epoch = Ok w' ->
  length (data w') = length (data w).
Proof.
  intros Hshuffle Hep. unfold sgd_epoch in Hep.
  specialize (Hshuffle (rng w) (data w)).
  destruct (shuffle (rng w) (data w)) as [d' g']. simpl in Hshuffle.
  do 3 bind_ok Hep.
  destruct a1 as [ev self]. inversion Hep; subst. simpl. exact Hshuffle.
Qed.

Lemma sgd_epochs_rows (num size : Z) (lr : F) (dir : String.string)
      (td : option (dataset F)) (epochs : list Z) (w w' : world F G) :
  (forall g d, length (fst (shuffle g d)) = length d) ->
  foldM (sgd_epoch shuffle py_round num size lr dir td) epochs w = Ok w' ->
  length (data w') = length (data w).
Proof.
  intros Hshuffle. revert w. induction epochs as [|e epochs IH]; intros w Hrun.
  - simpl in Hrun. now inversion Hrun.
  - simpl in Hrun. bind_ok Hrun.
    rewrite (IH _ Hrun). eapply sgd_epoch_rows; eassumption.
Qed.

(** C10: [np.random.shuffle] keeping the number of rows, for a dataset with
    at least one row and [mini_batch_size >= 1], in every epoch of [sgd]
    (whatever the epochs run before it) the slices handed to
    [update_mini_batch] are [data[k : k + mini_batch_size]] for indices
    [0 <= k < num_examples]; each is non-empty, so the division of the
    learning rate by [len(mini_batch)] returns and does not raise
    [ZeroDivisionError]. *)
Theorem sgd_mini_batches_nonempty (mini_batch_size : Z) (lr : F)
        (dir : String.string) (td : option (dataset F)) (epochs : list Z)
        (w0 w : world F G) :
  (forall g d, length (fst (shuffle g d)) = length d) ->
  data w0 <> [] ->
  (1 <= mini_batch_size)%Z ->
  let num_examples := Z.of_nat (length (data w0)) in
  foldM (sgd_epoch shuffle py_round num_examples mini_batch_size lr dir td)
        epochs w0 = Ok w ->
  let data' := fst (shuffle (rng w) (data w)) in
  exists ks,
    py_range 0 num_examples mini_batch_size = Ok ks /\
    mini_batches_of data' num_examples mini_batch_size
    = Ok (map (fun k => py_slice data' k (k + mini_batch_size)) ks) /\
    Forall (fun k => (0 <= k < num_examples)%Z) ks /\
    Forall (fun k =>
              let mini_batch := py_slice data' k (k + mini_batch_size) in
              mini_batch <> [] /\
              forall learning_rate,
                py_div_int learning_rate (Z.of_nat (length mini_batch))
                = Ok (fdiv learning_rate
                           (of_Z (Z.of_nat (length mini_batch))))) ks.
Proof.
  intros Hshuffle Hne Hsize num_examples Hrun data'.
  assert (Hrows : length data' = length (data w0)).
  { unfold data'. rewrite Hshuffle.
    eapply sgd_epochs_rows; eassumption. }
  assert (Hnum : (1 <= num_examples)%Z).
  { unfold num_examples. destruct (data w0); [congruence|simpl; lia]. }
  destruct (py_range_step_pos Hnum Hsize) as (ks & Hks & Hbound).
  exists ks. split; [exact Hks|]. split.
  { unfold mini_batches_of. rewrite Hks. reflexivity. }
  split; [exact Hbound|].
  eapply Forall_impl; [|exact Hbound].
  intros k Hk. cbv zeta.
  assert (Hslice : py_slice data' k (k + mini_batch_size) <> []).
  { apply py_slice_nonempty; [|exact Hsize].
    rewrite Hrows. exact Hk. }
  split; [exact Hslice|].
  intros learning_rate. unfold py_div_int.
  destruct (Z.of_nat (length (py_slice data' k (k + mini_batch_size))) =? 0)%Z
    eqn:E; [|reflexivity].
  apply Z.eqb_eq in E.
  destruct (py_slice data' k (k + mini_batch_size)); [congruence|].
  simpl in E. lia.
Qed.

End SGDFacts.

(** ** Construction *)

Section InitFacts.
Context {F : Type} {SF : Scalar F}.
Variable G : Type.
Variable next_normal : G -> F * G.

Lemma py_get_front {A : Type} (l : list A) (i : Z) (d : A) :
  (0 <= i < Z.of_nat (length l))%Z ->
  py_get l i = Ok (nth (Z.to_nat i) l d).
Proof.
  intros Hi. unfold py_get. rewrite py_index_nonneg by exact Hi. simpl.
  destruct (nth_error l (Z.to_nat i)) eqn:E.
  - f_equal. symmetry. apply nth_error_nth. exact E.
  - apply nth_error_None in E. lia.
Qed.

Lemma nth_nonneg (st : list Z) (k : nat) :
  Forall (fun n => (0 <= n)%Z) st -> (0 <= nth k st 0)%Z.
Proof.
  intros Hst. destruct (Nat.lt_ge_cases k (length st)) as [Hk|Hk].
  - rewrite Forall_forall in Hst. apply Hst. apply nth_In. exact Hk.
  - rewrite nth_overflow by exact Hk. lia.
Qed.

Lemma random_weights_loop (st : list Z) (layers : list Z)
      (acc : list (matrix F)) (g : G) :
  Forall (fun n => (0 <= n)%Z) st ->
  Forall (fun layer => (1 <= layer < Z.of_nat (length st))%Z) layers ->
  exists acc' g',
    foldM (fun '(acc, g) layer =>
             r <- py_get st layer ;;
             c <- py_get st (layer - 1) ;;
             '(w, g') <- randn2 next_normal r c g ;;
             Ok (acc ++ [w], g'))
          layers (acc, g) = Ok (acc', g') /\
    length acc' = length acc + length layers.
Proof.
  intros Hst Hlayers. revert acc g.
  induction Hlayers as [|layer layers Hlayer _ IH]; intros acc g.
  - exists acc, g. split; [reflexivity|]. simpl. lia.
  - simpl.
    rewrite (py_get_front st (i := layer) 0%Z) by lia.
    rewrite (py_get_front st (i := layer - 1) 0%Z) by lia. simpl.
    unfold randn2.
    pose proof (nth_nonneg (Z.to_nat layer) Hst) as Hr.
    pose proof (nth_nonneg (Z.to_nat (layer - 1)) Hst) as Hc.
    replace ((nth (Z.to_nat layer) st 0 <? 0)
             || (nth (Z.to_nat (layer - 1)) st 0 <? 0))%Z with false
      by (symmetry; apply orb_false_iff; split; apply Z.ltb_ge; assumption).
    simpl.
    destruct (draw_rows next_normal _ _ g) as [w g1]. simpl.
    destruct (IH (acc ++ [w]) g1) as (acc' & g' & Hrun & Hlen).
    exists acc', g'. split; [exact Hrun|].
    rewrite Hlen, length_app. simpl. lia.
Qed.

Lemma random_biases_loop (st : list Z) (layers : list Z)
      (acc : list (vec F)) (g : G) :
  Forall (fun n => (0 <= n)%Z) st ->
  Forall (fun layer => (1 <= layer < Z.of_nat (length st))%Z) layers ->
  exists acc' g',
    foldM (fun '(acc, g) layer =>
             r <- py_get st layer ;;
             '(b, g') <- randn next_normal r g ;;
             Ok (acc ++ [b], g'))
          layers (acc, g) = Ok (acc', g') /\
    length acc' = length acc + length layers.
Proof.
  intros Hst Hlayers. revert acc g.
  induction Hlayers as [|layer layers Hlayer _ IH]; intros acc g.
  - exists acc, g. split; [reflexivity|]. simpl. lia.
  - simpl.
    rewrite (py_get_front st (i := layer) 0%Z) by lia. simpl.
    unfold randn.
    pose proof (nth_nonneg (Z.to_nat layer) Hst) as Hr.
    replace (nth (Z.to_nat layer) st 0 <? 0)%Z with false
      by (symmetry; apply Z.ltb_ge; assumption).
    simpl.
    destruct (draw next_normal _ g) as [b g1]. simpl.
    destruct (IH (acc ++ [b]) g1) as (acc' & g' & Hrun & Hlen).
    exists acc', g'. split; [exact Hrun|].
    rewrite Hlen, length_app. simpl. lia.
Qed.

Lemma layer_range_bounds (n : nat) :
  Forall (fun layer => (1 <= layer < Z.of_nat n)%Z) (layer_range n).
Proof.
  apply Forall_forall. intros layer Hl. unfold layer_range in Hl.
  apply in_map_iff in Hl. destruct Hl as (k & <- & Hk).
  apply in_seq in Hk. lia.
Qed.

Lemma layer_range_length (n : nat) : length (layer_range n) = n - 1.
Proof. unfold layer_range. now rewrite length_map, length_seq. Qed.

(** C4, as the code has it: construction checks nothing about the layer
    structure.  It returns an object for a structure of any length whose
    entries are non-negative (the random initialisation draws arrays of
    these dimensions); [num_layers] is the length of the structure, and
    randomly initialised weights and biases are [length - 1] arrays each:
    none at all when the structure has fewer than two layers. *)
Theorem init_accepts_any_length (st : list Z)
        (ws : option (list (matrix F))) (bs : option (list (vec F)))
        (act act_der : vec F -> vec F)
        (cd : vec F -> pynum F -> result (vec F)) (g : G) :
  Forall (fun n => (0 <= n)%Z) st ->
  exists self g',
    Network_init next_normal st ws bs act act_der cd g = Ok (self, g') /\
    num_layers self = length st /\
    structure self = st /\
    (ws = None -> length (weights self) = length st - 1) /\
    (bs = None -> length (biases self) = length st - 1) /\
    (length st < 2 -> ws = None -> bs = None ->
     weights self = [] /\ biases self = []).
Proof.
  intros Hst. unfold Network_init.
  assert (Hw : exists ws' g1,
             match ws with
             | Some ws => Ok (ws, g)
             | None => random_weights next_normal st g
             end = Ok (ws', g1) /\
             (ws = None -> length ws' = length st - 1)).
  { destruct ws as [ws|].
    - exists ws, g. split; [reflexivity|discriminate].
    - destruct (random_weights_loop [] g Hst (layer_range_bounds (length st)))
        as (ws' & g1 & Hrun & Hlen).
      exists ws', g1. split; [exact Hrun|].
      intros _. rewrite Hlen, layer_range_length. reflexivity. }
  destruct Hw as (ws' & g1 & -> & Hwlen). simpl.
  assert (Hb : exists bs' g2,
             match bs with
             | Some bs => Ok (bs, g1)
             | None => random_biases next_normal st g1
             end = Ok (bs', g2) /\
             (bs = None -> length bs' = length st - 1)).
  { destruct bs as [bs|].
    - exists bs, g1. split; [reflexivity|discriminate].
    - destruct (random_biases_loop [] g1 Hst (layer_range_bounds (length st)))
        as (bs' & g2 & Hrun & Hlen).
      exists bs', g2. split; [exact Hrun|].
      intros _. rewrite Hlen, layer_range_length. reflexivity. }
  destruct Hb as (bs' & g2 & -> & Hblen). simpl.
  eexists _, g2. split; [reflexivity|]. simpl.
  repeat split; auto.
  - specialize (Hwlen H0). destruct ws'; [reflexivity|simpl in Hwlen; lia].
  - specialize (Hblen H1). destruct bs'; [reflexivity|simpl in Hblen; lia].
Qed.

End InitFacts.

(** ** Backpropagation *)

Section ForwardFacts.
Context {F : Type} {SF : Scalar F}.
Variable act : vec F -> vec F.

Lemma activations_length (ws : list (matrix F)) (bs : list (vec F)) (a : vec F) :
  length bs = length ws -> length (activations act ws bs a) = length ws.
Proof.
  revert bs a. induction ws as [|w ws IH]; intros [|b bs] a Hlen;
    simpl in *; try lia. f_equal. apply IH. lia.
Qed.

Lemma summatories_length (ws : list (matrix F)) (bs : list (vec F)) (a : vec F) :
  length bs = length ws -> length (summatories act ws bs a) = length ws.
Proof.
  revert bs a. induction ws as [|w ws IH]; intros [|b bs] a Hlen;
    simpl in *; try lia. f_equal. apply IH. lia.
Qed.


End ForwardFacts.

Section BackpropFacts.
Context {F : Type} {SF : Scalar F}.

Lemma forward_pass_loop (self : Network F) (ws : list (matrix F))
      (bs : list (vec F)) (a : vec F) (am zm : list (vec F)) :
  exists a_out,
    fold_left (fun '(activation, activation_matrix, summatory_matrix) '(w, b) =>
                 let summatory := vadd (dot w activation) b in
                 let summatory_matrix := summatory_matrix ++ [summatory] in
                 let activation := activate_function self summatory in
                 (activation, activation_matrix ++ [activation],
                  summatory_matrix))
              (combine ws bs) (a, am, zm)
    = (a_out, am ++ activations (activate_function self) ws bs a,
       zm ++ summatories (activate_function self) ws bs a).
Proof.
  revert bs a am zm. induction ws as [|w ws IH]; intros [|b bs] a am zm; simpl;
    try (exists a; now rewrite !app_nil_r).
  destruct (IH bs (activate_function self (vadd (dot w a) b))
               (am ++ [activate_function self (vadd (dot w a) b)])
               (zm ++ [vadd (dot w a) b])) as (a_out & Hrun).
  exists a_out. etransitivity; [exact Hrun|].
  rewrite <- !app_assoc. reflexivity.
Qed.

Lemma forward_pass_trace (self : Network F) (x : vec F) :
  exists a_out,
    forward_pass self x
    = (a_out,
       x :: activations (activate_function self) (weights self) (biases self) x,
       summatories (activate_function self) (weights self) (biases self) x).
Proof.
  unfold forward_pass.
  destruct (forward_pass_loop self (weights self) (biases self) x [x] [])
    as (a_out & Hrun).
  exists a_out. exact Hrun.
Qed.

Lemma forward_feed_loop (self : Network F) (ws : list (matrix F))
      (bs : list (vec F)) (a : vec F) :
  length bs = length ws ->
  fold_left (fun output '(w, b) =>
               activate_function self (vadd (dot w output) b))
            (combine ws bs) a
  = nth (length ws) (a :: activations (activate_function self) ws bs a) [].
Proof.
  revert bs a. induction ws as [|w ws IH]; intros [|b bs] a Hlen;
    simpl in *; try lia; [reflexivity|].
  rewrite IH by lia. reflexivity.
Qed.

(** The errors of the recurrence, by position. *)
Lemma errors_length (act_der : vec F -> vec F) (cd : vec F)
      (ws : list (matrix F)) (zs : list (vec F)) :
  length zs = length ws -> length (errors act_der cd ws zs) = length ws.
Proof.
  revert zs. induction ws as [|w ws IH]; intros [|z zs] Hlen;
    simpl in *; try lia.
  destruct ws as [|w' ws]; [reflexivity|].
  simpl. f_equal. apply (IH zs). simpl in *. lia.
Qed.

Lemma errors_last (act_der : vec F -> vec F) (cd : vec F)
      (ws : list (matrix F)) (zs : list (vec F)) :
  length zs = length ws -> 1 <= length ws ->
  nth (length ws - 1) (errors act_der cd ws zs) []
  = vmul cd (act_der (nth (length ws - 1) zs [])).
Proof.
  revert zs. induction ws as [|w ws IH]; intros [|z zs] Hlen Hpos;
    simpl in *; try lia.
  destruct ws as [|w' ws]; [reflexivity|].
  specialize (IH zs). simpl in IH. rewrite Nat.sub_0_r in IH.
  simpl in *. apply IH; lia.
Qed.

Lemma errors_step (act_der : vec F -> vec F) (cd : vec F)
      (ws : list (matrix F)) (zs : list (vec F)) (l : nat) :
  length zs = length ws -> S l < length ws ->
  nth l (errors act_der cd ws zs) []
  = vmul (dot (transpose (nth (S l) ws []))
              (nth (S l) (errors act_der cd ws zs) []))
         (act_der (nth l zs [])).
Proof.
  revert zs l. induction ws as [|w ws IH]; intros [|z zs] l Hlen Hl;
    simpl in *; try lia.
  destruct ws as [|w' ws]; [simpl in Hl; lia|].
  destruct l as [|l].
  - cbn [nth]. f_equal. f_equal.
    destruct (errors act_der cd (w' :: ws) zs) eqn:E; reflexivity.
  - cbn [nth]. apply (IH zs l); simpl in *; lia.
Qed.

Lemma nth_map2 {A B C : Type} (f : A -> B -> C) (l : list A) (m : list B)
      (j : nat) (da : A) (db : B) (dc : C) :
  j < length l -> j < length m ->
  nth j (map2 f l m) dc = f (nth j l da) (nth j m db).
Proof.
  revert m j. induction l as [|a l IH]; intros [|b m] [|j] Hl Hm;
    simpl in *; try lia; [reflexivity|]. apply IH; lia.
Qed.

Lemma map2_length {A B C : Type} (f : A -> B -> C) (l : list A) (m : list B) :
  length (map2 f l m) = Nat.min (length l) (length m).
Proof.
  revert m. induction l as [|a l IH]; intros [|b m]; simpl; auto.
Qed.

(** Overwriting position [j] of a list that still holds [old] up to [j] and
    already holds [new] after it. *)
Lemma set_nth_splice {A : Type} (old new : list A) (j : nat) (d : A) :
  j < length old -> j < length new ->
  set_nth (firstn (S j) old ++ skipn (S j) new) j (nth j new d)
  = firstn j old ++ skipn j new.
Proof.
  revert old new. induction j as [|j IH]; intros [|a old] [|b new] Ho Hn;
    simpl in *; try lia; [reflexivity|].
  f_equal. apply IH; lia.
Qed.

Section BackwardLoop.
Variable self : Network F.
Variables acts zs : list (vec F).
Variable cd : vec F.
Variables zb : list (vec F).
Variable zw : list (matrix F).

Let L := length (weights self).
Let deltas := errors (activate_derivative self) cd (weights self) zs.
Let grads := map2 outer deltas acts.

Hypothesis Hzs : length zs = L.
Hypothesis Hacts : length acts = S L.
Hypothesis Hzb : length zb = L.
Hypothesis Hzw : length zw = L.

Lemma deltas_length : length deltas = L.
Proof. apply errors_length. exact Hzs. Qed.

Lemma grads_length : length grads = L.
Proof. unfold grads. rewrite map2_length, deltas_length, Hacts. lia. Qed.

(** After the layers [2 .. k] the loop holds the error of layer [L - k] and
    has filled the last [k] gradients; [m] more iterations take it to
    [k + m]. *)
Lemma backward_loop (m k : nat) :
  1 <= k -> k + m <= L ->
  foldM (backward_step self acts zs) (map Z.of_nat (seq (S k) m))
        (nth (L - k) deltas [],
         firstn (L - k) zb ++ skipn (L - k) deltas,
         firstn (L - k) zw ++ skipn (L - k) grads)
  = Ok (nth (L - k - m) deltas [],
        firstn (L - k - m) zb ++ skipn (L - k - m) deltas,
        firstn (L - k - m) zw ++ skipn (L - k - m) grads).
Proof.
  revert k. induction m as [|m IH]; intros k Hk Hkm.
  - simpl. rewrite Nat.sub_0_r. reflexivity.
  - pose proof deltas_length as Hd. pose proof grads_length as Hg.
    cbn [seq map foldM]. unfold backward_step at 1.
    replace (- Z.of_nat (S k) + 1)%Z with (- Z.of_nat k)%Z by lia.
    rewrite (py_get_back (weights self) (k := k) []) by (fold L; lia).
    cbn [bind].
    rewrite (py_get_back zs (k := S k) []) by lia. cbn [bind].
    rewrite Hzs. fold L.
    assert (Hdelta :
              vmul (dot (transpose (nth (L - k) (weights self) []))
                        (nth (L - k) deltas []))
                   (activate_derivative self (nth (L - S k) zs []))
              = nth (L - S k) deltas []).
    { unfold deltas at 2.
      rewrite (@errors_step (activate_derivative self) cd (weights self) zs
                           (L - S k)) by (fold L; lia).
      replace (S (L - S k)) with (L - k) by lia. reflexivity. }
    rewrite Hdelta.
    rewrite py_set_back
      by (rewrite length_app, length_firstn, length_skipn; lia).
    cbn [bind].
    replace (length (firstn (L - k) zb ++ skipn (L - k) deltas)) with L
      by (rewrite length_app, length_firstn, length_skipn; lia).
    replace (- Z.of_nat (S k) - 1)%Z with (- Z.of_nat (S (S k)))%Z by lia.
    rewrite (py_get_back acts (k := S (S k)) []) by lia. cbn [bind].
    rewrite py_set_back
      by (rewrite length_app, length_firstn, length_skipn; lia).
    cbn [bind].
    replace (length (firstn (L - k) zw ++ skipn (L - k) grads)) with L
      by (rewrite length_app, length_firstn, length_skipn; lia).
    rewrite Hacts.
    replace (S L - S (S k)) with (L - S k) by lia.
    replace (outer (nth (L - S k) deltas []) (nth (L - S k) acts []))
      with (nth (L - S k) grads [])
      by (unfold grads; apply nth_map2; lia).
    replace (L - k) with (S (L - S k)) by lia.
    rewrite !set_nth_splice by lia.
    rewrite (IH (S k)) by lia.
    replace (S (L - S k) - S m) with (L - S k - m) by lia. reflexivity.
Qed.

End BackwardLoop.

(** [backprop] returns the errors of the recurrence as the bias gradients
    and their outer products with the entering activations as the weight
    gradients. *)
Lemma backprop_returns (self : Network F) (x : vec F) (y : pynum F)
      (cd : vec F) :
  length (biases self) = length (weights self) ->
  num_layers self = S (length (weights self)) ->
  1 <= length (weights self) ->
  cost_der self (forward_feed self x) y = Ok cd ->
  let act := activate_function self in
  let acts := x :: activations act (weights self) (biases self) x in
  let zs := summatories act (weights self) (biases self) x in
  let deltas := errors (activate_derivative self) cd (weights self) zs in
  backprop self x y = Ok (map2 outer deltas acts, deltas).
Proof.
  intros Hlen Hnum Hpos Hcd act acts zs deltas.
  set (L := length (weights self)) in *.
  assert (Hzs : length zs = L) by (apply summatories_length; exact Hlen).
  assert (Hacts : length acts = S L)
    by (unfold acts; simpl; f_equal; apply activations_length; exact Hlen).
  assert (Hd : length deltas = L) by (apply errors_length; exact Hzs).
  assert (Hzb : length (map zeros_like (biases self)) = L)
    by (rewrite length_map; exact Hlen).
  assert (Hzw : length (map zeros_like2 (weights self)) = L)
    by (rewrite length_map; reflexivity).
  unfold backprop.
  destruct (forward_pass_trace self x) as (a_out & ->).
  fold act. fold acts. fold zs.
  change (-1)%Z with (- Z.of_nat 1)%Z. change (-2)%Z with (- Z.of_nat 2)%Z.
  rewrite (py_get_back acts (k := 1) []) by lia. cbn [bind].
  rewrite Hacts. replace (S L - 1) with L by lia.
  replace (nth L acts []) with (forward_feed self x)
    by (unfold forward_feed; apply forward_feed_loop; exact Hlen).
  rewrite Hcd. cbn [bind].
  rewrite (py_get_back zs (k := 1) []) by lia. cbn [bind].
  rewrite Hzs.
  replace (vmul cd (activate_derivative self (nth (L - 1) zs [])))
    with (nth (L - 1) deltas [])
    by (apply errors_last; [exact Hzs|exact Hpos]).
  rewrite py_set_back by lia. cbn [bind]. rewrite Hzb.
  rewrite (py_get_back acts (k := 2) []) by lia. cbn [bind].
  rewrite Hacts. replace (S L - 2) with (L - 1) by lia.
  replace (outer (nth (L - 1) deltas []) (nth (L - 1) acts []))
    with (nth (L - 1) (map2 outer deltas acts) [])
    by (apply nth_map2; lia).
  rewrite py_set_back by lia. cbn [bind]. rewrite Hzw.
  assert (Hmd : length (map2 outer deltas acts) = L)
    by (rewrite map2_length; lia).
  replace (map zeros_like (biases self))
    with (firstn (S (L - 1)) (map zeros_like (biases self))
          ++ skipn (S (L - 1)) deltas) at 1
    by (rewrite firstn_all2, skipn_all2 by lia; apply app_nil_r).
  replace (map zeros_like2 (weights self))
    with (firstn (S (L - 1)) (map zeros_like2 (weights self))
          ++ skipn (S (L - 1)) (map2 outer deltas acts)) at 1
    by (rewrite firstn_all2, skipn_all2 by lia; apply app_nil_r).
  rewrite !set_nth_splice by lia.
  rewrite Hnum. replace (S L - 2) with (L - 1) by lia.
  pose proof (@backward_loop self acts zs cd (map zeros_like (biases self))
                             (map zeros_like2 (weights self))
                             Hzs Hacts Hzb Hzw (L - 1) 1) as Hloop.
  subst deltas. subst L.
  rewrite Hloop by lia. cbn [bind].
  replace (length (weights self) - 1 - (length (weights self) - 1)) with 0
    by lia.
  reflexivity.
Qed.

End BackpropFacts.

(** ** Shapes *)

Section ShapeFacts.
Context {F : Type} {SF : Scalar F}.

Lemma layers_shaped_lengths (n_in : nat) (outs : list nat)
      (ws : list (matrix F)) (bs : list (vec F)) :
  layers_shaped n_in outs ws bs ->
  length ws = length outs /\ length bs = length outs.
Proof.
  revert n_in ws bs. induction outs as [|n outs IH]; intros n_in ws bs Hsh.
  - destruct ws, bs; simpl in Hsh; try contradiction. split; reflexivity.
  - destruct ws as [|w ws], bs as [|b bs]; simpl in Hsh; try contradiction.
    destruct Hsh as (_ & _ & _ & Hsh). apply IH in Hsh.
    simpl. split; f_equal; apply Hsh.
Qed.

Lemma well_shaped_counts (self : Network F) :
  well_shaped self ->
  length (biases self) = length (weights self) /\
  num_layers self = S (length (weights self)) /\
  1 <= length (weights self).
Proof.
  intros (Hnum & Htwo & _ & Hsh).
  apply layers_shaped_lengths in Hsh. destruct Hsh as [Hw Hb].
  rewrite length_map in Hw, Hb.
  destruct (structure self) as [|n0 st]; simpl in *; [lia|].
  repeat split; lia.
Qed.

End ShapeFacts.

Section BackpropTheorem.
Context {F : Type} {SF : Scalar F}.


End BackpropTheorem.

(** ** Shapes of the gradients *)

Section GradientShapes.
Context {F : Type} {SF : Scalar F}.
Variables act act_der : vec F -> vec F.
Hypothesis act_keeps : keeps_length act.
Hypothesis act_der_keeps : keeps_length act_der.

Lemma transpose_length (m : matrix F) (c : nat) :
  m <> [] -> Forall (fun row => length row = c) m ->
  length (transpose m) = c.
Proof.
  induction m as [|r m IH]; intros Hne Hrows; [congruence|].
  inversion Hrows as [|? ? Hr Hm]; subst.
  destruct m as [|r' m].
  - simpl. apply length_map.
  - change (transpose (r :: r' :: m))
      with (map2 cons r (transpose (r' :: m))).
    rewrite map2_length, IH by (auto; discriminate). lia.
Qed.

Lemma outer_same_shape (d a : vec F) (w : matrix F) :
  length d = length w -> Forall (fun row => length row = length a) w ->
  same_shape (outer d a) w.
Proof.
  revert w. induction d as [|e d IH]; intros [|r w] Hlen Hrows;
    simpl in *; try lia; [constructor|].
  inversion Hrows; subst. constructor.
  - unfold vscale. rewrite length_map. congruence.
  - apply IH; [lia|assumption].
Qed.

Lemma layer_sum_length (w : matrix F) (b a : vec F) (n : nat) :
  length w = n -> length b = n -> length (vadd (dot w a) b) = n.
Proof.
  intros Hw Hb. unfold vadd, dot. rewrite map2_length, length_map.
  unfold matrix, vec in *. lia.
Qed.

Lemma last_cons (n d : nat) (outs : list nat) :
  last (n :: outs) d = last outs n.
Proof.
  revert n d. induction outs as [|m outs IH]; intros n d; [reflexivity|].
  change (last (n :: m :: outs) d) with (last (m :: outs) d).
  rewrite !IH. reflexivity.
Qed.

(** The output of layers of the declared shapes has the length of the last
    layer. *)
Lemma forward_length (outs : list nat) (n_in : nat) (ws : list (matrix F))
      (bs : list (vec F)) (a : vec F) :
  layers_shaped n_in outs ws bs -> length a = n_in ->
  length (nth (length ws) (a :: activations act ws bs a) [])
  = last outs n_in.
Proof.
  revert n_in ws bs a. induction outs as [|n outs IH]; intros n_in ws bs a Hsh Ha.
  - destruct ws, bs; simpl in Hsh; try contradiction. exact Ha.
  - destruct ws as [|w ws], bs as [|b bs]; simpl in Hsh; try contradiction.
    destruct Hsh as (Hw & Hrows & Hb & Hsh).
    change (length (nth (length ws)
                      (act (vadd (dot w a) b)
                       :: activations act ws bs (act (vadd (dot w a) b))) [])
            = last (n :: outs) n_in).
    rewrite (IH n ws bs) by
      (try assumption; rewrite act_keeps; apply layer_sum_length; assumption).
    symmetry. apply last_cons.
Qed.

(** The errors have the shapes of the biases, and their outer products
    with the entering activations the shapes of the weights. *)
Lemma recurrence_shapes (cd : vec F) (outs : list nat) (n_in : nat)
      (ws : list (matrix F)) (bs : list (vec F)) (a : vec F) :
  layers_shaped n_in outs ws bs ->
  Forall (fun n => 0 < n) outs ->
  length a = n_in ->
  length cd = last outs n_in ->
  let zs := summatories act ws bs a in
  let acts := a :: activations act ws bs a in
  let ds := errors act_der cd ws zs in
  same_shape ds bs /\ same_shapes (map2 outer ds acts) ws.
Proof.
  revert n_in ws bs a.
  induction outs as [|n outs IH]; intros n_in ws bs a Hsh Hpos Ha Hcd.
  - destruct ws, bs; simpl in Hsh; try contradiction.
    split; constructor.
  - destruct ws as [|w ws], bs as [|b bs]; simpl in Hsh; try contradiction.
    destruct Hsh as (Hw & Hrows & Hb & Hsh).
    inversion Hpos as [|? ? Hn Hpos']; subst.
    set (z := vadd (dot w a) b).
    assert (Hz : length z = length w)
      by (apply layer_sum_length; [reflexivity|assumption]).
    assert (Hrows' : Forall (fun row => length row = length a) w) by exact Hrows.
    destruct (IH (length w) ws bs (act z) Hsh Hpos') as [IHd IHg].
    { rewrite act_keeps. exact Hz. }
    { rewrite Hcd. apply last_cons. }
    cbn zeta in IHd, IHg. cbn zeta.
    change (summatories act (w :: ws) (b :: bs) a)
      with (z :: summatories act ws bs (act z)).
    change (activations act (w :: ws) (b :: bs) a)
      with (act z :: activations act ws bs (act z)).
    set (zs := summatories act ws bs (act z)) in *.
    set (acts := act z :: activations act ws bs (act z)) in *.
    destruct ws as [|w' ws].
    + destruct bs, outs; simpl in Hsh; try contradiction.
      assert (Hd : length (vmul cd (act_der z)) = length w).
      { unfold vmul. rewrite map2_length, act_der_keeps, Hz, Hcd. simpl. lia. }
      simpl. split.
      * constructor; [congruence|constructor].
      * constructor; [|constructor]. apply outer_same_shape; assumption.
    + destruct bs as [|b' bs], outs as [|n' outs];
        simpl in Hsh; try contradiction.
      destruct Hsh as (Hw' & Hrows'' & Hb' & Hsh).
      change (errors act_der cd (w :: w' :: ws) (z :: zs))
        with (vmul (dot (transpose w')
                        (hd [] (errors act_der cd (w' :: ws) zs)))
                   (act_der z)
              :: errors act_der cd (w' :: ws) zs).
      set (ds := errors act_der cd (w' :: ws) zs) in *.
      assert (Hd : length (vmul (dot (transpose w') (hd [] ds)) (act_der z))
                   = length w).
      { unfold vmul, dot. rewrite map2_length, length_map, act_der_keeps, Hz.
        assert (Ht : length (transpose w') = length w).
        { apply transpose_length; [|assumption].
          inversion Hpos'; subst. destruct w'; [simpl in *; lia|discriminate]. }
        unfold matrix, vec in *. lia. }
      split.
      * constructor; [congruence|exact IHd].
      * change (map2 outer (?d :: ds) (a :: acts))
          with (outer d a :: map2 outer ds acts).
        constructor; [|exact IHg]. apply outer_same_shape; assumption.
Qed.

End GradientShapes.

(** ** The mini-batch update *)

Section UpdateFacts.
Context {F : Type} {SF : Scalar F}.

(** When the cost derivative raises, [backprop] raises the same. *)
Lemma backprop_raises (self : Network F) (x : vec F) (y : pynum F) (e : exn) :
  length (biases self) = length (weights self) ->
  cost_der self (forward_feed self x) y = Raise e ->
  backprop self x y = Raise e.
Proof.
  intros Hlen Hcd.
  set (acts := x :: activations (activate_function self) (weights self)
                                (biases self) x).
  assert (Hacts : length acts = S (length (weights self)))
    by (unfold acts; simpl; f_equal; apply activations_length; exact Hlen).
  unfold backprop.
  destruct (forward_pass_trace self x) as (a_out & ->).
  fold acts. change (-1)%Z with (- Z.of_nat 1)%Z.
  rewrite (py_get_back acts (k := 1) []) by lia. cbn [bind].
  rewrite Hacts.
  replace (S (length (weights self)) - 1) with (length (weights self)) by lia.
  replace (nth (length (weights self)) acts []) with (forward_feed self x)
    by (unfold forward_feed; apply forward_feed_loop; exact Hlen).
  rewrite Hcd. reflexivity.
Qed.

Lemma forward_feed_length (self : Network F) (x : vec F) :
  well_shaped self -> keeps_length (activate_function self) ->
  length x = input_size self ->
  length (forward_feed self x)
  = last (map Z.to_nat (tl (structure self))) (input_size self).
Proof.
  intros Hws Hact Hx.
  destruct (well_shaped_counts Hws) as (Hlen & _ & _).
  destruct Hws as (_ & _ & _ & Hsh).
  unfold forward_feed. rewrite forward_feed_loop by exact Hlen.
  eapply forward_length; [exact Hact|exact Hsh|exact Hx].
Qed.

(** The gradients [backprop] returns have the shapes of the parameters. *)
Lemma backprop_shapes (self : Network F) (x : vec F) (y : pynum F)
      (gw : list (matrix F)) (gb : list (vec F)) :
  well_shaped self ->
  keeps_length (activate_function self) ->
  keeps_length (activate_derivative self) ->
  cost_keeps_length (cost_der self) ->
  length x = input_size self ->
  backprop self x y = Ok (gw, gb) ->
  same_shapes gw (weights self) /\ same_shape gb (biases self).
Proof.
  intros Hws Hact Hder Hcost Hx Hbp.
  destruct (well_shaped_counts Hws) as (Hlen & Hnum & Hpos).
  destruct (cost_der self (forward_feed self x) y) as [cd|e] eqn:Hcd.
  - rewrite (backprop_returns self x y Hlen Hnum Hpos Hcd) in Hbp.
    inversion Hbp; subst.
    pose proof (@forward_feed_length self x Hws Hact Hx) as Hout.
    destruct Hws as (_ & _ & Hposn & Hsh).
    assert (Houts : Forall (fun n => 0 < n) (map Z.to_nat (tl (structure self)))).
    { apply Forall_forall. intros n Hn. apply in_map_iff in Hn.
      destruct Hn as (z & <- & Hz).
      assert (Hz' : In z (structure self))
        by (destruct (structure self); [contradiction|now right]).
      rewrite Forall_forall in Hposn. specialize (Hposn z Hz'). lia. }
    apply and_comm.
    eapply recurrence_shapes;
      [exact Hact|exact Hder|exact Hsh|exact Houts|exact Hx|].
    rewrite (Hcost _ _ _ Hcd). exact Hout.
  - rewrite (backprop_raises self x y Hlen Hcd) in Hbp. discriminate.
Qed.

(** The accumulation loop adds up the gradients of the examples, in
    order, or raises what the first failing [backprop] raises. *)
Lemma accumulate_sums (self : Network F) (mini_batch : dataset F)
      (acc_w : list (matrix F)) (acc_b : list (vec F)) :
  accumulate self mini_batch (acc_w, acc_b)
  = (grads <- batch_gradients self mini_batch ;;
     Ok (fold_left (fun acc g => map2 madd acc (fst g)) grads acc_w,
         fold_left (fun acc g => map2 vadd acc (snd g)) grads acc_b)).
Proof.
  revert acc_w acc_b.
  induction mini_batch as [|[x y] mini_batch IH]; intros acc_w acc_b;
    [reflexivity|].
  unfold accumulate, batch_gradients. cbn [foldM mapM fst snd].
  destruct (backprop self x (PyFloat y)) as [[gw gb]|e]; [|reflexivity].
  cbn [bind].
  change (foldM ?f mini_batch ?a) with (accumulate self mini_batch a).
  rewrite IH.
  change (mapM ?f mini_batch) with (batch_gradients self mini_batch).
  destruct (batch_gradients self mini_batch); reflexivity.
Qed.

Lemma batch_gradients_shapes (self : Network F) (mini_batch : dataset F)
      (grads : list (list (matrix F) * list (vec F))) :
  well_shaped self ->
  keeps_length (activate_function self) ->
  keeps_length (activate_derivative self) ->
  cost_keeps_length (cost_der self) ->
  (forall ex, In ex mini_batch -> length (fst ex) = input_size self) ->
  batch_gradients self mini_batch = Ok grads ->
  length grads = length mini_batch /\
  Forall (fun g => same_shapes (fst g) (weights self) /\
                   same_shape (snd g) (biases self)) grads.
Proof.
  intros Hws Hact Hder Hcost. revert grads.
  induction mini_batch as [|ex mini_batch IH]; intros grads Hrows Hg.
  - inversion Hg; subst. split; [reflexivity|constructor].
  - unfold batch_gradients in Hg. cbn [mapM] in Hg.
    bind_ok Hg. bind_ok Hg. inversion Hg; subst.
    destruct a as [gw gb].
    destruct (IH a0) as [Hl Hs].
    { intros ex' Hex'. apply Hrows. now right. }
    { exact E0. }
    split; [simpl; f_equal; exact Hl|].
    constructor; [|exact Hs].
    apply (@backprop_shapes self (fst ex) (PyFloat (snd ex)) gw gb);
      try assumption.
    apply Hrows. now left.
Qed.

End UpdateFacts.

(** ** Entrywise operations on arrays of one shape *)

Section Pointwise.
Context {F : Type} {SF : Scalar F}.

Lemma map2_map_r {A B B' C : Type} (f : A -> B' -> C) (g : B -> B')
      (l : list A) (m : list B) :
  map2 f l (map g m) = map2 (fun a b => f a (g b)) l m.
Proof.
  revert m. induction l as [|a l IH]; intros [|b m]; simpl; auto.
  f_equal. apply IH.
Qed.

Lemma map2_ext {A B C : Type} (f g : A -> B -> C) (l : list A) (m : list B) :
  (forall a b, f a b = g a b) -> map2 f l m = map2 g l m.
Proof.
  intros Hfg. revert m. induction l as [|a l IH]; intros [|b m]; simpl; auto.
  f_equal; [apply Hfg|apply IH].
Qed.

Lemma same_shape_length (m w : matrix F) :
  same_shape m w -> length m = length w.
Proof. induction 1; simpl; auto. Qed.

Lemma same_shape_nth (m w : matrix F) (i : nat) :
  same_shape m w -> length (nth i m []) = length (nth i w []).
Proof.
  intros Hs. revert i. induction Hs as [|r s m w Hrs _ IH]; intros [|i];
    simpl; auto.
Qed.

Lemma same_shapes_length (ms ws : list (matrix F)) :
  same_shapes ms ws -> length ms = length ws.
Proof. induction 1; simpl; auto. Qed.

Lemma same_shapes_nth (ms ws : list (matrix F)) (l : nat) :
  same_shapes ms ws -> same_shape (nth l ms []) (nth l ws []).
Proof.
  intros Hs. revert l. induction Hs as [|m w ms ws Hmw _ IH]; intros [|l];
    simpl; auto; constructor.
Qed.

Lemma same_shape_refl (w : matrix F) : same_shape w w.
Proof. induction w; constructor; auto. Qed.

Lemma same_shapes_refl (ws : list (matrix F)) : same_shapes ws ws.
Proof. induction ws; constructor; auto. apply same_shape_refl. Qed.

Lemma zeros_same_shape (w : matrix F) : same_shape (map zeros_like w) w.
Proof.
  induction w; simpl; constructor; auto. apply zeros_like_length.
Qed.

Lemma zeros_same_shapes (ws : list (matrix F)) :
  same_shapes (map zeros_like2 ws) ws.
Proof.
  induction ws; simpl; constructor; auto. apply zeros_same_shape.
Qed.

Section Combine.
Variable f : F -> F -> F.

Lemma combine_rows_length (u v w : vec F) :
  length u = length w -> length v = length w ->
  length (map2 f u v) = length w.
Proof. intros Hu Hv. rewrite map2_length. lia. Qed.

Lemma combine_same_shape (a g w : matrix F) :
  same_shape a w -> same_shape g w -> same_shape (map2 (map2 f) a g) w.
Proof.
  intros Ha. revert g. induction Ha as [|r s a w Hrs _ IH]; intros g Hg;
    inversion Hg; subst; simpl; constructor.
  - apply combine_rows_length; assumption.
  - apply IH. assumption.
Qed.

Lemma combine_same_shapes (a g ws : list (matrix F)) :
  same_shapes a ws -> same_shapes g ws ->
  same_shapes (map2 (map2 (map2 f)) a g) ws.
Proof.
  intros Ha. revert g. induction Ha as [|m w a ws Hmw _ IH]; intros g Hg;
    inversion Hg; subst; simpl; constructor.
  - apply combine_same_shape; assumption.
  - apply IH. assumption.
Qed.

Lemma combine_bias_entry (a g bs : list (vec F)) (l i : nat) :
  same_shape a bs -> same_shape g bs ->
  l < length bs -> i < length (nth l bs []) ->
  bias_entry (map2 (map2 f) a g) l i
  = f (bias_entry a l i) (bias_entry g l i).
Proof.
  intros Ha Hg Hl Hi. unfold bias_entry.
  pose proof (same_shape_length Ha) as La.
  pose proof (same_shape_length Hg) as Lg.
  pose proof (same_shape_nth l Ha) as Na.
  pose proof (same_shape_nth l Hg) as Ng.
  rewrite (nth_map2 (map2 f) a g [] [] []) by len_lia.
  apply nth_map2; len_lia.
Qed.

Lemma combine_weight_entry (a g ws : list (matrix F)) (l i j : nat) :
  same_shapes a ws -> same_shapes g ws ->
  l < length ws -> i < length (nth l ws []) ->
  j < length (nth i (nth l ws []) []) ->
  weight_entry (map2 (map2 (map2 f)) a g) l i j
  = f (weight_entry a l i j) (weight_entry g l i j).
Proof.
  intros Ha Hg Hl Hi Hj. unfold weight_entry.
  pose proof (same_shapes_length Ha) as La.
  pose proof (same_shapes_length Hg) as Lg.
  rewrite (nth_map2 (map2 (map2 f)) a g [] [] []) by len_lia.
  apply (combine_bias_entry (bs := nth l ws [])); try assumption;
    apply same_shapes_nth; assumption.
Qed.

(** An operation that returns its first operand changes nothing. *)
Lemma combine_left (a g : matrix F) :
  (forall u v, f u v = u) -> same_shape g a -> map2 (map2 f) a g = a.
Proof.
  intros Hf Hg. induction Hg as [|s r g a Hsr _ IH]; [reflexivity|].
  simpl. f_equal; [|exact IH].
  clear IH. revert s Hsr. induction r as [|u r IHr]; intros [|v s] Hsr;
    simpl in *; try lia; [reflexivity|].
  f_equal; [apply Hf|apply IHr; lia].
Qed.

Lemma combine_left_all (a g : list (matrix F)) :
  (forall u v, f u v = u) -> same_shapes g a ->
  map2 (map2 (map2 f)) a g = a.
Proof.
  intros Hf Hg. induction Hg as [|s r g a Hsr _ IH]; [reflexivity|].
  simpl. f_equal; [apply combine_left; assumption|exact IH].
Qed.

End Combine.

(** [w - c * s], written entrywise. *)
Lemma step_entrywise (c : F) (w s : matrix F) :
  msub w (mscale c s) = map2 (map2 (fun a b => fsub a (fmul c b))) w s.
Proof.
  unfold msub, mscale. rewrite map2_map_r.
  apply map2_ext. intros r t. unfold vsub, vscale. apply map2_map_r.
Qed.

Lemma bias_step_entrywise (c : F) (b s : vec F) :
  vsub b (vscale c s) = map2 (fun a b => fsub a (fmul c b)) b s.
Proof. unfold vsub, vscale. apply map2_map_r. Qed.

Lemma zero_bias_entry (bs : list (vec F)) (l i : nat) :
  bias_entry (map zeros_like bs) l i = of_Z 0.
Proof.
  unfold bias_entry. revert l.
  induction bs as [|b bs IH]; intros [|l]; simpl;
    try (destruct i; reflexivity); [apply nth_zeros_like|apply IH].
Qed.

Lemma zero_weight_entry (ws : list (matrix F)) (l i j : nat) :
  weight_entry (map zeros_like2 ws) l i j = of_Z 0.
Proof.
  unfold weight_entry. revert l.
  induction ws as [|w ws IH]; intros [|l]; simpl;
    try (destruct i, j; reflexivity); [|apply IH].
  apply (zero_bias_entry w i j).
Qed.

End Pointwise.

(** ** The gradient-descent step *)

Section UpdateTheorems.
Context {F : Type} {SF : Scalar F}.

(** The sum of the gradients, entry by entry. *)
Lemma sum_weight_gradients (ws : list (matrix F))
      (grads : list (list (matrix F) * list (vec F))) (acc : list (matrix F)) :
  Forall (fun g => same_shapes (fst g) ws) grads ->
  same_shapes acc ws ->
  same_shapes (fold_left (fun acc g => map2 madd acc (fst g)) grads acc) ws /\
  forall l i j,
    l < length ws -> i < length (nth l ws []) ->
    j < length (nth i (nth l ws []) []) ->
    weight_entry (fold_left (fun acc g => map2 madd acc (fst g)) grads acc)
                 l i j
    = fold_left fadd (map (fun g => weight_entry (fst g) l i j) grads)
                (weight_entry acc l i j).
Proof.
  intros Hg. revert acc. induction Hg as [|g grads Hg0 _ IH]; intros acc Hacc.
  - split; [exact Hacc|reflexivity].
  - cbn [fold_left map].
    assert (Hacc' : same_shapes (map2 madd acc (fst g)) ws)
      by (apply (combine_same_shapes fadd); assumption).
    destruct (IH _ Hacc') as [Hs He].
    split; [exact Hs|].
    intros l i j Hl Hi Hj. rewrite He by assumption.
    f_equal. apply (combine_weight_entry fadd (ws := ws)); assumption.
Qed.

Lemma sum_bias_gradients (bs : list (vec F))
      (grads : list (list (matrix F) * list (vec F))) (acc : list (vec F)) :
  Forall (fun g => same_shape (snd g) bs) grads ->
  same_shape acc bs ->
  same_shape (fold_left (fun acc g => map2 vadd acc (snd g)) grads acc) bs /\
  forall l i,
    l < length bs -> i < length (nth l bs []) ->
    bias_entry (fold_left (fun acc g => map2 vadd acc (snd g)) grads acc) l i
    = fold_left fadd (map (fun g => bias_entry (snd g) l i) grads)
                (bias_entry acc l i).
Proof.
  intros Hg. revert acc. induction Hg as [|g grads Hg0 _ IH]; intros acc Hacc.
  - split; [exact Hacc|reflexivity].
  - cbn [fold_left map].
    assert (Hacc' : same_shape (map2 vadd acc (snd g)) bs)
      by (apply (combine_same_shape fadd); assumption).
    destruct (IH _ Hacc') as [Hs He].
    split; [exact Hs|].
    intros l i Hl Hi. rewrite He by assumption.
    f_equal. apply (combine_bias_entry fadd (bs := bs)); assumption.
Qed.

(** What [update_mini_batch] computes on a non-empty mini-batch. *)
Lemma update_mini_batch_formula (self : Network F) (mini_batch : dataset F)
      (learning_rate : F) :
  mini_batch <> [] ->
  update_mini_batch mini_batch learning_rate self
  = (grads <- batch_gradients self mini_batch ;;
     let rate := fdiv learning_rate (of_Z (Z.of_nat (length mini_batch))) in
     let nabla_weights :=
       fold_left (fun acc g => map2 madd acc (fst g)) grads
                 (map zeros_like2 (weights self)) in
     let nabla_biases :=
       fold_left (fun acc g => map2 vadd acc (snd g)) grads
                 (map zeros_like (biases self)) in
     Ok (tt,
         {| num_layers := num_layers self;
            structure := structure self;
            weights := map2 (map2 (map2 (fun a b => fsub a (fmul rate b))))
                            (weights self) nabla_weights;
            biases := map2 (map2 (fun a b => fsub a (fmul rate b)))
                           (biases self) nabla_biases;
            activate_function := activate_function self;
            activate_derivative := activate_derivative self;
            cost_der := cost_der self |})).
Proof.
  intros Hne. unfold update_mini_batch. rewrite accumulate_sums.
  destruct (batch_gradients self mini_batch) as [grads|e]; [|reflexivity].
  cbn [bind]. unfold py_div_int.
  destruct (Z.of_nat (length mini_batch) =? 0)%Z eqn:E.
  { apply Z.eqb_eq in E. destruct mini_batch; [congruence|simpl in E; lia]. }
  cbn [bind]. do 3 f_equal.
  - apply map2_ext. intros w s. apply step_entrywise.
  - apply map2_ext. intros b s. apply bias_step_entrywise.
Qed.

(** C2: on a non-empty mini-batch whose examples have gradients
    [grads] (one [backprop] each), for a network of the declared shapes,
    [update_mini_batch] returns, keeps the shape of every weight matrix and
    bias vector, and sets every entry of every one of them to its old value
    minus [learning_rate / len(mini_batch)] times the sum, over the examples
    of the batch in order, of that entry of the example's gradient. *)
Theorem update_mini_batch_descends (self : Network F) (mini_batch : dataset F)
        (learning_rate : F)
        (grads : list (list (matrix F) * list (vec F))) :
  well_shaped self ->
  keeps_length (activate_function self) ->
  keeps_length (activate_derivative self) ->
  cost_keeps_length (cost_der self) ->
  mini_batch <> [] ->
  (forall ex, In ex mini_batch -> length (fst ex) = input_size self) ->
  batch_gradients self mini_batch = Ok grads ->
  let rate := fdiv learning_rate (of_Z (Z.of_nat (length mini_batch))) in
  exists self',
    update_mini_batch mini_batch learning_rate self = Ok (tt, self') /\
    length grads = length mini_batch /\
    same_shapes (weights self') (weights self) /\
    same_shape (biases self') (biases self) /\
    (forall l i j,
        l < length (weights self) ->
        i < length (nth l (weights self) []) ->
        j < length (nth i (nth l (weights self) []) []) ->
        weight_entry (weights self') l i j
        = fsub (weight_entry (weights self) l i j)
               (fmul rate
                     (fold_left fadd
                                (map (fun g => weight_entry (fst g) l i j)
                                     grads)
                                (of_Z 0)))) /\
    (forall l i,
        l < length (biases self) ->
        i < length (nth l (biases self) []) ->
        bias_entry (biases self') l i
        = fsub (bias_entry (biases self) l i)
               (fmul rate
                     (fold_left fadd
                                (map (fun g => bias_entry (snd g) l i) grads)
                                (of_Z 0)))) /\
    num_layers self' = num_layers self /\
    structure self' = structure self /\
    activate_function self' = activate_function self /\
    activate_derivative self' = activate_derivative self /\
    cost_der self' = cost_der self.
Proof.
  intros Hws Hact Hder Hcost Hne Hrows Hgrads rate.
  destruct (@batch_gradients_shapes F SF self mini_batch grads
              Hws Hact Hder Hcost Hrows Hgrads)
    as [Hcount Hshapes].
  assert (Hgw : Forall (fun g => same_shapes (fst g) (weights self)) grads)
    by (eapply Forall_impl; [|exact Hshapes]; intros g [Hg _]; exact Hg).
  assert (Hgb : Forall (fun g => same_shape (snd g) (biases self)) grads)
    by (eapply Forall_impl; [|exact Hshapes]; intros g [_ Hg]; exact Hg).
  destruct (sum_weight_gradients Hgw (zeros_same_shapes (weights self)))
    as [Hsw Hew].
  destruct (sum_bias_gradients Hgb (zeros_same_shape (biases self)))
    as [Hsb Heb].
  rewrite (@update_mini_batch_formula self mini_batch learning_rate Hne),
    Hgrads.
  cbn [bind]. cbv zeta. fold rate.
  eexists. split; [reflexivity|]. cbn [weights biases num_layers structure
    activate_function activate_derivative cost_der].
  split; [exact Hcount|].
  split; [apply combine_same_shapes; [apply same_shapes_refl|exact Hsw]|].
  split; [apply combine_same_shape; [apply same_shape_refl|exact Hsb]|].
  split; [|split; [|repeat split]].
  - intros l i j Hl Hi Hj.
    rewrite (combine_weight_entry (fun a b => fsub a (fmul rate b))
               (ws := weights self)); try assumption.
    + rewrite Hew by assumption. rewrite zero_weight_entry. reflexivity.
    + apply same_shapes_refl.
  - intros l i Hl Hi.
    rewrite (combine_bias_entry (fun a b => fsub a (fmul rate b))
               (bs := biases self)); try assumption.
    + rewrite Heb by assumption. rewrite zero_bias_entry. reflexivity.
    + apply same_shape_refl.
Qed.

(** C7: for a network of the declared shapes and a non-empty mini-batch
    of fitting rows on which [backprop] returns the gradients [grads], when
    every weight, every bias and every accumulated gradient entry is finite
    (in an arithmetic where a finite [w] minus [0 / n] times a finite [g]
    compares equal to [w], as in binary64), [update_mini_batch] with
    [learning_rate = 0] returns, keeps every shape and leaves every weight
    and bias entry equal ([==]) to its previous value. *)
Theorem update_mini_batch_zero_rate_finite (finite : F -> Prop)
        (self : Network F) (mini_batch : dataset F)
        (grads : list (list (matrix F) * list (vec F))) :
  zero_step_law finite (Z.of_nat (length mini_batch)) ->
  well_shaped self ->
  keeps_length (activate_function self) ->
  keeps_length (activate_derivative self) ->
  cost_keeps_length (cost_der self) ->
  mini_batch <> [] ->
  (forall ex, In ex mini_batch -> length (fst ex) = input_size self) ->
  batch_gradients self mini_batch = Ok grads ->
  (forall l i j,
      l < length (weights self) ->
      i < length (nth l (weights self) []) ->
      j < length (nth i (nth l (weights self) []) []) ->
      finite (weight_entry (weights self) l i j) /\
      finite (fold_left fadd
                        (map (fun g => weight_entry (fst g) l i j) grads)
                        (of_Z 0))) ->
  (forall l i,
      l < length (biases self) ->
      i < length (nth l (biases self) []) ->
      finite (bias_entry (biases self) l i) /\
      finite (fold_left fadd
                        (map (fun g => bias_entry (snd g) l i) grads)
                        (of_Z 0))) ->
  exists self',
    update_mini_batch mini_batch (of_Z 0) self = Ok (tt, self') /\
    same_shapes (weights self') (weights self) /\
    same_shape (biases self') (biases self) /\
    (forall l i j,
        l < length (weights self) ->
        i < length (nth l (weights self) []) ->
        j < length (nth i (nth l (weights self) []) []) ->
        feqb (weight_entry (weights self') l i j)
             (weight_entry (weights self) l i j) = true) /\
    (forall l i,
        l < length (biases self) ->
        i < length (nth l (biases self) []) ->
        feqb (bias_entry (biases self') l i)
             (bias_entry (biases self) l i) = true) /\
    num_layers self' = num_layers self /\
    structure self' = structure self /\
    activate_function self' = activate_function self /\
    activate_derivative self' = activate_derivative self /\
    cost_der self' = cost_der self.
Proof.
  intros Hlaw Hws Hact Hder Hcost Hne Hrows Hgrads Hfw Hfb.
  destruct (@batch_gradients_shapes F SF self mini_batch grads
              Hws Hact Hder Hcost Hrows Hgrads)
    as [_ Hshapes].
  assert (Hgw : Forall (fun g => same_shapes (fst g) (weights self)) grads)
    by (eapply Forall_impl; [|exact Hshapes]; intros g [Hg _]; exact Hg).
  assert (Hgb : Forall (fun g => same_shape (snd g) (biases self)) grads)
    by (eapply Forall_impl; [|exact Hshapes]; intros g [_ Hg]; exact Hg).
  destruct (sum_weight_gradients Hgw (zeros_same_shapes (weights self)))
    as [Hsw Hew].
  destruct (sum_bias_gradients Hgb (zeros_same_shape (biases self)))
    as [Hsb Heb].
  rewrite (@update_mini_batch_formula self mini_batch (of_Z 0) Hne), Hgrads.
  cbn [bind]. cbv zeta.
  set (rate := fdiv (of_Z 0) (of_Z (Z.of_nat (length mini_batch)))).
  eexists. split; [reflexivity|]. cbn [weights biases num_layers structure
    activate_function activate_derivative cost_der].
  split; [apply combine_same_shapes; [apply same_shapes_refl|exact Hsw]|].
  split; [apply combine_same_shape; [apply same_shape_refl|exact Hsb]|].
  split; [|split; [|repeat split]].
  - intros l i j Hl Hi Hj.
    rewrite (combine_weight_entry (fun a b => fsub a (fmul rate b))
               (ws := weights self)); try assumption.
    + rewrite Hew by assumption. rewrite zero_weight_entry.
      destruct (Hfw l i j Hl Hi Hj) as [Hw Hg].
      apply Hlaw; assumption.
    + apply same_shapes_refl.
  - intros l i Hl Hi.
    rewrite (combine_bias_entry (fun a b => fsub a (fmul rate b))
               (bs := biases self)); try assumption.
    + rewrite Heb by assumption. rewrite zero_bias_entry.
      destruct (Hfb l i Hl Hi) as [Hb Hg].
      apply Hlaw; assumption.
    + apply same_shape_refl.
Qed.

End UpdateTheorems.

(** ** The output layer, and what [evaluate] returns *)

Section OutputFacts.
Context {F : Type} {SF : Scalar F}.

Lemma last_map_nonempty {A B : Type} (f : A -> B) (l : list A) (d : B)
      (d' : A) :
  l <> [] -> last (map f l) d = f (last l d').
Proof.
  induction l as [|a l IH]; intros Hne; [congruence|].
  destruct l as [|b l]; [reflexivity|].
  change (last (map f (b :: l)) d = f (last (b :: l) d')).
  apply IH. discriminate.
Qed.

Lemma last_map_tl (st : list Z) :
  2 <= length st ->
  last (map Z.to_nat (tl st)) (Z.to_nat (hd 0%Z st))
  = Z.to_nat (last st 0%Z).
Proof.
  destruct st as [|n0 [|n1 st]]; simpl length; try lia. intros _.
  change (last (n0 :: n1 :: st) 0%Z) with (last (n1 :: st) 0%Z).
  apply last_map_nonempty. discriminate.
Qed.

Lemma last_in {A : Type} (l : list A) (d : A) : l <> [] -> In (last l d) l.
Proof.
  induction l as [|a l IH]; intros Hne; [congruence|].
  destruct l as [|b l]; [now left|].
  right. apply IH. discriminate.
Qed.

Lemma output_layer_positive (self : Network F) :
  well_shaped self -> (0 < last (structure self) 0%Z)%Z.
Proof.
  intros (_ & Htwo & Hpos & _).
  assert (Hin : In (last (structure self) 0%Z) (structure self))
    by (apply last_in; destruct (structure self);
        [simpl in Htwo; lia|discriminate]).
  rewrite Forall_forall in Hpos. exact (Hpos _ Hin).
Qed.


(** A network of the declared shapes answers a fitting row with one
    activation per output neuron, so with at least one. *)
Lemma forward_feed_nonempty (self : Network F) (x : vec F) :
  well_shaped self ->
  keeps_length (activate_function self) ->
  length x = input_size self ->
  forward_feed self x <> [].
Proof.
  intros Hws Hact Hx Hnil.
  pose proof (@forward_feed_length F SF self x Hws Hact Hx) as Hlen.
  rewrite Hnil in Hlen. unfold input_size in Hlen.
  rewrite last_map_tl in Hlen by (apply Hws).
  pose proof (output_layer_positive Hws). simpl in Hlen. lia.
Qed.

(** C6: for a network of the declared shapes whose activation keeps
    lengths, on a non-empty test dataset whose rows fit the input layer,
    [evaluate] returns [hits / rows * 100], where [hits] counts the rows
    whose arg-max of [forward_feed] over the feature columns equals the
    label column; [0 <= hits <= rows], so the value is neither below 0 nor
    above 100; and the object is returned as it was received. *)
Theorem evaluate_percentage (self : Network F) (td : dataset F) :
  percent_order_laws ->
  well_shaped self ->
  keeps_length (activate_function self) ->
  rows_fit self td ->
  td <> [] ->
  exists r,
    evaluate td self = Ok (r, self) /\
    r = fmul (fdiv (of_Z (Z.of_nat (hits self td)))
                   (of_Z (Z.of_nat (length td))))
             (of_Z 100) /\
    hits self td = length (filter (is_hit self) td) /\
    hits self td <= length td /\
    fltb r (of_Z 0) = false /\ fltb (of_Z 100) r = false.
Proof.
  intros [Hquot Hscale] Hws Hact Hrows Hne.
  assert (Hout : forall ex, In ex td -> forward_feed self (fst ex) <> []).
  { intros ex Hex. apply forward_feed_nonempty; [exact Hws|exact Hact|].
    apply Hrows. exact Hex. }
  eexists. split; [apply evaluate_returns; assumption|].
  split; [reflexivity|]. split; [reflexivity|].
  split; [apply hits_le|].
  assert (Hlen : (0 < Z.of_nat (length td))%Z)
    by (destruct td; [congruence|simpl; lia]).
  pose proof (hits_le self td) as Hle.
  destruct (Hquot (Z.of_nat (hits self td)) (Z.of_nat (length td)))
    as [Hq0 Hq1]; [lia|lia|].
  apply Hscale; assumption.
Qed.

End OutputFacts.

(** ** Facts about the default activation and cost *)

Section DefaultFacts.
Context {F : Type} {SF : Scalar F} {SE : Exponential F}.

Lemma sigmoid_keeps_length : keeps_length (sigmoid (F := F)).
Proof. intros v. apply length_map. Qed.

Lemma sigmoid_derivative_keeps_length :
  keeps_length (sigmoid_derivative (F := F)).
Proof.
  intros v. unfold sigmoid_derivative, vmul.
  rewrite map2_length, length_map, sigmoid_keeps_length. lia.
Qed.

Lemma cost_derivative_keeps_length :
  cost_keeps_length (cost_derivative (F := F)).
Proof.
  intros a y cd Hcd. unfold cost_derivative in Hcd. bind_ok Hcd.
  inversion Hcd; subst. unfold one_hot, py_set in E.
  do 2 bind_ok E. inversion E; subst.
  unfold vsub. rewrite map2_length, set_nth_length, zeros_like_length. lia.
Qed.

End DefaultFacts.

(** ** The real numbers satisfy the arithmetic laws *)

Lemma Int_part_IZR (z : Z) : Int_part (IZR z) = z.
Proof. symmetry. apply Int_part_spec. lra. Qed.

Lemma Rtrunc_IZR (z : Z) : Rtrunc (IZR z) = z.
Proof.
  unfold Rtrunc. destruct (Rle_dec 0 (IZR z)); [apply Int_part_IZR|].
  rewrite <- opp_IZR, Int_part_IZR. lia.
Qed.

Lemma R_zero_step_law (n : Z) : zero_step_law (F := R) (fun _ => True) n.
Proof.
  intros w g _ _. simpl.
  destruct (Req_dec_T (w - 0 / IZR n * g) w) as [_|Hneq]; [reflexivity|].
  exfalso. apply Hneq. unfold Rdiv. rewrite Rmult_0_l, Rmult_0_l. lra.
Qed.

Lemma R_fltb_false (a b : R) : (b <= a)%R -> fltb a b = false.
Proof.
  intros Hab. simpl. destruct (Rlt_dec a b); [lra|reflexivity].
Qed.

Lemma R_fltb_false_inv (a b : R) : fltb a b = false -> (b <= a)%R.
Proof.
  simpl. destruct (Rlt_dec a b); [discriminate|lra].
Qed.

Lemma R_percent_order_laws : percent_order_laws (F := R).
Proof.
  split.
  - intros h n Hh Hn.
    assert (Hn' : (0 < IZR n)%R) by (apply (IZR_lt 0); exact Hn).
    assert (Hh0 : (0 <= IZR h)%R) by (apply (IZR_le 0); lia).
    assert (Hhn : (IZR h <= IZR n)%R) by (apply IZR_le; lia).
    split; apply R_fltb_false; change (fdiv (of_Z h) (of_Z n))
      with (IZR h / IZR n)%R; change (of_Z 0) with 0%R;
      change (of_Z 1) with 1%R.
    + apply Rmult_le_pos; [exact Hh0|].
      apply Rlt_le, Rinv_0_lt_compat. exact Hn'.
    + apply (Rmult_le_reg_r (IZR n)); [exact Hn'|].
      unfold Rdiv. rewrite Rmult_assoc, Rinv_l by lra. lra.
  - intros q Hq0 Hq1.
    apply R_fltb_false_inv in Hq0, Hq1.
    change (of_Z 0) with 0%R in *. change (of_Z 1) with 1%R in *.
    split; apply R_fltb_false; change (fmul q (of_Z 100)) with (q * 100)%R;
      change (of_Z 100) with 100%R; change (of_Z 0) with 0%R; lra.
Qed.

(** ** The specification's examples, over the reals *)

Example cost_of_even_output :
  cost_function [1 / 2; 1 / 2]%R (PyInt 0) = Ok (1 / 4)%R.
Proof.
  rewrite cost_function_of_one_hot, one_hot_in_range by (simpl; lia).
  cbn [bind]. f_equal. unfold quadratic, np_sum. simpl. lra.
Qed.

Example cost_derivative_of_even_output :
  cost_derivative [1 / 2; 1 / 2]%R (PyInt 1) = Ok [1 / 2; - (1 / 2)]%R.
Proof.
  unfold cost_derivative. rewrite one_hot_in_range by (simpl; lia).
  cbn [bind]. unfold vsub. simpl. f_equal. f_equal; [lra|]. f_equal. lra.
Qed.

Example forward_feed_single_neuron :
  forward_feed {| num_layers := 2; structure := [1; 1]%Z;
                  weights := [[[1]]]%R; biases := [[0]]%R;
                  activate_function := sigmoid;
                  activate_derivative := sigmoid_derivative;
                  cost_der := cost_derivative |} [0]%R
  = [1 / 2]%R.
Proof.
  unfold forward_feed, sigmoid, dot, inner, np_sum. simpl.
  f_equal. replace (- (0 + 1 * 0 + 0))%R with 0%R by lra.
  rewrite exp_0. lra.
Qed.

Lemma example_network_well_shaped : well_shaped example_network.
Proof.
  unfold well_shaped. simpl.
  repeat split; try lia; repeat constructor; lia.
Qed.

Lemma example_batch_rows (ex : example R) :
  In ex example_batch -> length (fst ex) = input_size example_network.
Proof. intros [<-|[]]. reflexivity. Qed.

Lemma example_cost_derivative :
  exists cd,
    cost_der example_network (forward_feed example_network [1; 0]%R) (PyFloat 0%R)
    = Ok cd.
Proof.
  simpl. unfold cost_derivative, one_hot. cbn [py_int].
  change (ftrunc 0%R) with (Ok (A := Z) (Rtrunc (IZR 0))).
  rewrite Rtrunc_IZR. cbn [bind]. eexists. reflexivity.
Qed.

Lemma example_batch_gradients :
  exists grads, batch_gradients example_network example_batch = Ok grads.
Proof.
  destruct example_cost_derivative as (cd & Hcd).
  destruct (well_shaped_counts example_network_well_shaped)
    as (Hlen & Hnum & Hpos).
  unfold batch_gradients, example_batch. cbn [mapM fst snd].
  rewrite (backprop_returns example_network [1; 0]%R (PyFloat 0%R)
                            Hlen Hnum Hpos Hcd).
  cbn [bind]. eexists. reflexivity.
Qed.

(** ** The theorems at concrete inputs *)

(** The index [-1] lies outside [0 .. 1], and both functions return on
    it: the target vector is [[0; 1]]. *)
Lemma cost_index_minus_one_returns :
  ~ (0 <= -1 < Z.of_nat (length [1 / 2; 1 / 2]%R))%Z /\
  cost_function [1 / 2; 1 / 2]%R (PyInt (-1)) = Ok (1 / 4)%R /\
  cost_derivative [1 / 2; 1 / 2]%R (PyInt (-1)) = Ok [1 / 2; - (1 / 2)]%R.
Proof.
  split; [simpl; lia|]. split.
  - rewrite cost_function_of_one_hot, one_hot_wraps by (simpl; lia).
    cbn [bind]. f_equal. unfold quadratic, np_sum. simpl. lra.
  - unfold cost_derivative. rewrite one_hot_wraps by (simpl; lia).
    cbn [bind]. unfold vsub. simpl. f_equal. f_equal; [lra|]. f_equal. lra.
Qed.

Lemma cost_negative_index_wraps_witness :
  (- Z.of_nat (length [1 / 2; 1 / 2]%R) <= -1 < 0)%Z /\
  cost_derivative [1 / 2; 1 / 2]%R (PyInt (-1))
  = Ok (vsub [1 / 2; 1 / 2]%R [0; 1]%R).
Proof.
  assert (Hi : (- Z.of_nat (length [1 / 2; 1 / 2]%R) <= -1 < 0)%Z)
    by (simpl; lia).
  split; [exact Hi|].
  exact (proj1 (proj2 (cost_negative_index_wraps [1 / 2; 1 / 2]%R Hi))).
Defined.

(** A structure with a single layer is accepted: the object has one layer
    and neither weights nor biases. *)
Lemma init_single_layer_accepted :
  Network_init constant_generator [3%Z] None None
               sigmoid sigmoid_derivative cost_derivative tt
  = Ok ({| num_layers := 1; structure := [3%Z];
           weights := []; biases := [];
           activate_function := sigmoid;
           activate_derivative := sigmoid_derivative;
           cost_der := cost_derivative |}, tt).
Proof. reflexivity. Qed.

Lemma init_accepts_any_length_witness :
  Forall (fun n => (0 <= n)%Z) [3%Z] /\
  exists self g',
    Network_init constant_generator [3%Z] None None
                 sigmoid sigmoid_derivative cost_derivative tt
    = Ok (self, g') /\
    num_layers self = 1.
Proof.
  assert (Hst : Forall (fun n => (0 <= n)%Z) [3%Z])
    by (repeat constructor; lia).
  split; [exact Hst|].
  destruct (init_accepts_any_length constant_generator None None
              sigmoid sigmoid_derivative cost_derivative tt Hst)
    as (self & g' & Hinit & Hnum & _).
  exists self, g'. split; [exact Hinit|exact Hnum].
Defined.


Lemma update_mini_batch_descends_witness :
  well_shaped example_network /\
  example_batch <> [] /\
  exists grads self',
    batch_gradients example_network example_batch = Ok grads /\
    update_mini_batch example_batch 3%R example_network = Ok (tt, self') /\
    same_shapes (weights self') (weights example_network).
Proof.
  split; [exact example_network_well_shaped|]. split; [discriminate|].
  destruct example_batch_gradients as (grads & Hgrads).
  assert (Hne : example_batch <> []) by discriminate.
  destruct (@update_mini_batch_descends R R_scalar example_network
              example_batch 3%R grads
              example_network_well_shaped sigmoid_keeps_length
              sigmoid_derivative_keeps_length cost_derivative_keeps_length
              Hne example_batch_rows Hgrads)
    as (self' & Hup & _ & Hshape & _).
  exists grads, self'. repeat split; assumption.
Defined.

Lemma example_outputs_nonempty (ex : example R) :
  In ex example_batch -> forward_feed example_network (fst ex) <> [].
Proof. intros [<-|[]]. discriminate. Qed.

Lemma evaluate_percentage_witness :
  percent_order_laws (F := R) /\
  well_shaped example_network /\
  rows_fit example_network example_batch /\
  example_batch <> [] /\
  exists r,
    evaluate example_batch example_network = Ok (r, example_network) /\
    fltb r 0%R = false /\ fltb 100%R r = false.
Proof.
  assert (Hne : example_batch <> []) by discriminate.
  split; [exact R_percent_order_laws|].
  split; [exact example_network_well_shaped|].
  split; [exact example_batch_rows|]. split; [exact Hne|].
  destruct (@evaluate_percentage R R_scalar example_network example_batch
              R_percent_order_laws example_network_well_shaped
              sigmoid_keeps_length example_batch_rows Hne)
    as (r & Hev & _ & _ & _ & Hlo & Hhi).
  exists r. repeat split; assumption.
Defined.

Lemma reversing_shuffle_rows (g : unit) (d : dataset R) :
  length (fst (reversing_shuffle g d)) = length d.
Proof. apply length_rev. Qed.

Lemma sgd_mini_batches_nonempty_witness :
  data example_world <> [] /\
  (1 <= 1)%Z /\
  exists ks,
    mini_batches_of (fst (reversing_shuffle tt example_batch)) 1 1
    = Ok (map (fun k => py_slice (rev example_batch) k (k + 1)) ks) /\
    Forall (fun k => py_slice (rev example_batch) k (k + 1) <> []) ks.
Proof.
  assert (Hne : data example_world <> []) by discriminate.
  assert (Hsize : (1 <= 1)%Z) by lia.
  split; [exact Hne|]. split; [exact Hsize|].
  destruct (@sgd_mini_batches_nonempty R R_scalar unit reversing_shuffle
              no_round 1 0%R String.EmptyString None [] example_world
              example_world reversing_shuffle_rows Hne Hsize eq_refl)
    as (ks & _ & Hmb & _ & Hall).
  exists ks. split; [exact Hmb|].
  eapply Forall_impl; [|exact Hall]. intros k [Hk _]. exact Hk.
Defined.

(** ** The step of size zero in binary64 *)

Lemma SFeqb_refl (x : spec_float) :
  match x with
  | S754_zero _ | S754_finite _ _ _ => True
  | S754_infinity _ | S754_nan => False
  end ->
  SFeqb x x = true.
Proof.
  destruct x as [s|s| |s m e]; try contradiction; intros _.
  - reflexivity.
  - unfold SFeqb, SFcompare.
    destruct s; rewrite Z.compare_refl, Pos.compare_cont_refl; reflexivity.
Qed.

(** In binary64, once [0 / n] is a zero, a finite [w] minus [0 / n] times
    a finite [g] compares equal to [w]: the product is a zero of either
    sign, and subtracting a zero changes at most the sign of a zero. *)
Lemma binary64_zero_step_law (n : Z) (s : bool) :
  Prim2SF (fdiv (of_Z 0) (of_Z n)) = S754_zero s ->
  zero_step_law binary64_finite n.
Proof.
  intros Hrate w g Hw Hg. unfold binary64_finite in Hw, Hg.
  change (PrimFloat.eqb
            (PrimFloat.sub w (PrimFloat.mul (fdiv (of_Z 0) (of_Z n)) g)) w
          = true).
  rewrite FloatAxioms.eqb_spec, FloatAxioms.sub_spec, FloatAxioms.mul_spec,
    Hrate.
  pose proof (SFeqb_refl (Prim2SF w) Hw) as Hrefl.
  destruct (Prim2SF g) as [sg|sg| |sg mg eg]; try contradiction;
    destruct (Prim2SF w) as [sw|sw| |sw mw ew]; try contradiction;
    try exact Hrefl;
    destruct s, sg, sw; reflexivity.
Qed.

Lemma steep_network_well_shaped : well_shaped steep_network.
Proof.
  unfold well_shaped. simpl.
  repeat split; try lia; repeat constructor; lia.
Qed.

Lemma steep_activation_keeps_length :
  keeps_length (activate_function steep_network) /\
  keeps_length (activate_derivative steep_network).
Proof. split; intros v; [reflexivity|apply length_map]. Qed.

Lemma finite_batch_rows (ex : example float) :
  In ex finite_batch -> length (fst ex) = input_size steep_network.
Proof. intros [<-|[]]. reflexivity. Qed.

Lemma overflow_batch_rows (ex : example float) :
  In ex overflow_batch -> length (fst ex) = input_size steep_network.
Proof. intros [<-|[]]. reflexivity. Qed.

Lemma finite_batch_gradients :
  batch_gradients steep_network finite_batch
  = Ok [([[[0x1p+1021%float]]], [[0x1p+1022%float]])].
Proof. vm_compute. reflexivity. Qed.

Lemma finite_batch_zero_step :
  zero_step_law binary64_finite (Z.of_nat (length finite_batch)).
Proof. apply (@binary64_zero_step_law _ false). vm_compute. reflexivity. Qed.

(** On [overflow_batch] the weighted sum [2^1023 * 2] overflows to an
    infinity, the gradients are infinite, and the step [0 * inf] is a NaN:
    with [learning_rate = 0] the weight and the bias are NaN after the
    update, so neither compares equal to its previous value. *)
Lemma zero_rate_update_overflows :
  well_shaped steep_network /\
  overflow_batch <> [] /\
  rows_fit steep_network overflow_batch /\
  batch_gradients steep_network overflow_batch
  = Ok [([[[infinity]]], [[infinity]])] /\
  update_mini_batch overflow_batch (of_Z 0) steep_network
  = Ok (tt, nan_network) /\
  feqb (weight_entry (weights nan_network) 0 0 0)
       (weight_entry (weights steep_network) 0 0 0) = false /\
  feqb (bias_entry (biases nan_network) 0 0)
       (bias_entry (biases steep_network) 0 0) = false.
Proof.
  split; [exact steep_network_well_shaped|].
  split; [discriminate|].
  split; [exact overflow_batch_rows|].
  repeat split; vm_compute; reflexivity.
Qed.

Lemma update_mini_batch_zero_rate_finite_witness :
  well_shaped steep_network /\
  finite_batch <> [] /\
  exists self',
    update_mini_batch finite_batch (of_Z 0) steep_network = Ok (tt, self') /\
    feqb (weight_entry (weights self') 0 0 0)
         (weight_entry (weights steep_network) 0 0 0) = true /\
    feqb (bias_entry (biases self') 0 0)
         (bias_entry (biases steep_network) 0 0) = true.
Proof.
  assert (Hne : finite_batch <> []) by discriminate.
  split; [exact steep_network_well_shaped|]. split; [exact Hne|].
  destruct (@update_mini_batch_zero_rate_finite float binary64_scalar
              binary64_finite steep_network finite_batch _
              finite_batch_zero_step steep_network_well_shaped
              (proj1 steep_activation_keeps_length)
              (proj2 steep_activation_keeps_length)
              cost_derivative_keeps_length Hne finite_batch_rows
              finite_batch_gradients)
    as (self' & Hup & _ & _ & Hw & Hb & _).
  - intros [|l] i j Hl Hi Hj; [|simpl in Hl; lia].
    destruct i as [|i]; [|simpl in Hi; lia].
    destruct j as [|j]; [|simpl in Hj; lia].
    split; vm_compute; exact I.
  - intros [|l] i Hl Hi; [|simpl in Hl; lia].
    destruct i as [|i]; [|simpl in Hi; lia].
    split; vm_compute; exact I.
  - exists self'. split; [exact Hup|].
    split; [apply Hw|apply Hb]; simpl; lia.
Defined.

(** * Further properties of the code *)

(** ** Forward inference *)

Section ForwardExtras.
Context {F : Type} {SF : Scalar F}.

(** For a network of the declared shapes whose activation keeps lengths,
    [forward_feed] maps an input of the input layer's size to a vector of
    the output layer's size. *)
Theorem forward_feed_output_length (self : Network F) (x : vec F) :
  well_shaped self ->
  keeps_length (activate_function self) ->
  length x = input_size self ->
  length (forward_feed self x) = Z.to_nat (last (structure self) 0%Z).
Proof.
  intros Hws Hact Hx.
  rewrite (@forward_feed_length F SF self x Hws Hact Hx).
  destruct Hws as (_ & Htwo & _). apply last_map_tl. exact Htwo.
Qed.

(** [forward_feed] returns the last activation that the forward pass of
    [backprop] records, whatever the numbers of weights and biases. *)
Lemma forward_feed_last_activation (act : vec F -> vec F)
      (ws : list (matrix F)) (bs : list (vec F)) (a : vec F) :
  fold_left (fun output '(w, b) => act (vadd (dot w output) b))
            (combine ws bs) a
  = nth (length (activations act ws bs a)) (a :: activations act ws bs a) [].
Proof.
  revert bs a. induction ws as [|w ws IH]; intros [|b bs] a; simpl;
    try reflexivity.
  rewrite IH. reflexivity.
Qed.

End ForwardExtras.

(** ** Backpropagation when [num_layers] and the parameters disagree *)

Section BackpropExtras.
Context {F : Type} {SF : Scalar F}.

Lemma foldM_app {A B : Type} (body : A -> B -> result A) (l1 l2 : list B)
      (a : A) :
  foldM body (l1 ++ l2) a = (a' <- foldM body l1 a ;; foldM body l2 a').
Proof.
  revert a. induction l1 as [|b l1 IH]; intros a; [reflexivity|].
  simpl. destruct (body a b); simpl; [apply IH|reflexivity].
Qed.

(** The statements of [backprop] before its backward loop: with as many
    biases as weights, at least one of each, and a cost derivative that
    returns, the loop starts from the error and the gradients of the output
    layer. *)
Lemma backprop_output_layer (self : Network F) (x : vec F) (y : pynum F)
      (cd : vec F) :
  length (biases self) = length (weights self) ->
  1 <= length (weights self) ->
  cost_der self (forward_feed self x) y = Ok cd ->
  let L := length (weights self) in
  let act := activate_function self in
  let acts := x :: activations act (weights self) (biases self) x in
  let zs := summatories act (weights self) (biases self) x in
  let deltas := errors (activate_derivative self) cd (weights self) zs in
  backprop self x y
  = ('(_, nabla_biases, nabla_weights) <-
       foldM (backward_step self acts zs)
             (map Z.of_nat (seq 2 (num_layers self - 2)))
             (nth (L - 1) deltas [],
              firstn (L - 1) (map zeros_like (biases self))
              ++ skipn (L - 1) deltas,
              firstn (L - 1) (map zeros_like2 (weights self))
              ++ skipn (L - 1) (map2 outer deltas acts)) ;;
     Ok (nabla_weights, nabla_biases)).
Proof.
  intros Hlen Hpos Hcd L act acts zs deltas.
  assert (Hzs : length zs = L) by (apply summatories_length; exact Hlen).
  assert (Hacts : length acts = S L)
    by (unfold acts; simpl; f_equal; apply activations_length; exact Hlen).
  assert (Hd : length deltas = L) by (apply errors_length; exact Hzs).
  assert (Hzb : length (map zeros_like (biases self)) = L)
    by (rewrite length_map; exact Hlen).
  assert (Hzw : length (map zeros_like2 (weights self)) = L)
    by (rewrite length_map; reflexivity).
  assert (Hmd : length (map2 outer deltas acts) = L)
    by (rewrite map2_length; lia).
  unfold backprop.
  destruct (forward_pass_trace self x) as (a_out & ->).
  fold act. fold acts. fold zs.
  change (-1)%Z with (- Z.of_nat 1)%Z. change (-2)%Z with (- Z.of_nat 2)%Z.
  rewrite (py_get_back acts (k := 1) []) by lia. cbn [bind].
  rewrite Hacts. replace (S L - 1) with L by lia.
  replace (nth L acts []) with (forward_feed self x)
    by (unfold forward_feed; apply forward_feed_loop; exact Hlen).
  rewrite Hcd. cbn [bind].
  rewrite (py_get_back zs (k := 1) []) by lia. cbn [bind].
  rewrite Hzs.
  replace (vmul cd (activate_derivative self (nth (L - 1) zs [])))
    with (nth (L - 1) deltas [])
    by (apply errors_last; [exact Hzs|exact Hpos]).
  rewrite py_set_back by lia. cbn [bind]. rewrite Hzb.
  rewrite (py_get_back acts (k := 2) []) by lia. cbn [bind].
  rewrite Hacts. replace (S L - 2) with (L - 1) by lia.
  replace (outer (nth (L - 1) deltas []) (nth (L - 1) acts []))
    with (nth (L - 1) (map2 outer deltas acts) [])
    by (apply nth_map2; lia).
  rewrite py_set_back by lia. cbn [bind]. rewrite Hzw.
  replace (map zeros_like (biases self))
    with (firstn (S (L - 1)) (map zeros_like (biases self))
          ++ skipn (S (L - 1)) deltas) at 1
    by (rewrite firstn_all2, skipn_all2 by lia; apply app_nil_r).
  replace (map zeros_like2 (weights self))
    with (firstn (S (L - 1)) (map zeros_like2 (weights self))
          ++ skipn (S (L - 1)) (map2 outer deltas acts)) at 1
    by (rewrite firstn_all2, skipn_all2 by lia; apply app_nil_r).
  rewrite !set_nth_splice by lia.
  reflexivity.
Qed.

Lemma parameters_fit_counts (self : Network F) (x : vec F) :
  parameters_fit self x -> length (biases self) = length (weights self).
Proof.
  intros (outs & Hsh). apply layers_shaped_lengths in Hsh.
  destruct Hsh as [Hw Hb]. congruence.
Qed.

(** A network without layer transitions (no weights, or no biases) feeds
    its input through unchanged, and [backprop] on it raises [IndexError]
    once the cost derivative has returned: there is no summatory to read. *)
Theorem backprop_without_layers (self : Network F) (x : vec F) (y : pynum F)
        (cd : vec F) :
  weights self = [] \/ biases self = [] ->
  cost_der self x y = Ok cd ->
  forward_feed self x = x /\ backprop self x y = Raise IndexError.
Proof.
  intros Hempty Hcd.
  assert (Hzip : combine (weights self) (biases self) = []).
  { destruct Hempty as [-> | ->]; [reflexivity|apply combine_nil]. }
  unfold forward_feed, backprop, forward_pass. rewrite Hzip. simpl.
  split; [reflexivity|].
  change (py_get [x] (-1)) with (Ok x). cbn [bind]. rewrite Hcd. reflexivity.
Qed.

(** When the structure declares more layers than there are weight matrices
    plus one, while the weights and biases themselves chain from the input
    [x] and the activation and cost functions keep lengths, the backward
    loop of [backprop] runs past the first layer and raises [IndexError]. *)
Theorem backprop_too_many_layers (self : Network F) (x : vec F) (y : pynum F)
        (cd : vec F) :
  parameters_fit self x ->
  keeps_length (activate_function self) ->
  keeps_length (activate_derivative self) ->
  cost_keeps_length (cost_der self) ->
  1 <= length (weights self) ->
  cost_der self (forward_feed self x) y = Ok cd ->
  S (length (weights self)) < num_layers self ->
  backprop self x y = Raise IndexError.
Proof.
  intros Hfit _ _ _ Hpos Hcd Hmany.
  pose proof (parameters_fit_counts Hfit) as Hlen.
  rewrite (backprop_output_layer self x y Hlen Hpos Hcd). cbv zeta.
  set (L := length (weights self)) in *.
  set (acts := x :: activations (activate_function self) (weights self)
                                (biases self) x).
  set (zs := summatories (activate_function self) (weights self)
                         (biases self) x).
  assert (Hzs : length zs = L) by (apply summatories_length; exact Hlen).
  assert (Hacts : length acts = S L)
    by (unfold acts; simpl; f_equal; apply activations_length; exact Hlen).
  assert (Hzb : length (map zeros_like (biases self)) = L)
    by (rewrite length_map; exact Hlen).
  assert (Hzw : length (map zeros_like2 (weights self)) = L)
    by (rewrite length_map; reflexivity).
  replace (num_layers self - 2)
    with ((L - 1) + S (num_layers self - 2 - L)) by lia.
  rewrite seq_app, map_app, foldM_app.
  pose proof (@backward_loop F SF self acts zs cd
                (map zeros_like (biases self))
                (map zeros_like2 (weights self))
                Hzs Hacts Hzb Hzw (L - 1) 1) as Hloop.
  fold L in Hloop. rewrite Hloop by lia. cbn [bind].
  replace (2 + (L - 1)) with (S L) by lia.
  cbn [seq map foldM]. unfold backward_step at 1.
  replace (- Z.of_nat (S L) + 1)%Z with (- Z.of_nat L)%Z by lia.
  rewrite (py_get_back (weights self) (k := L) []) by (fold L; lia).
  cbn [bind].
  unfold py_get at 1. rewrite py_index_out by lia. reflexivity.
Qed.


End BackpropExtras.

(** ** Gradients and updates keep the declared shapes *)

Section ShapeExtras.
Context {F : Type} {SF : Scalar F}.

Lemma same_shape_rows (w' w : matrix F) (c : nat) :
  same_shape w' w -> Forall (fun row => length row = c) w ->
  Forall (fun row => length row = c) w'.
Proof.
  induction 1 as [|r s w' w Hrs _ IH]; intros Hrows; constructor;
    inversion Hrows; subst; [congruence|auto].
Qed.

Lemma layers_shaped_same_shape (outs : list nat) (n_in : nat)
      (ws ws' : list (matrix F)) (bs bs' : list (vec F)) :
  layers_shaped n_in outs ws bs ->
  same_shapes ws' ws -> same_shape bs' bs ->
  layers_shaped n_in outs ws' bs'.
Proof.
  revert n_in ws ws' bs bs'.
  induction outs as [|n outs IH]; intros n_in ws ws' bs bs' Hsh Hw Hb.
  - destruct ws, bs; simpl in Hsh; try contradiction.
    inversion Hw; inversion Hb; subst. exact I.
  - destruct ws as [|w ws], bs as [|b bs]; simpl in Hsh; try contradiction.
    destruct Hsh as (Hrows & Hcols & Hlen & Hsh).
    destruct ws' as [|w' ws']; [inversion Hw|].
    destruct bs' as [|b' bs']; [inversion Hb|].
    unfold same_shapes in Hw. unfold same_shape in Hb.
    apply Forall2_cons_iff in Hw. destruct Hw as [Hw0 Hws].
    apply Forall2_cons_iff in Hb. destruct Hb as [Hb0 Hbs].
    simpl. repeat split.
    + rewrite (same_shape_length Hw0). exact Hrows.
    + eapply same_shape_rows; eassumption.
    + congruence.
    + eapply IH; eassumption.
Qed.

(** For a network of the declared shapes, an input of the input layer's
    size and a label on which the cost derivative returns, [backprop]
    returns gradients of the shapes the structure declares for the weights
    and biases. *)
Theorem backprop_gradient_shapes (self : Network F) (x : vec F) (y : pynum F)
        (cd : vec F) :
  trainable self ->
  length x = input_size self ->
  cost_der self (forward_feed self x) y = Ok cd ->
  exists gw gb,
    backprop self x y = Ok (gw, gb) /\
    layers_shaped (input_size self) (map Z.to_nat (tl (structure self)))
                  gw gb.
Proof.
  intros (Hws & Hact & Hder & Hcost) Hx Hcd.
  destruct (well_shaped_counts Hws) as (Hlen & Hnum & Hpos).
  pose proof (backprop_returns self x y Hlen Hnum Hpos Hcd) as Hbp.
  cbv zeta in Hbp. eexists _, _. split; [exact Hbp|].
  destruct (@backprop_shapes F SF self x y _ _ Hws Hact Hder Hcost Hx Hbp)
    as [Hgw Hgb].
  destruct Hws as (_ & _ & _ & Hsh).
  eapply layers_shaped_same_shape; eassumption.
Qed.

(** An update that returns leaves a trainable network trainable. *)
Lemma update_keeps_trainable (self self' : Network F)
      (mini_batch : dataset F) (learning_rate : F) (u : unit) :
  trainable self -> rows_fit self mini_batch ->
  update_mini_batch mini_batch learning_rate self = Ok (u, self') ->
  trainable self' /\ structure self' = structure self.
Proof.
  intros (Hws & Hact & Hder & Hcost) Hrows Hup.
  destruct mini_batch as [|ex mini_batch];
    [unfold update_mini_batch in Hup; simpl in Hup; discriminate|].
  rewrite update_mini_batch_formula in Hup by discriminate.
  destruct (batch_gradients self (ex :: mini_batch)) as [grads|e] eqn:Hgrads;
    [|discriminate].
  cbn [bind] in Hup. cbv zeta in Hup. inversion Hup; subst; clear Hup.
  destruct (@batch_gradients_shapes F SF self (ex :: mini_batch) grads
              Hws Hact Hder Hcost Hrows Hgrads) as [_ Hshapes].
  assert (Hgw : Forall (fun g => same_shapes (fst g) (weights self)) grads)
    by (eapply Forall_impl; [|exact Hshapes]; intros g [Hg _]; exact Hg).
  assert (Hgb : Forall (fun g => same_shape (snd g) (biases self)) grads)
    by (eapply Forall_impl; [|exact Hshapes]; intros g [_ Hg]; exact Hg).
  destruct (sum_weight_gradients Hgw (zeros_same_shapes (weights self)))
    as [Hsw _].
  destruct (sum_bias_gradients Hgb (zeros_same_shape (biases self)))
    as [Hsb _].
  split; [|reflexivity].
  repeat split; try assumption.
  - apply Hws.
  - apply Hws.
  - apply Hws.
  - destruct Hws as (_ & _ & _ & Hsh). cbn [structure weights biases].
    eapply layers_shaped_same_shape; [exact Hsh| |].
    + apply combine_same_shapes; [apply same_shapes_refl|exact Hsw].
    + apply combine_same_shape; [apply same_shape_refl|exact Hsb].
Qed.

(** [update_mini_batch], when it returns, keeps the invariants of the data
    model: the new weights and biases have the declared shapes, and
    [num_layers], the structure and the three configured functions are the
    ones the object had. *)
Theorem update_mini_batch_keeps_shapes (self self' : Network F)
        (mini_batch : dataset F) (learning_rate : F) :
  trainable self -> rows_fit self mini_batch ->
  update_mini_batch mini_batch learning_rate self = Ok (tt, self') ->
  well_shaped self' /\
  num_layers self' = num_layers self /\
  structure self' = structure self /\
  activate_function self' = activate_function self /\
  activate_derivative self' = activate_derivative self /\
  cost_der self' = cost_der self.
Proof.
  intros Htr Hrows Hup.
  destruct (@update_keeps_trainable self self' mini_batch learning_rate tt
              Htr Hrows Hup) as [(Hws & _) Hst].
  split; [exact Hws|].
  unfold update_mini_batch in Hup. cbv zeta in Hup. bind_ok Hup.
  destruct a as [nw nb]. bind_ok Hup. inversion Hup; subst. repeat split.
Qed.

End ShapeExtras.

(** ** Labels out of range *)

Section LabelExtras.
Context {F : Type} {SF : Scalar F}.




End LabelExtras.

(** ** The training loop, epoch by epoch *)

Section SGDExtras.
Context {F : Type} {SF : Scalar F}.
Variable G : Type.
Variable shuffle : G -> dataset F -> dataset F * G.
Variable py_round : F -> Z -> F.

(** What an epoch that returns has done. *)
Lemma sgd_epoch_inv (num size : Z) (lr : F) (dir : String.string)
      (td : option (dataset F)) (w w' : world F G) (epoch : Z) :
  sgd_epoch shuffle py_round num size lr dir td w epoch = Ok w' ->
  exists bs r j,
    shuffle (rng w) (data w) = (data w', rng w') /\
    mini_batches_of (data w') num size = Ok bs /\
    foldM (fun self mini_batch =>
             '(_, self') <- update_mini_batch mini_batch lr self ;; Ok self')
          bs (net w) = Ok (net w') /\
    trace w' = trace w ++ [LogInfo epoch r j; SaveNetwork (net w') dir].
Proof.
  unfold sgd_epoch. intros Hep.
  destruct (shuffle (rng w) (data w)) as [d' g'].
  bind_ok Hep. rename a into bs. bind_ok Hep. rename a into self.
  rewrite Z.mod_1_r in Hep. cbn [Z.eqb] in Hep.
  destruct td as [td|].
  - bind_ok Hep. destruct a as [ev self2]. bind_ok E1.
    destruct a as [r self1]. bind_ok E1. destruct a as [j self2'].
    inversion E1; subst; clear E1.
    apply evaluate_frame in E2. apply J_average_frame in E3. subst.
    inversion Hep; subst; clear Hep. simpl.
    exists bs, (PyFloat (py_round r 3)), (Some j).
    split; [reflexivity|]. split; [exact E|]. split; [exact E0|reflexivity].
  - simpl in Hep. inversion Hep; subst; clear Hep. simpl.
    exists bs, (PyInt 0), None.
    split; [reflexivity|]. split; [exact E|]. split; [exact E0|reflexivity].
Qed.

(** What a call of [sgd] that returns has done after its epochs. *)
Lemma sgd_inv (size max_epochs : Z) (lr : F) (dir : String.string)
      (td : option (dataset F)) (w w' : world F G) (r : pynum F) :
  sgd shuffle py_round size max_epochs lr dir td w = Ok (r, w') ->
  foldM (sgd_epoch shuffle py_round (Z.of_nat (length (data w))) size lr
                   dir td)
        (map Z.of_nat (seq 0 (Z.to_nat max_epochs))) w = Ok w'.
Proof.
  unfold sgd. intros Hsgd. bind_ok Hsgd. rename a into w1.
  destruct td as [td|].
  - bind_ok Hsgd. destruct a as [v self]. inversion Hsgd; subst.
    apply evaluate_frame in E0. subst. destruct w1; reflexivity.
  - inversion Hsgd; subst. reflexivity.
Qed.

Lemma in_py_slice (d : dataset F) (lo hi : Z) (ex : example F) :
  In ex (py_slice d lo hi) -> In ex d.
Proof.
  unfold py_slice. intros Hin.
  set (a := slice_bound (length d) lo) in *.
  set (b := slice_bound (length d) hi - a) in *.
  rewrite <- (firstn_skipn a d). apply in_or_app. right.
  rewrite <- (firstn_skipn b (skipn a d)). apply in_or_app. left. exact Hin.
Qed.

Lemma in_mini_batches (d : dataset F) (num size : Z)
      (bs : list (dataset F)) (b : dataset F) (ex : example F) :
  mini_batches_of d num size = Ok bs -> In b bs -> In ex b -> In ex d.
Proof.
  unfold mini_batches_of. intros Hbs Hb Hex. bind_ok Hbs.
  inversion Hbs; subst. apply in_map_iff in Hb.
  destruct Hb as (k & <- & _). eapply in_py_slice. exact Hex.
Qed.

(** The updates of an epoch keep a trainable network trainable. *)
Lemma updates_keep_trainable (lr : F) (bs : list (dataset F))
      (self self' : Network F) :
  trainable self ->
  (forall b, In b bs -> rows_fit self b) ->
  foldM (fun self mini_batch =>
           '(_, self') <- update_mini_batch mini_batch lr self ;; Ok self')
        bs self = Ok self' ->
  trainable self' /\ structure self' = structure self.
Proof.
  revert self. induction bs as [|b bs IH]; intros self Htr Hrows Hrun.
  - simpl in Hrun. inversion Hrun; subst. split; [exact Htr|reflexivity].
  - simpl in Hrun. bind_ok Hrun. rename a into self1.
    bind_ok E. destruct a as [u self1']. inversion E; subst.
    destruct (@update_keeps_trainable F SF self self1 b lr u Htr
                (Hrows b (or_introl eq_refl)) E0) as [Htr1 Hst1].
    destruct (IH self1 Htr1) as [Htr' Hst'].
    + intros b' Hb' ex Hex. unfold input_size. rewrite Hst1.
      apply (Hrows b'); [now right|exact Hex].
    + exact Hrun.
    + split; [exact Htr'|congruence].
Qed.

Lemma sgd_epochs_keep_trainable (num size : Z) (lr : F) (dir : String.string)
      (td : option (dataset F)) (epochs : list Z) (w w' : world F G) :
  (forall g d, Permutation d (fst (shuffle g d))) ->
  trainable (net w) -> rows_fit (net w) (data w) ->
  foldM (sgd_epoch shuffle py_round num size lr dir td) epochs w = Ok w' ->
  trainable (net w') /\ rows_fit (net w') (data w') /\
  structure (net w') = structure (net w).
Proof.
  intros Hperm. revert w.
  induction epochs as [|e epochs IH]; intros w Htr Hrows Hrun.
  - simpl in Hrun. inversion Hrun; subst.
    split; [exact Htr|]. split; [exact Hrows|reflexivity].
  - simpl in Hrun. bind_ok Hrun. rename a into w1.
    destruct (sgd_epoch_inv _ _ _ _ _ _ _ E)
      as (bs & r & j & Hsh & Hbs & Hup & _).
    assert (Hrows1 : rows_fit (net w) (data w1)).
    { intros ex Hex. apply Hrows.
      apply (Permutation_in ex (Permutation_sym (Hperm (rng w) (data w)))).
      rewrite Hsh. exact Hex. }
    destruct (@updates_keep_trainable lr bs (net w) (net w1) Htr)
      as [Htr1 Hst1]; [|exact Hup|].
    { intros b Hb ex Hex. apply Hrows1.
      eapply in_mini_batches; eassumption. }
    destruct (IH w1 Htr1) as (Htr' & Hrows' & Hst'); [|exact Hrun|].
    { intros ex Hex. unfold input_size. rewrite Hst1. apply Hrows1. exact Hex. }
    split; [exact Htr'|]. split; [exact Hrows'|congruence].
Qed.

(** Training keeps the invariants of the data model: when [sgd] returns,
    on data whose rows fit the input layer and with a shuffle that permutes
    the rows, the trained network has the declared shapes, the same
    structure, and the data still fits it. *)
Theorem sgd_keeps_trainable (size max_epochs : Z) (lr : F)
        (dir : String.string) (td : option (dataset F)) (w w' : world F G)
        (r : pynum F) :
  (forall g d, Permutation d (fst (shuffle g d))) ->
  trainable (net w) -> rows_fit (net w) (data w) ->
  sgd shuffle py_round size max_epochs lr dir td w = Ok (r, w') ->
  trainable (net w') /\ rows_fit (net w') (data w') /\
  structure (net w') = structure (net w).
Proof.
  intros Hperm Htr Hrows Hsgd. apply sgd_inv in Hsgd.
  eapply sgd_epochs_keep_trainable; eassumption.
Qed.

Lemma sgd_epochs_permute (num size : Z) (lr : F) (dir : String.string)
      (td : option (dataset F)) (epochs : list Z) (w w' : world F G) :
  (forall g d, Permutation d (fst (shuffle g d))) ->
  foldM (sgd_epoch shuffle py_round num size lr dir td) epochs w = Ok w' ->
  Permutation (data w) (data w').
Proof.
  intros Hperm. revert w.
  induction epochs as [|e epochs IH]; intros w Hrun.
  - simpl in Hrun. inversion Hrun; subst. apply Permutation_refl.
  - simpl in Hrun. bind_ok Hrun. rename a into w1.
    destruct (sgd_epoch_inv _ _ _ _ _ _ _ E) as (bs & r & j & Hsh & _).
    pose proof (Hperm (rng w) (data w)) as Hp. rewrite Hsh in Hp.
    eapply Permutation_trans; [exact Hp|]. apply IH. exact Hrun.
Qed.

(** [sgd] changes the caller's data only by shuffling it: with a shuffle
    that permutes the rows, the data after a call that returns is a
    permutation of the data before: no row is created, lost or duplicated. *)
Theorem sgd_permutes_data (size max_epochs : Z) (lr : F)
        (dir : String.string) (td : option (dataset F)) (w w' : world F G)
        (r : pynum F) :
  (forall g d, Permutation d (fst (shuffle g d))) ->
  sgd shuffle py_round size max_epochs lr dir td w = Ok (r, w') ->
  Permutation (data w) (data w').
Proof.
  intros Hperm Hsgd. apply sgd_inv in Hsgd.
  eapply sgd_epochs_permute; eassumption.
Qed.

End SGDExtras.

Section SGDEffects.
Context {F : Type} {SF : Scalar F}.
Variable G : Type.
Variable shuffle : G -> dataset F -> dataset F * G.
Variable py_round : F -> Z -> F.

Lemma sgd_epochs_trace (num size : Z) (lr : F) (dir : String.string)
      (td : option (dataset F)) (epochs : list Z) (w w' : world F G) :
  foldM (sgd_epoch shuffle py_round num size lr dir td) epochs w = Ok w' ->
  exists events,
    trace w' = trace w ++ events /\
    length events = 2 * length epochs /\
    (epochs <> [] ->
     exists earlier r j,
       events = earlier ++ [LogInfo (last epochs 0%Z) r j;
                            SaveNetwork (net w') dir]).
Proof.
  revert w. induction epochs as [|e epochs IH]; intros w Hrun.
  - simpl in Hrun. inversion Hrun; subst. exists [].
    split; [symmetry; apply app_nil_r|]. split; [reflexivity|congruence].
  - simpl in Hrun. bind_ok Hrun. rename a into w1.
    pose proof E as Einv. apply sgd_epoch_inv in Einv.
    destruct Einv as (bs & r & j & _ & _ & _ & Htr).
    destruct (IH w1 Hrun) as (events & Hev & Hlen & Hlast).
    exists ([LogInfo e r j; SaveNetwork (net w1) dir] ++ events).
    split; [rewrite Hev, Htr, <- app_assoc; reflexivity|].
    split; [rewrite length_app, Hlen; simpl; lia|].
    intros _. destruct epochs as [|e' epochs].
    + simpl in Hrun. inversion Hrun; subst.
      destruct events; [|simpl in Hlen; discriminate].
      exists [], r, j. reflexivity.
    + destruct Hlast as (earlier & r' & j' & Hevents); [discriminate|].
      exists ([LogInfo e r j; SaveNetwork (net w1) dir] ++ earlier), r', j'.
      rewrite Hevents, <- app_assoc. reflexivity.
Qed.

(** A call of [sgd] that returns has kept the events emitted before it and
    added two per epoch, a log record and then a checkpoint; after at least
    one epoch the last two are the log record of the last epoch and the
    checkpoint of the very network the call leaves behind. *)
Theorem sgd_logs_and_saves_each_epoch (size max_epochs : Z) (lr : F)
        (dir : String.string) (td : option (dataset F)) (w w' : world F G)
        (r : pynum F) :
  sgd shuffle py_round size max_epochs lr dir td w = Ok (r, w') ->
  exists events,
    trace w' = trace w ++ events /\
    length events = 2 * Z.to_nat max_epochs /\
    ((0 < max_epochs)%Z ->
     exists earlier s j,
       events = earlier ++ [LogInfo (max_epochs - 1) s j;
                            SaveNetwork (net w') dir]).
Proof.
  intros Hsgd. apply sgd_inv in Hsgd.
  apply sgd_epochs_trace in Hsgd.
  destruct Hsgd as (events & Hev & Hlen & Hlast).
  exists events. split; [exact Hev|].
  split; [rewrite Hlen, length_map, length_seq; reflexivity|].
  intros Hpos.
  destruct (Z.to_nat max_epochs) as [|n] eqn:En; [lia|].
  assert (Hl : last (map Z.of_nat (seq 0 (S n))) 0%Z = (max_epochs - 1)%Z).
  { rewrite seq_S, map_app. simpl. rewrite last_last. lia. }
  destruct Hlast as (earlier & s & j & Hevents); [discriminate|].
  exists earlier, s, j. rewrite Hevents, Hl. reflexivity.
Qed.

Lemma no_batches_no_update (num size : Z) (lr : F) (dir : String.string)
      (td : option (dataset F)) (epochs : list Z) (w w' : world F G) :
  (forall d : dataset F, mini_batches_of d num size = Ok []) ->
  foldM (sgd_epoch shuffle py_round num size lr dir td) epochs w = Ok w' ->
  net w' = net w.
Proof.
  intros Hnone. revert w. induction epochs as [|e epochs IH]; intros w Hrun.
  - simpl in Hrun. now inversion Hrun.
  - simpl in Hrun. bind_ok Hrun. rename a into w1.
    pose proof E as Einv. apply sgd_epoch_inv in Einv.
    destruct Einv as (bs & r & j & _ & Hbs & Hup & _).
    rewrite Hnone in Hbs. inversion Hbs; subst. simpl in Hup.
    inversion Hup. rewrite (IH w1 Hrun). congruence.
Qed.

Lemma no_batches_epochs_return (num size : Z) (lr : F) (dir : String.string)
      (epochs : list Z) (w : world F G) :
  (forall d : dataset F, mini_batches_of d num size = Ok []) ->
  exists w',
    foldM (sgd_epoch shuffle py_round num size lr dir None) epochs w = Ok w'.
Proof.
  intros Hnone. revert w. induction epochs as [|e epochs IH]; intros w.
  - exists w. reflexivity.
  - simpl. unfold sgd_epoch at 1.
    destruct (shuffle (rng w) (data w)) as [d' g'].
    rewrite Hnone. cbn [bind foldM]. apply IH.
Qed.

Lemma range_empty (num size : Z) (d : dataset F) :
  (0 <= num)%Z -> (num = 0 \/ size < 0)%Z -> (size <> 0)%Z ->
  mini_batches_of d num size = Ok [].
Proof.
  intros Hnum Hcase Hsize. unfold mini_batches_of, py_range.
  destruct (size =? 0)%Z eqn:E; [apply Z.eqb_eq in E; lia|].
  assert (Hlen : range_len 0 num size = 0).
  { unfold range_len.
    destruct (0 <? size)%Z eqn:E1; destruct (0 <? num)%Z eqn:E2;
      destruct (num <? 0)%Z eqn:E3; try reflexivity;
      rewrite ?Z.ltb_lt, ?Z.ltb_ge in *; lia. }
  rewrite Hlen. reflexivity.
Qed.

(** With no rows in [data], or with a negative [mini_batch_size], the
    range of slice starts is empty: every epoch shuffles, logs and saves,
    but no update runs.  A call of [sgd] that returns leaves the network as
    it was, and without test data the call does return, with the int 0. *)
Theorem sgd_without_batches (size max_epochs : Z) (lr : F)
        (dir : String.string) (w : world F G) :
  (data w = [] \/ size < 0)%Z -> (size <> 0)%Z ->
  (forall td r w',
      sgd shuffle py_round size max_epochs lr dir td w = Ok (r, w') ->
      net w' = net w) /\
  exists w',
    sgd shuffle py_round size max_epochs lr dir None w = Ok (PyInt 0, w') /\
    net w' = net w.
Proof.
  intros Hcase Hsize.
  assert (Hnone : forall d : dataset F,
             mini_batches_of d (Z.of_nat (length (data w))) size = Ok []).
  { intros d. apply range_empty; [lia| |exact Hsize].
    destruct Hcase as [-> |]; [now left|now right]. }
  split.
  - intros td r w' Hsgd. apply sgd_inv in Hsgd.
    eapply no_batches_no_update; eassumption.
  - destruct (@no_batches_epochs_return _ size lr dir
                (map Z.of_nat (seq 0 (Z.to_nat max_epochs))) w Hnone)
      as (w' & Hrun).
    exists w'. split.
    + unfold sgd. rewrite Hrun. reflexivity.
    + eapply no_batches_no_update; eassumption.
Qed.

(** With [mini_batch_size = 0] the first epoch raises [ValueError] (a
    [range] with step zero) before any update, whatever the data. *)
Theorem sgd_zero_batch_size (max_epochs : Z) (lr : F) (dir : String.string)
        (td : option (dataset F)) (w : world F G) :
  (0 < max_epochs)%Z ->
  sgd shuffle py_round 0 max_epochs lr dir td w = Raise ValueError.
Proof.
  intros Hpos. unfold sgd.
  destruct (Z.to_nat max_epochs) as [|n] eqn:En; [lia|].
  cbn [seq map foldM]. unfold sgd_epoch at 1.
  destruct (shuffle (rng w) (data w)) as [d' g']. reflexivity.
Qed.

End SGDEffects.

(** ** The slices of an epoch *)

Section SliceExtras.
Context {F : Type} {SF : Scalar F}.

Lemma firstn_app_skipn {A : Type} (a b : nat) (l : list A) :
  firstn a l ++ firstn b (skipn a l) = firstn (a + b) l.
Proof.
  revert l. induction a as [|a IH]; intros l; [reflexivity|].
  destruct l as [|x l]; simpl; [now rewrite firstn_nil|].
  f_equal. apply IH.
Qed.

(** A slice [d[k : k + s]] with [k >= 0] and [s >= 1] holds the (at most)
    [s] rows that follow the first [k]. *)
Lemma py_slice_chunk {A : Type} (d : list A) (k s : Z) :
  (0 <= k)%Z -> (1 <= s)%Z ->
  py_slice d k (k + s) = firstn (Z.to_nat s) (skipn (Z.to_nat k) d).
Proof.
  intros Hk Hs. unfold py_slice, slice_bound.
  replace (k <? 0)%Z with false by (symmetry; apply Z.ltb_ge; lia).
  replace (k + s <? 0)%Z with false by (symmetry; apply Z.ltb_ge; lia).
  destruct (Nat.le_gt_cases (Z.to_nat k) (length d)) as [Hin|Hout].
  - rewrite (Nat.min_l (Z.to_nat k)) by exact Hin.
    destruct (Nat.le_gt_cases (Z.to_nat (k + s)) (length d)) as [Hin'|Hout'].
    + rewrite Nat.min_l by exact Hin'. f_equal. lia.
    + rewrite Nat.min_r by lia.
      rewrite !firstn_all2; try reflexivity; rewrite length_skipn; lia.
  - rewrite (Nat.min_r (Z.to_nat k)) by lia.
    rewrite skipn_all, (skipn_all2 d) by lia. now rewrite !firstn_nil.
Qed.

Lemma concat_chunks {A : Type} (d : list A) (s m : nat) :
  concat (map (fun i => firstn s (skipn (i * s) d)) (seq 0 m))
  = firstn (m * s) d.
Proof.
  induction m as [|m IH]; [reflexivity|].
  rewrite seq_S, map_app, concat_app, IH. simpl.
  rewrite app_nil_r, firstn_app_skipn. f_equal. lia.
Qed.

Lemma range_len_bounds (n : nat) (s : Z) :
  (1 <= s)%Z ->
  let m := range_len 0 (Z.of_nat n) s in
  (n = 0 -> m = 0) /\
  (1 <= n -> 1 <= m /\ (m - 1) * Z.to_nat s < n /\ n <= m * Z.to_nat s).
Proof.
  intros Hs m. subst m. unfold range_len.
  replace (0 <? s)%Z with true by (symmetry; apply Z.ltb_lt; lia).
  split.
  - intros ->. reflexivity.
  - intros Hn.
    replace (0 <? Z.of_nat n)%Z with true
      by (symmetry; apply Z.ltb_lt; lia).
    set (q := ((Z.of_nat n - 0 - 1) / s)%Z).
    assert (Hq0 : (0 <= q)%Z) by (apply Z.div_pos; lia).
    assert (Hq1 : (s * q <= Z.of_nat n - 0 - 1)%Z)
      by (apply Z.mul_div_le; lia).
    assert (Hq2 : (Z.of_nat n - 0 - 1 < s * Z.succ q)%Z)
      by (apply Z.mul_succ_div_gt; lia).
    assert (Hm : Z.of_nat (Z.to_nat (q + 1)) = (q + 1)%Z) by lia.
    assert (Hs' : Z.of_nat (Z.to_nat s) = s) by lia.
    split; [lia|]. split.
    + apply Nat2Z.inj_lt. rewrite Nat2Z.inj_mul, Hs'.
      rewrite Nat2Z.inj_sub by lia. rewrite Hm. nia.
    + apply Nat2Z.inj_le. rewrite Nat2Z.inj_mul, Hs', Hm. nia.
Qed.

(** The slices of one epoch split the data in order: for
    [mini_batch_size >= 1] their concatenation is the data itself, every
    slice has between 1 and [mini_batch_size] rows, and every slice but the
    last has exactly [mini_batch_size] rows. *)
Theorem mini_batches_partition (d : dataset F) (size : Z) :
  (1 <= size)%Z ->
  exists bs,
    mini_batches_of d (Z.of_nat (length d)) size = Ok bs /\
    concat bs = d /\
    Forall (fun b => 1 <= length b <= Z.to_nat size) bs /\
    (forall i, S i < length bs -> length (nth i bs []) = Z.to_nat size).
Proof.
  intros Hs.
  set (n := length d). set (s := Z.to_nat size).
  set (m := range_len 0 (Z.of_nat n) size).
  destruct (range_len_bounds n Hs) as [Hzero Hpos]. fold m s in Hzero, Hpos.
  set (chunk := fun i => firstn s (skipn (i * s) d)).
  assert (Hbs : mini_batches_of d (Z.of_nat n) size
                = Ok (map chunk (seq 0 m))).
  { unfold mini_batches_of, py_range.
    destruct (size =? 0)%Z eqn:E; [apply Z.eqb_eq in E; lia|].
    cbn [bind]. fold m. rewrite map_map. f_equal.
    apply map_ext. intros i. rewrite py_slice_chunk by lia.
    unfold chunk, s. do 2 f_equal. lia. }
  assert (Hchunk : forall i, i < m ->
             length (chunk i) = Nat.min s (n - i * s)).
  { intros i Hi. unfold chunk. rewrite length_firstn, length_skipn.
    reflexivity. }
  exists (map chunk (seq 0 m)). split; [exact Hbs|]. split; [|split].
  - unfold chunk. rewrite concat_chunks.
    apply firstn_all2. fold n.
    destruct (Nat.eq_dec n 0) as [->|Hn]; [lia|].
    destruct Hpos as (_ & _ & Hcover); lia.
  - apply Forall_forall. intros b Hb. apply in_map_iff in Hb.
    destruct Hb as (i & <- & Hi). apply in_seq in Hi.
    rewrite Hchunk by lia.
    destruct (Nat.eq_dec n 0) as [Hn|Hn]; [specialize (Hzero Hn); lia|].
    destruct Hpos as (Hm & Hlast & _); [lia|].
    assert (i * s <= (m - 1) * s) by (apply Nat.mul_le_mono_r; lia).
    unfold s in *. lia.
  - intros i Hi. rewrite length_map, length_seq in Hi.
    rewrite (nth_indep _ [] (chunk 0)) by (rewrite length_map, length_seq; lia).
    rewrite map_nth, seq_nth by lia. simpl "+".
    rewrite Hchunk by lia.
    destruct (Nat.eq_dec n 0) as [Hn|Hn]; [specialize (Hzero Hn); lia|].
    destruct Hpos as (Hm & Hlast & _); [lia|].
    assert ((S i) * s <= (m - 1) * s) by (apply Nat.mul_le_mono_r; lia).
    simpl in H. lia.
Qed.

End SliceExtras.

(** ** Random initialisation *)

Section InitExtras.
Context {F : Type} {SF : Scalar F}.
Variable G : Type.
Variable next_normal : G -> F * G.

Lemma draw_length (n : nat) (g : G) :
  length (fst (draw next_normal n g)) = n.
Proof.
  revert g. induction n as [|n IH]; intros g; [reflexivity|].
  simpl. destruct (next_normal g) as [a g1].
  specialize (IH g1). destruct (draw next_normal n g1) as [v g2].
  simpl in *. f_equal. exact IH.
Qed.

Lemma draw_rows_shape (r c : nat) (g : G) :
  length (fst (draw_rows next_normal r c g)) = r /\
  Forall (fun row => length row = c) (fst (draw_rows next_normal r c g)).
Proof.
  revert g. induction r as [|r IH]; intros g; [split; [reflexivity|constructor]|].
  simpl. pose proof (draw_length c g) as Hv.
  destruct (draw next_normal c g) as [v g1].
  specialize (IH g1). destruct (draw_rows next_normal r c g1) as [m g2].
  simpl in *. destruct IH as [Hlen Hrows].
  split; [f_equal; exact Hlen|constructor; assumption].
Qed.

(** The dimensions the structure [st] declares for the transition into
    layer [layer]. *)
Let weight_fits (st : list Z) (w : matrix F) (layer : Z) : Prop :=
  length w = Z.to_nat (nth (Z.to_nat layer) st 0%Z) /\
  Forall (fun row => length row = Z.to_nat (nth (Z.to_nat (layer - 1)) st 0%Z))
         w.

Let bias_fits (st : list Z) (b : vec F) (layer : Z) : Prop :=
  length b = Z.to_nat (nth (Z.to_nat layer) st 0%Z).

Lemma random_weights_fit (st : list Z) (layers : list Z)
      (acc acc' : list (matrix F)) (g g' : G) :
  Forall (fun layer => (1 <= layer < Z.of_nat (length st))%Z) layers ->
  foldM (fun '(acc, g) layer =>
           r <- py_get st layer ;;
           c <- py_get st (layer - 1) ;;
           '(w, g') <- randn2 next_normal r c g ;;
           Ok (acc ++ [w], g'))
        layers (acc, g) = Ok (acc', g') ->
  exists ws, acc' = acc ++ ws /\ Forall2 (weight_fits st) ws layers.
Proof.
  intros Hlayers. revert acc g.
  induction Hlayers as [|layer layers Hlayer _ IH]; intros acc g Hrun.
  - simpl in Hrun. inversion Hrun; subst. exists [].
    split; [symmetry; apply app_nil_r|constructor].
  - simpl in Hrun.
    rewrite (py_get_front st (i := layer) 0%Z) in Hrun by lia.
    rewrite (py_get_front st (i := layer - 1) 0%Z) in Hrun by lia.
    cbn [bind] in Hrun. unfold randn2 in Hrun.
    destruct ((nth (Z.to_nat layer) st 0 <? 0)
              || (nth (Z.to_nat (layer - 1)) st 0 <? 0))%Z;
      [discriminate|].
    cbn [bind] in Hrun.
    pose proof (draw_rows_shape (Z.to_nat (nth (Z.to_nat layer) st 0%Z))
                  (Z.to_nat (nth (Z.to_nat (layer - 1)) st 0%Z)) g) as Hw.
    destruct (draw_rows next_normal _ _ g) as [w g1]. simpl in Hw, Hrun.
    destruct (IH _ _ Hrun) as (ws & -> & Hfit).
    exists (w :: ws). split; [rewrite <- app_assoc; reflexivity|].
    constructor; [exact Hw|exact Hfit].
Qed.

Lemma random_biases_fit (st : list Z) (layers : list Z)
      (acc acc' : list (vec F)) (g g' : G) :
  Forall (fun layer => (1 <= layer < Z.of_nat (length st))%Z) layers ->
  foldM (fun '(acc, g) layer =>
           r <- py_get st layer ;;
           '(b, g') <- randn next_normal r g ;;
           Ok (acc ++ [b], g'))
        layers (acc, g) = Ok (acc', g') ->
  exists bs, acc' = acc ++ bs /\ Forall2 (bias_fits st) bs layers.
Proof.
  intros Hlayers. revert acc g.
  induction Hlayers as [|layer layers Hlayer _ IH]; intros acc g Hrun.
  - simpl in Hrun. inversion Hrun; subst. exists [].
    split; [symmetry; apply app_nil_r|constructor].
  - simpl in Hrun.
    rewrite (py_get_front st (i := layer) 0%Z) in Hrun by lia.
    cbn [bind] in Hrun. unfold randn in Hrun.
    destruct (nth (Z.to_nat layer) st 0 <? 0)%Z; [discriminate|].
    cbn [bind] in Hrun.
    pose proof (draw_length (Z.to_nat (nth (Z.to_nat layer) st 0%Z)) g) as Hb.
    destruct (draw next_normal _ g) as [b g1]. simpl in Hb, Hrun.
    destruct (IH _ _ Hrun) as (bs & -> & Hfit).
    exists (b :: bs). split; [rewrite <- app_assoc; reflexivity|].
    constructor; [exact Hb|exact Hfit].
Qed.

Lemma fits_layers_shaped (outs prefix : list Z) (n0 : Z)
      (ws : list (matrix F)) (bs : list (vec F)) :
  let st := prefix ++ n0 :: outs in
  let layers := map Z.of_nat (seq (S (length prefix)) (length outs)) in
  Forall2 (weight_fits st) ws layers ->
  Forall2 (bias_fits st) bs layers ->
  layers_shaped (Z.to_nat n0) (map Z.to_nat outs) ws bs.
Proof.
  revert prefix n0 ws bs.
  induction outs as [|n1 outs IH]; intros prefix n0 ws bs st layers Hw Hb.
  - inversion Hw; inversion Hb; subst. exact I.
  - unfold layers in Hw, Hb. cbn [length seq map] in Hw, Hb.
    inversion Hw as [|w ? ws' ? Hw0 Hws]; subst.
    inversion Hb as [|b ? bs' ? Hb0 Hbs]; subst.
    destruct Hw0 as [Hrows Hcols]. unfold bias_fits in Hb0.
    change (Z.pos (Pos.of_succ_nat (length prefix)))
      with (Z.of_nat (S (length prefix))) in Hrows, Hcols, Hb0.
    rewrite Nat2Z.id in Hrows, Hb0.
    replace (Z.to_nat (Z.of_nat (S (length prefix)) - 1))
      with (length prefix) in Hcols by lia.
    unfold st in Hrows, Hcols, Hb0.
    rewrite app_nth2 in Hrows, Hcols, Hb0 by lia.
    replace (S (length prefix) - length prefix) with 1 in Hrows, Hb0 by lia.
    rewrite Nat.sub_diag in Hcols. simpl in Hrows, Hcols, Hb0.
    simpl. repeat split; try assumption.
    apply (IH (prefix ++ [n0]) n1).
    + rewrite <- app_assoc, length_app. simpl.
      replace (length prefix + 1) with (S (length prefix)) by lia.
      exact Hws.
    + rewrite <- app_assoc, length_app. simpl.
      replace (length prefix + 1) with (S (length prefix)) by lia.
      exact Hbs.
Qed.

(** Random initialisation builds a network that satisfies the invariants of
    the data model: for a structure of at least two layers with positive
    sizes, when the constructor returns with neither weights nor biases
    supplied, the object has one weight matrix and one bias vector per layer
    transition, of the shapes the structure declares. *)
Theorem init_random_well_shaped (st : list Z)
        (act act_der : vec F -> vec F)
        (cd : vec F -> pynum F -> result (vec F)) (g g' : G)
        (self : Network F) :
  2 <= length st ->
  Forall (fun n => (0 < n)%Z) st ->
  Network_init next_normal st None None act act_der cd g = Ok (self, g') ->
  well_shaped self /\
  length (weights self) = length st - 1 /\
  length (biases self) = length st - 1.
Proof.
  intros Htwo Hpos Hinit. unfold Network_init in Hinit.
  bind_ok Hinit. destruct a as [ws g1]. bind_ok Hinit. destruct a as [bs g2].
  inversion Hinit; subst; clear Hinit.
  unfold random_weights in E. unfold random_biases in E0.
  destruct (random_weights_fit _ _ _ (layer_range_bounds (length st)) E)
    as (ws' & Hws & Hwfit).
  destruct (random_biases_fit _ _ _ (layer_range_bounds (length st)) E0)
    as (bs' & Hbs & Hbfit).
  simpl in Hws, Hbs. subst ws' bs'.
  assert (Hshaped : layers_shaped (Z.to_nat (hd 0%Z st))
                                  (map Z.to_nat (tl st)) ws bs).
  { destruct st as [|n0 outs]; [simpl in Htwo; lia|].
    apply (fits_layers_shaped outs [] n0); simpl.
    - unfold layer_range in Hwfit. simpl in Hwfit.
      rewrite Nat.sub_0_r in Hwfit. exact Hwfit.
    - unfold layer_range in Hbfit. simpl in Hbfit.
      rewrite Nat.sub_0_r in Hbfit. exact Hbfit. }
  split.
  - unfold well_shaped. cbn [num_layers structure weights biases].
    repeat split; assumption.
  - cbn [weights biases].
    apply layers_shaped_lengths in Hshaped. rewrite length_map in Hshaped.
    destruct st; simpl in *; lia.
Qed.

Lemma random_weights_reject (st : list Z) (layers : list Z)
      (acc : list (matrix F)) (g : G) :
  Forall (fun layer => (1 <= layer < Z.of_nat (length st))%Z) layers ->
  (exists layer, In layer layers /\
                 (nth (Z.to_nat layer) st 0 < 0 \/
                  nth (Z.to_nat (layer - 1)) st 0 < 0)%Z) ->
  foldM (fun '(acc, g) layer =>
           r <- py_get st layer ;;
           c <- py_get st (layer - 1) ;;
           '(w, g') <- randn2 next_normal r c g ;;
           Ok (acc ++ [w], g'))
        layers (acc, g) = Raise ValueError.
Proof.
  intros Hlayers. revert acc g.
  induction Hlayers as [|layer layers Hlayer _ IH]; intros acc g
    (bad & Hin & Hbad); [contradiction|].
  simpl.
  rewrite (py_get_front st (i := layer) 0%Z) by lia.
  rewrite (py_get_front st (i := layer - 1) 0%Z) by lia.
  cbn [bind]. unfold randn2.
  destruct ((nth (Z.to_nat layer) st 0 <? 0)
            || (nth (Z.to_nat (layer - 1)) st 0 <? 0))%Z eqn:E;
    [reflexivity|].
  cbn [bind]. destruct (draw_rows next_normal _ _ g) as [w g1]. simpl.
  apply IH. exists bad. split; [|exact Hbad].
  destruct Hin as [<-|Hin]; [|exact Hin].
  apply orb_false_iff in E. destruct E as [E1 E2].
  apply Z.ltb_ge in E1, E2. lia.
Qed.

(** When the weights are to be drawn at random and the structure has at
    least two layers, one negative layer size makes the constructor raise
    [ValueError]: the only rejection a structure can meet. *)
Theorem init_negative_size_rejected (st : list Z)
        (bs : option (list (vec F))) (act act_der : vec F -> vec F)
        (cd : vec F -> pynum F -> result (vec F)) (g : G) :
  2 <= length st ->
  (exists n, In n st /\ (n < 0)%Z) ->
  Network_init next_normal st None bs act act_der cd g = Raise ValueError.
Proof.
  intros Htwo (n & Hin & Hneg).
  unfold Network_init, random_weights.
  rewrite random_weights_reject;
    [reflexivity|apply layer_range_bounds|].
  destruct (In_nth st n 0%Z Hin) as (j & Hj & Hnth).
  destruct j as [|j].
  - exists 1%Z. split.
    + unfold layer_range. apply in_map_iff. exists 1. split; [reflexivity|].
      apply in_seq. lia.
    + right. simpl. rewrite Hnth. exact Hneg.
  - exists (Z.of_nat (S j)). split.
    + unfold layer_range. apply in_map_iff. exists (S j).
      split; [reflexivity|]. apply in_seq. lia.
    + left. rewrite Nat2Z.id, Hnth. exact Hneg.
Qed.

End InitExtras.

(** ** Over the reals: the activation, the cost and the metrics *)

Lemma sigmoid_entry_bounds (a : R) :
  (0 < 1 / (1 + exp (- a)) < 1)%R.
Proof.
  pose proof (exp_pos (- a)) as He.
  assert (Hd : (0 < 1 + exp (- a))%R) by lra.
  split.
  - apply Rdiv_lt_0_compat; lra.
  - apply (Rmult_lt_reg_r (1 + exp (- a))); [exact Hd|].
    unfold Rdiv. rewrite Rmult_assoc, Rinv_l by lra. lra.
Qed.

(** [sigmoid] keeps the length of its argument, and no entry of
    [sigmoid x] is below 0 or above 1.  (The bounds are included: rounded
    to binary64 the quotient is exactly 1 for a large argument and exactly
    0 for a large negative one.) *)
Theorem sigmoid_between_0_and_1 (x : vec R) :
  length (sigmoid x) = length x /\
  Forall (fun s => (0 <= s <= 1)%R) (sigmoid x).
Proof.
  split; [apply length_map|].
  unfold sigmoid. apply Forall_forall. intros s Hs.
  apply in_map_iff in Hs. destruct Hs as (a & <- & _).
  pose proof (sigmoid_entry_bounds a) as Hb. simpl. lra.
Qed.

Lemma sigmoid_derivative_entrywise (x : vec R) :
  sigmoid_derivative x
  = map (fun a => (1 / (1 + exp (- a)) * (1 - 1 / (1 + exp (- a))))%R) x.
Proof.
  unfold sigmoid_derivative, sigmoid, vmul.
  induction x as [|a x IH]; [reflexivity|].
  simpl. f_equal. exact IH.
Qed.

(** [sigmoid_derivative] keeps the length of its argument, and every
    entry of [sigmoid_derivative x] is [s * (1 - s)] for the sigmoid [s] of
    the corresponding entry of [x]: not below 0 and not above 1/4.  (The
    lower bound is included: rounded to binary64 the product is exactly 0
    for a large argument.) *)
Theorem sigmoid_derivative_bounds (x : vec R) :
  length (sigmoid_derivative x) = length x /\
  Forall (fun d => (0 <= d <= 1 / 4)%R) (sigmoid_derivative x).
Proof.
  rewrite sigmoid_derivative_entrywise.
  split; [apply length_map|].
  apply Forall_forall. intros d Hd.
  apply in_map_iff in Hd. destruct Hd as (a & <- & _).
  pose proof (sigmoid_entry_bounds a) as Hs.
  set (s := (1 / (1 + exp (- a)))%R) in *. clearbody s.
  pose proof (Rle_0_sqr (s - 1 / 2)) as Hsq. unfold Rsqr in Hsq.
  assert (Hpos : (0 < s * (1 - s))%R) by (apply Rmult_lt_0_compat; lra).
  split; lra.
Qed.

Lemma sum_of_squares (l : list R) (acc : R) :
  (acc <= fold_left Rplus (map (fun d => (d * d)%R) l) acc)%R /\
  (fold_left Rplus (map (fun d => (d * d)%R) l) acc = acc ->
   Forall (fun d => d = 0%R) l).
Proof.
  revert acc. induction l as [|d l IH]; intros acc.
  - split; [simpl; lra|constructor].
  - simpl. destruct (IH (acc + d * d)%R) as [Hle Hzero].
    assert (Hd : (0 <= d * d)%R) by nra.
    split; [lra|].
    intros Heq.
    assert (Hdd : (d * d = 0)%R) by lra.
    constructor; [nra|]. apply Hzero. lra.
Qed.

Lemma sum_of_zero_squares (l : list R) (acc : R) :
  Forall (fun d => d = 0%R) l ->
  fold_left Rplus (map (fun d => (d * d)%R) l) acc = acc.
Proof.
  intros Hall. revert acc. induction Hall as [|d l Hd _ IH]; intros acc;
    [reflexivity|].
  simpl. rewrite IH. subst d. lra.
Qed.

Lemma cost_function_nonneg (a : vec R) (i : pynum R) (c : R) :
  cost_function a i = Ok c -> (0 <= c)%R.
Proof.
  rewrite cost_function_of_one_hot. intros Hc. bind_ok Hc.
  inversion Hc; subst. unfold quadratic, np_sum.
  pose proof (proj1 (sum_of_squares (vsub a a0) 0%R)) as Hsum.
  change (of_Z 0) with 0%R. change fhalf with (1 / 2)%R.
  change fadd with Rplus. change fmul with Rmult.
  change (fun a1 : R => (a1 * a1)%R) with (fun d : R => (d * d)%R).
  nra.
Qed.

(** The quadratic cost is never negative, and it is zero when the cost
    derivative (output minus target vector) is zero in every entry. *)
Theorem cost_function_zero_at_target (a : vec R) (i : pynum R) (c : R)
        (cd : vec R) :
  cost_function a i = Ok c ->
  cost_derivative a i = Ok cd ->
  (0 <= c)%R /\ (Forall (fun d => d = 0%R) cd -> c = 0%R).
Proof.
  intros Hc Hcd. split; [eapply cost_function_nonneg; exact Hc|].
  rewrite cost_function_of_one_hot in Hc. unfold cost_derivative in Hcd.
  destruct (one_hot a i) as [y|e]; [|discriminate].
  cbn [bind] in Hc, Hcd. inversion Hc; inversion Hcd; subst.
  unfold quadratic, np_sum.
  change (of_Z 0) with 0%R. change fhalf with (1 / 2)%R.
  change fadd with Rplus. change fmul with Rmult.
  intros Hall.
  assert (Hsum : fold_left Rplus (map (fun d => (d * d)%R) (vsub a y)) 0%R
                 = 0%R).
  { apply sum_of_zero_squares. exact Hall. }
  rewrite Hsum. lra.
Qed.

Lemma hits_when_all_match (self : Network R) (td : dataset R) :
  (forall ex, In ex td -> is_hit self ex = true) ->
  hits self td = length td.
Proof.
  unfold hits. induction td as [|ex td IH]; intros Hall; [reflexivity|].
  simpl. rewrite (Hall ex (or_introl eq_refl)). simpl. f_equal.
  apply IH. intros ex' Hex'. apply Hall. now right.
Qed.

Lemma hits_when_none_match (self : Network R) (td : dataset R) :
  (forall ex, In ex td -> is_hit self ex = false) ->
  hits self td = 0.
Proof.
  unfold hits. induction td as [|ex td IH]; intros Hall; [reflexivity|].
  simpl. rewrite (Hall ex (or_introl eq_refl)).
  apply IH. intros ex' Hex'. apply Hall. now right.
Qed.

(** For a network of the declared shapes whose activation keeps lengths,
    on a non-empty dataset whose rows fit the input layer, [evaluate]
    returns exactly 100 when the arg-max equals the label in every row and
    exactly 0 when it does in none. *)
Theorem evaluate_extremes (self : Network R) (td : dataset R) :
  well_shaped self ->
  keeps_length (activate_function self) ->
  rows_fit self td ->
  td <> [] ->
  ((forall ex, In ex td -> is_hit self ex = true) ->
   evaluate td self = Ok (100%R, self)) /\
  ((forall ex, In ex td -> is_hit self ex = false) ->
   evaluate td self = Ok (0%R, self)).
Proof.
  intros Hws Hact Hrows Hne.
  assert (Hout : forall ex, In ex td -> forward_feed self (fst ex) <> []).
  { intros ex Hex. apply forward_feed_nonempty; [exact Hws|exact Hact|].
    apply Hrows. exact Hex. }
  assert (Hn : (0 < IZR (Z.of_nat (length td)))%R).
  { apply (IZR_lt 0). destruct td; [congruence|simpl; lia]. }
  split; intros Hall;
    rewrite (@evaluate_returns R R_scalar self td Hne Hout).
  - rewrite (hits_when_all_match self td Hall). do 2 f_equal.
    change (IZR (Z.of_nat (length td)) / IZR (Z.of_nat (length td)) * 100
            = 100)%R.
    field. lra.
  - rewrite (hits_when_none_match self td Hall). do 2 f_equal.
    change (0 / IZR (Z.of_nat (length td)) * 100 = 0)%R.
    field. lra.
Qed.

Section AverageCost.
Context {F : Type} {SF : Scalar F}.

(** The loop of [J_average] adds up the costs of the rows, in order. *)
Lemma total_cost_loop (self : Network F) (td : dataset F) (acc : F) :
  foldM (fun total_cost '(x, y) =>
           let output_activation := forward_feed self x in
           c <- cost_function output_activation (PyFloat y) ;;
           Ok (fadd total_cost c))
        td acc
  = (costs <- mapM (fun ex => cost_function (forward_feed self (fst ex))
                                            (PyFloat (snd ex))) td ;;
     Ok (fold_left fadd costs acc)).
Proof.
  revert acc. induction td as [|[x y] td IH]; intros acc; [reflexivity|].
  cbn [foldM mapM fst snd]. cbv zeta.
  destruct (cost_function (forward_feed self x) (PyFloat y)) as [c|e];
    [|reflexivity].
  cbn [bind]. rewrite IH.
  match goal with |- context [mapM ?f td] => destruct (mapM f td) end;
    reflexivity.
Qed.

End AverageCost.

Lemma mapM_length {A B : Type} (f : A -> result B) (l : list A)
      (bs : list B) :
  mapM f l = Ok bs -> length bs = length l.
Proof.
  revert bs. induction l as [|a l IH]; intros bs Hm.
  - inversion Hm. reflexivity.
  - simpl in Hm. do 2 bind_ok Hm. inversion Hm; subst.
    simpl. f_equal. apply IH. reflexivity.
Qed.

Lemma mapM_forall {A B : Type} (f : A -> result B) (P : B -> Prop)
      (l : list A) (bs : list B) :
  (forall a b, f a = Ok b -> P b) -> mapM f l = Ok bs -> Forall P bs.
Proof.
  intros Hf. revert bs. induction l as [|a l IH]; intros bs Hm.
  - inversion Hm. constructor.
  - simpl in Hm. do 2 bind_ok Hm. inversion Hm; subst.
    constructor; [eapply Hf; eassumption|apply IH; reflexivity].
Qed.

Lemma sum_nonneg (l : list R) (acc : R) :
  Forall (fun c => (0 <= c)%R) l -> (acc <= fold_left Rplus l acc)%R.
Proof.
  intros Hall. revert acc. induction Hall as [|c l Hc _ IH]; intros acc;
    [simpl; lra|].
  simpl. specialize (IH (acc + c)%R). lra.
Qed.

(** Over the reals, when [J_average] returns it has left the object as it
    was, the dataset has at least one row, and the value is the sum of the
    costs of the rows divided by their number: a mean of non-negative
    costs, hence not negative. *)
Theorem J_average_is_mean_cost (self self' : Network R) (td : dataset R)
        (r : R) :
  J_average td self = Ok (r, self') ->
  self' = self /\ td <> [] /\
  exists costs,
    mapM (fun ex => cost_function (forward_feed self (fst ex))
                                  (PyFloat (snd ex))) td = Ok costs /\
    length costs = length td /\
    Forall (fun c => (0 <= c)%R) costs /\
    r = (fold_left Rplus costs 0 / IZR (Z.of_nat (length td)))%R /\
    (0 <= r)%R.
Proof.
  intros Hj. split; [eapply J_average_frame; exact Hj|].
  unfold J_average in Hj. rewrite total_cost_loop in Hj.
  bind_ok Hj. rename a into total. bind_ok E. rename a into costs.
  inversion E; subst; clear E.
  bind_ok Hj. rename a into q. inversion Hj; subst; clear Hj.
  unfold py_div_int in E.
  destruct (Z.of_nat (length td) =? 0)%Z eqn:En; [discriminate|].
  apply Z.eqb_neq in En. inversion E; subst; clear E.
  split; [intros ->; simpl in En; lia|].
  assert (Hcosts : Forall (fun c => (0 <= c)%R) costs).
  { eapply mapM_forall; [|exact E0].
    intros ex c Hc. eapply cost_function_nonneg. exact Hc. }
  exists costs. split; [reflexivity|].
  split; [eapply mapM_length; exact E0|].
  split; [exact Hcosts|]. split; [reflexivity|].
  pose proof (sum_nonneg 0%R Hcosts) as Hsum.
  assert (Hn : (0 < IZR (Z.of_nat (length td)))%R) by (apply (IZR_lt 0); lia).
  change (0 <= fold_left Rplus costs 0 / IZR (Z.of_nat (length td)))%R.
  apply Rmult_le_pos; [exact Hsum|].
  apply Rlt_le, Rinv_0_lt_compat. exact Hn.
Qed.

(** ** When an update returns, and what [sgd] returns *)

Section ReturnExtras.
Context {F : Type} {SF : Scalar F}.

Lemma mapM_returns_iff {A B : Type} (f : A -> result B) (l : list A) :
  (exists bs, mapM f l = Ok bs) <-> (forall a, In a l -> exists b, f a = Ok b).
Proof.
  induction l as [|a l IH]; simpl.
  - split; [intros _ a []|intros _; eexists; reflexivity].
  - destruct (f a) as [b|e] eqn:Ea; cbn [bind].
    + destruct (mapM f l) as [bs|e]; cbn [bind].
      * split; [|intros _; eexists; reflexivity].
        intros _ a' [<-|Ha']; [eexists; exact Ea|].
        apply (proj1 IH); [eexists; reflexivity|exact Ha'].
      * split; [intros (bs & Hbs); discriminate|].
        intros Hall.
        destruct (proj2 IH (fun a' Ha' => Hall a' (or_intror Ha')))
          as (bs & Hbs).
        discriminate.
    + split; [intros (bs & Hbs); discriminate|].
      intros Hall. destruct (Hall a (or_introl eq_refl)) as (b & Hb).
      congruence.
Qed.

Lemma mapM_raises_at {A B : Type} (f : A -> result B) (pre post : list A)
      (a : A) (e : exn) :
  (forall a', In a' pre -> exists b, f a' = Ok b) ->
  f a = Raise e ->
  mapM f (pre ++ a :: post) = Raise e.
Proof.
  induction pre as [|a0 pre IH]; intros Hpre Hfail; simpl.
  - rewrite Hfail. reflexivity.
  - destruct (Hpre a0 (or_introl eq_refl)) as (b & Hb). rewrite Hb.
    cbn [bind]. rewrite IH; [reflexivity| |exact Hfail].
    intros a' Ha'. apply Hpre. now right.
Qed.

(** For a trainable network and a non-empty mini-batch of fitting rows,
    [update_mini_batch] returns exactly when [backprop] returns on each
    example of the batch; when [backprop] raises on an example and returned
    on those before it, [update_mini_batch] raises the same exception,
    before it assigns anything. *)
Theorem update_mini_batch_returns_iff (self : Network F)
        (mini_batch : dataset F) (learning_rate : F) :
  trainable self ->
  rows_fit self mini_batch ->
  mini_batch <> [] ->
  ((exists self',
       update_mini_batch mini_batch learning_rate self = Ok (tt, self'))
   <-> (forall ex, In ex mini_batch ->
          exists g, backprop self (fst ex) (PyFloat (snd ex)) = Ok g)) /\
  (forall pre ex post e,
      mini_batch = pre ++ ex :: post ->
      (forall ex', In ex' pre ->
         exists g, backprop self (fst ex') (PyFloat (snd ex')) = Ok g) ->
      backprop self (fst ex) (PyFloat (snd ex)) = Raise e ->
      update_mini_batch mini_batch learning_rate self = Raise e).
Proof.
  intros _ _ Hne. split.
  - rewrite update_mini_batch_formula by exact Hne.
    rewrite <- (mapM_returns_iff
                  (fun ex => backprop self (fst ex) (PyFloat (snd ex)))
                  mini_batch).
    unfold batch_gradients. split.
    + intros (self' & Hup). bind_ok Hup. eexists. reflexivity.
    + intros (bs & Hbs). rewrite Hbs. cbn [bind]. eexists. reflexivity.
  - intros pre ex post e Hsplit Hpre Hfail.
    unfold update_mini_batch. rewrite accumulate_sums.
    pose proof (mapM_raises_at
                  (fun ex => backprop self (fst ex) (PyFloat (snd ex)))
                  pre post ex Hpre Hfail) as Hraise.
    assert (Hgrads : batch_gradients self mini_batch = Raise e)
      by (rewrite Hsplit; exact Hraise).
    rewrite Hgrads. reflexivity.
Qed.

Lemma combine_app_eq {A B : Type} (l1 l2 : list A) (m1 m2 : list B) :
  length m1 = length l1 ->
  combine (l1 ++ l2) (m1 ++ m2) = combine l1 m1 ++ combine l2 m2.
Proof.
  revert m1. induction l1 as [|a l1 IH]; intros [|b m1] Hlen;
    simpl in *; try lia; [reflexivity|].
  f_equal. apply IH. lia.
Qed.

(** The layers are applied in order: feeding an input through a network
    gives what its later layers give on the output of its earlier ones. *)
Theorem forward_feed_composes (self first second : Network F) (x : vec F) :
  activate_function first = activate_function self ->
  activate_function second = activate_function self ->
  weights self = weights first ++ weights second ->
  biases self = biases first ++ biases second ->
  length (biases first) = length (weights first) ->
  forward_feed self x = forward_feed second (forward_feed first x).
Proof.
  intros Hact1 Hact2 Hws Hbs Hlen. unfold forward_feed.
  rewrite Hws, Hbs, Hact1, Hact2.
  rewrite combine_app_eq by exact Hlen.
  apply fold_left_app.
Qed.

(** [zip(self.weights, self.biases)] stops at the shorter list: surplus
    weight matrices or bias vectors are ignored by [forward_feed]. *)
Theorem forward_feed_ignores_surplus (self cut : Network F) (x : vec F) :
  activate_function cut = activate_function self ->
  let m := Nat.min (length (weights self)) (length (biases self)) in
  weights cut = firstn m (weights self) ->
  biases cut = firstn m (biases self) ->
  forward_feed cut x = forward_feed self x.
Proof.
  intros Hact m Hws Hbs. unfold forward_feed.
  rewrite Hws, Hbs, Hact. rewrite <- combine_firstn.
  rewrite firstn_all2; [reflexivity|].
  rewrite length_combine. unfold m. lia.
Qed.

End ReturnExtras.

Section SGDResult.
Context {F : Type} {SF : Scalar F}.
Variable G : Type.
Variable shuffle : G -> dataset F -> dataset F * G.
Variable py_round : F -> Z -> F.

(** What [sgd] returns: with test data, the accuracy [evaluate] computes
    on the network the call leaves behind; without, the int 0. *)
Theorem sgd_returns_final_accuracy (size max_epochs : Z) (lr : F)
        (dir : String.string) (td : option (dataset F)) (w w' : world F G)
        (r : pynum F) :
  sgd shuffle py_round size max_epochs lr dir td w = Ok (r, w') ->
  match td with
  | Some test_data =>
      exists v, r = PyFloat v /\
                evaluate test_data (net w') = Ok (v, net w')
  | None => r = PyInt 0
  end.
Proof.
  unfold sgd. intros Hsgd. bind_ok Hsgd. rename a into w1.
  destruct td as [td|].
  - bind_ok Hsgd. destruct a as [v self]. inversion Hsgd; subst.
    pose proof (evaluate_frame _ _ E0) as Hself. subst self.
    exists v. split; [reflexivity|exact E0].
  - inversion Hsgd; subst. reflexivity.
Qed.

(** With test data of zero rows [sgd] never returns, whatever the number
    of epochs: it raises, at the latest in the evaluation it ends with,
    which divides by zero. *)
Theorem sgd_empty_test_data_raises (size max_epochs : Z) (lr : F)
        (dir : String.string) (w : world F G) :
  exists e,
    sgd shuffle py_round size max_epochs lr dir (Some []) w = Raise e.
Proof.
  destruct (sgd shuffle py_round size max_epochs lr dir (Some []) w)
    as [[r w']|e] eqn:Hsgd; [|exists e; reflexivity].
  exfalso. unfold sgd in Hsgd. bind_ok Hsgd. discriminate Hsgd.
Qed.

End SGDResult.

(** ** The further properties at concrete inputs *)

Lemma example_network_trainable : trainable example_network.
Proof.
  split; [exact example_network_well_shaped|].
  split; [exact sigmoid_keeps_length|].
  split; [exact sigmoid_derivative_keeps_length|].
  exact cost_derivative_keeps_length.
Qed.

Lemma forward_feed_output_length_witness :
  well_shaped example_network /\
  length [1; 0]%R = input_size example_network /\
  length (forward_feed example_network [1; 0]%R) = 1.
Proof.
  split; [exact example_network_well_shaped|]. split; [reflexivity|].
  exact (@forward_feed_output_length R R_scalar example_network [1; 0]%R
           example_network_well_shaped sigmoid_keeps_length eq_refl).
Defined.

Lemma backprop_gradient_shapes_witness :
  trainable example_network /\
  exists gw gb,
    backprop example_network [1; 0]%R (PyFloat 0%R) = Ok (gw, gb) /\
    layers_shaped 2 [2; 1] gw gb.
Proof.
  split; [exact example_network_trainable|].
  destruct example_cost_derivative as (cd & Hcd).
  exact (@backprop_gradient_shapes R R_scalar example_network [1; 0]%R
           (PyFloat 0%R) cd example_network_trainable eq_refl Hcd).
Defined.

Lemma single_layer_cost :
  exists cd, cost_der single_layer_network [1; 0; 0]%R (PyInt 0) = Ok cd.
Proof. eexists. reflexivity. Qed.

Lemma backprop_without_layers_witness :
  weights single_layer_network = [] /\
  forward_feed single_layer_network [1; 0; 0]%R = [1; 0; 0]%R /\
  backprop single_layer_network [1; 0; 0]%R (PyInt 0) = Raise IndexError.
Proof.
  split; [reflexivity|].
  destruct single_layer_cost as (cd & Hcd).
  exact (@backprop_without_layers R R_scalar single_layer_network
           [1; 0; 0]%R (PyInt 0) cd (or_introl eq_refl) Hcd).
Defined.

Lemma declared_parameters_fit :
  parameters_fit long_declared_network [1; 0]%R /\
  parameters_fit short_declared_network [1; 0]%R.
Proof.
  split; exists [2; 1]; simpl; repeat split; repeat constructor.
Qed.

Lemma long_declared_cost :
  exists cd,
    cost_der long_declared_network
             (forward_feed long_declared_network [1; 0]%R) (PyInt 0) = Ok cd.
Proof. eexists. reflexivity. Qed.

Lemma backprop_too_many_layers_witness :
  parameters_fit long_declared_network [1; 0]%R /\
  S (length (weights long_declared_network))
  < num_layers long_declared_network /\
  backprop long_declared_network [1; 0]%R (PyInt 0) = Raise IndexError.
Proof.
  assert (Hmany : S (length (weights long_declared_network))
                  < num_layers long_declared_network) by (simpl; lia).
  split; [exact (proj1 declared_parameters_fit)|]. split; [exact Hmany|].
  destruct long_declared_cost as (cd & Hcd).
  assert (Hpos : 1 <= length (weights long_declared_network))
    by (simpl; lia).
  exact (@backprop_too_many_layers R R_scalar long_declared_network
           [1; 0]%R (PyInt 0) cd (proj1 declared_parameters_fit)
           sigmoid_keeps_length sigmoid_derivative_keeps_length
           cost_derivative_keeps_length Hpos Hcd Hmany).
Defined.



Lemma example_update_returns :
  exists self', update_mini_batch example_batch 3%R example_network
                = Ok (tt, self').
Proof.
  destruct example_batch_gradients as (grads & Hgrads).
  rewrite update_mini_batch_formula by discriminate.
  rewrite Hgrads. eexists. reflexivity.
Qed.

Lemma update_mini_batch_keeps_shapes_witness :
  trainable example_network /\
  rows_fit example_network example_batch /\
  exists self',
    update_mini_batch example_batch 3%R example_network = Ok (tt, self') /\
    well_shaped self'.
Proof.
  split; [exact example_network_trainable|].
  split; [exact example_batch_rows|].
  destruct example_update_returns as (self' & Hup).
  exists self'. split; [exact Hup|].
  exact (proj1 (@update_mini_batch_keeps_shapes R R_scalar example_network
                  self' example_batch 3%R example_network_trainable
                  example_batch_rows Hup)).
Defined.





Lemma example_mini_batches :
  mini_batches_of (fst (reversing_shuffle tt example_batch))
                  (Z.of_nat (length example_batch)) 1
  = Ok [example_batch].
Proof. reflexivity. Qed.

Lemma example_sgd_returns :
  exists w',
    sgd reversing_shuffle no_round 1 1 3%R String.EmptyString None
        example_world = Ok (PyInt 0, w').
Proof.
  destruct example_update_returns as (self' & Hup).
  unfold sgd. change (Z.to_nat 1) with 1. cbn [seq map foldM].
  unfold sgd_epoch at 1.
  change (reversing_shuffle (rng example_world) (data example_world))
    with (fst (reversing_shuffle tt example_batch), tt).
  cbv iota beta.
  change (length (data example_world)) with (length example_batch).
  rewrite example_mini_batches. cbn [bind foldM].
  change (net example_world) with example_network.
  rewrite Hup. cbn [bind]. eexists. reflexivity.
Qed.

Lemma reversing_shuffle_permutes (g : unit) (d : dataset R) :
  Permutation d (fst (reversing_shuffle g d)).
Proof. apply Permutation_rev. Qed.

Lemma example_world_rows : rows_fit (net example_world) (data example_world).
Proof. exact example_batch_rows. Qed.

Lemma sgd_keeps_trainable_witness :
  trainable (net example_world) /\
  exists w',
    sgd reversing_shuffle no_round 1 1 3%R String.EmptyString None
        example_world = Ok (PyInt 0, w') /\
    trainable (net w') /\ rows_fit (net w') (data w').
Proof.
  split; [exact example_network_trainable|].
  destruct example_sgd_returns as (w' & Hsgd).
  exists w'. split; [exact Hsgd|].
  destruct (@sgd_keeps_trainable R R_scalar unit reversing_shuffle no_round
              1 1 3%R String.EmptyString None example_world w' (PyInt 0)
              reversing_shuffle_permutes example_network_trainable
              example_world_rows Hsgd) as (Htr & Hrows & _).
  split; assumption.
Defined.

Lemma sgd_permutes_data_witness :
  exists w',
    sgd reversing_shuffle no_round 1 1 3%R String.EmptyString None
        example_world = Ok (PyInt 0, w') /\
    Permutation (data example_world) (data w').
Proof.
  destruct example_sgd_returns as (w' & Hsgd).
  exists w'. split; [exact Hsgd|].
  exact (@sgd_permutes_data R R_scalar unit reversing_shuffle no_round
           1 1 3%R String.EmptyString None example_world w' (PyInt 0)
           reversing_shuffle_permutes Hsgd).
Defined.

Lemma sgd_logs_and_saves_each_epoch_witness :
  exists w' events,
    sgd reversing_shuffle no_round 1 1 3%R String.EmptyString None
        example_world = Ok (PyInt 0, w') /\
    trace w' = trace example_world ++ events /\
    length events = 2.
Proof.
  destruct example_sgd_returns as (w' & Hsgd).
  destruct (@sgd_logs_and_saves_each_epoch R R_scalar unit reversing_shuffle
              no_round 1 1 3%R String.EmptyString None example_world w'
              (PyInt 0) Hsgd) as (events & Hev & Hlen & _).
  exists w', events. split; [exact Hsgd|]. split; [exact Hev|exact Hlen].
Defined.

Lemma sgd_without_batches_witness :
  (data empty_world = [] \/ 4 < 0)%Z /\
  (4 <> 0)%Z /\
  exists w',
    sgd reversing_shuffle no_round 4 2 3%R String.EmptyString None
        empty_world = Ok (PyInt 0, w') /\
    net w' = net empty_world.
Proof.
  assert (Hcase : (data empty_world = [] \/ 4 < 0)%Z) by (left; reflexivity).
  assert (Hsize : (4 <> 0)%Z) by discriminate.
  split; [exact Hcase|]. split; [exact Hsize|].
  exact (proj2 (@sgd_without_batches R R_scalar unit reversing_shuffle
                  no_round 4 2 3%R String.EmptyString empty_world
                  Hcase Hsize)).
Defined.

Lemma sgd_zero_batch_size_witness :
  (0 < 1)%Z /\
  sgd reversing_shuffle no_round 0 1 3%R String.EmptyString None
      example_world = Raise ValueError.
Proof.
  assert (Hpos : (0 < 1)%Z) by reflexivity.
  split; [exact Hpos|].
  exact (@sgd_zero_batch_size R R_scalar unit reversing_shuffle no_round
           1 3%R String.EmptyString None example_world Hpos).
Defined.

Lemma mini_batches_partition_witness :
  (1 <= 1)%Z /\
  exists bs,
    mini_batches_of example_batch (Z.of_nat (length example_batch)) 1
    = Ok bs /\
    concat bs = example_batch.
Proof.
  assert (Hsize : (1 <= 1)%Z) by discriminate.
  split; [exact Hsize|].
  destruct (@mini_batches_partition R example_batch 1 Hsize)
    as (bs & Hbs & Hcat & _).
  exists bs. split; [exact Hbs|exact Hcat].
Defined.

Lemma init_example_drawn :
  Network_init constant_generator [2; 1]%Z None None
               sigmoid sigmoid_derivative cost_derivative tt
  = Ok (drawn_network, tt).
Proof. reflexivity. Qed.

Lemma init_random_well_shaped_witness :
  2 <= length [2; 1]%Z /\
  Forall (fun n => (0 < n)%Z) [2; 1]%Z /\
  well_shaped drawn_network.
Proof.
  assert (Htwo : 2 <= length [2; 1]%Z) by (simpl; lia).
  assert (Hpos : Forall (fun n => (0 < n)%Z) [2; 1]%Z)
    by (repeat constructor).
  split; [exact Htwo|]. split; [exact Hpos|].
  exact (proj1 (@init_random_well_shaped R unit constant_generator
                  [2; 1]%Z sigmoid sigmoid_derivative cost_derivative tt tt
                  drawn_network Htwo Hpos init_example_drawn)).
Defined.

Lemma init_negative_size_rejected_witness :
  2 <= length [2; -1]%Z /\
  Network_init constant_generator [2; -1]%Z None None
               sigmoid sigmoid_derivative cost_derivative tt
  = Raise ValueError.
Proof.
  assert (Htwo : 2 <= length [2; -1]%Z) by (simpl; lia).
  split; [exact Htwo|].
  assert (Hneg : exists n, In n [2; -1]%Z /\ (n < 0)%Z).
  { exists (-1)%Z. split; [right; now left|reflexivity]. }
  exact (@init_negative_size_rejected R unit constant_generator
           [2; -1]%Z None sigmoid sigmoid_derivative cost_derivative tt
           Htwo Hneg).
Defined.

Lemma even_output_cost :
  exists c cd,
    cost_function [1 / 2; 1 / 2]%R (PyInt 1) = Ok c /\
    cost_derivative [1 / 2; 1 / 2]%R (PyInt 1) = Ok cd.
Proof. eexists _, _. split; reflexivity. Qed.

Lemma cost_function_zero_at_target_witness :
  exists c cd,
    cost_function [1 / 2; 1 / 2]%R (PyInt 1) = Ok c /\
    cost_derivative [1 / 2; 1 / 2]%R (PyInt 1) = Ok cd /\
    (0 <= c)%R.
Proof.
  destruct even_output_cost as (c & cd & Hc & Hcd).
  exists c, cd. split; [exact Hc|]. split; [exact Hcd|].
  exact (proj1 (@cost_function_zero_at_target [1 / 2; 1 / 2]%R (PyInt 1) c cd
                  Hc Hcd)).
Defined.

Lemma evaluate_extremes_witness :
  well_shaped example_network /\
  rows_fit example_network example_batch /\
  example_batch <> [] /\
  ((forall ex, In ex example_batch -> is_hit example_network ex = true) ->
   evaluate example_batch example_network = Ok (100%R, example_network)).
Proof.
  assert (Hne : example_batch <> []) by discriminate.
  split; [exact example_network_well_shaped|].
  split; [exact example_batch_rows|]. split; [exact Hne|].
  exact (proj1 (@evaluate_extremes example_network example_batch
                  example_network_well_shaped sigmoid_keeps_length
                  example_batch_rows Hne)).
Defined.

Lemma update_mini_batch_returns_iff_witness :
  trainable example_network /\
  rows_fit example_network example_batch /\
  example_batch <> [] /\
  ((exists self',
       update_mini_batch example_batch 3%R example_network = Ok (tt, self'))
   <-> (forall ex, In ex example_batch ->
          exists g, backprop example_network (fst ex) (PyFloat (snd ex))
                    = Ok g)).
Proof.
  assert (Hne : example_batch <> []) by discriminate.
  split; [exact example_network_trainable|].
  split; [exact example_batch_rows|]. split; [exact Hne|].
  exact (proj1 (@update_mini_batch_returns_iff R R_scalar example_network
                  example_batch 3%R example_network_trainable
                  example_batch_rows Hne)).
Defined.

Lemma example_J_average_returns :
  exists r self',
    J_average example_batch example_network = Ok (r, self').
Proof.
  unfold J_average, example_batch. cbn [foldM length].
  cbv zeta. unfold cost_function, one_hot. cbn [py_int].
  change (ftrunc 0%R) with (Ok (A := Z) (Rtrunc (IZR 0))).
  rewrite Rtrunc_IZR. eexists _, _. reflexivity.
Qed.

Lemma J_average_is_mean_cost_witness :
  exists r self',
    J_average example_batch example_network = Ok (r, self') /\
    self' = example_network /\ (0 <= r)%R.
Proof.
  destruct example_J_average_returns as (r & self' & Hj).
  exists r, self'. split; [exact Hj|].
  destruct (@J_average_is_mean_cost example_network self' example_batch r Hj)
    as (Hself & _ & costs & _ & _ & _ & _ & Hr).
  split; [exact Hself|exact Hr].
Defined.

Lemma forward_feed_composes_witness :
  weights example_network
  = weights first_transition ++ weights second_transition /\
  forward_feed example_network [1; 0]%R
  = forward_feed second_transition (forward_feed first_transition [1; 0]%R).
Proof.
  split; [reflexivity|].
  exact (@forward_feed_composes R R_scalar example_network first_transition
           second_transition [1; 0]%R eq_refl eq_refl eq_refl eq_refl
           eq_refl).
Defined.

Lemma forward_feed_ignores_surplus_witness :
  weights first_transition = firstn 1 (weights surplus_network) /\
  forward_feed first_transition [1; 0]%R
  = forward_feed surplus_network [1; 0]%R.
Proof.
  split; [reflexivity|].
  exact (@forward_feed_ignores_surplus R R_scalar surplus_network
           first_transition [1; 0]%R eq_refl eq_refl eq_refl).
Defined.

Lemma example_sgd_with_test_data :
  exists v w',
    sgd reversing_shuffle no_round 1 0 3%R String.EmptyString
        (Some example_batch) example_world = Ok (PyFloat v, w').
Proof.
  assert (Hne : example_batch <> []) by discriminate.
  unfold sgd. change (Z.to_nat 0) with 0. cbn [seq map foldM bind].
  change (net example_world) with example_network.
  rewrite (@evaluate_returns R R_scalar example_network example_batch Hne
             example_outputs_nonempty).
  eexists _, _. reflexivity.
Qed.

Lemma sgd_returns_final_accuracy_witness :
  exists v w',
    sgd reversing_shuffle no_round 1 0 3%R String.EmptyString
        (Some example_batch) example_world = Ok (PyFloat v, w') /\
    exists v', PyFloat v = PyFloat v' /\
               evaluate example_batch (net w') = Ok (v', net w').
Proof.
  destruct example_sgd_with_test_data as (v & w' & Hsgd).
  exists v, w'. split; [exact Hsgd|].
  exact (@sgd_returns_final_accuracy R R_scalar unit reversing_shuffle
           no_round 1 0 3%R String.EmptyString (Some example_batch)
           example_world w' (PyFloat v) Hsgd).
Defined.
